(** * telliot: signed data-server proxy, config validation, HTTP retries and
    the [mine] command start-up, embedded from the Go sources.

    - [pkg/db/remoteRequest.go]   : request payload and its wire codec
    - [pkg/pow/miningSetup.go]    : its [package db] part, [remoteImpl]
                                    ([Verify], [hasAddressPrefix],
                                    [IncomingRequest])
    - [pkg/config/config.go]      : [validateConfig]
    - [pkg/util/httpRetriever.go] : [HTTPWithRetries] / [_recReq]
    - [unnamed/part_000]          : [package main], [ExitOnError], [mineCmd]

    Go values are modelled as the code has them: a slice is either [nil] or
    a list, [int64]/[uint32] are [Z] with the wrap-around written out, a
    [map] is a [gmap], errors are messages, every function that mutates
    the receiver returns the new state next to its result, and a [make]
    whose size comes from the wire can end the process. *)

From Stdlib Require Import ZArith Lia QArith.
From Stdlib Require Import Strings.Byte Strings.Ascii Strings.String.
From stdpp Require Import gmap strings list fin_maps pretty.

Local Open Scope string_scope.
Local Open Scope list_scope.
Local Open Scope Z_scope.

(** ** Go values *)

(** A Go slice: the [nil] slice is distinct from an empty, allocated one
    ([x == nil] tells them apart, [len] does not). *)
Definition slice (A : Type) : Type := option (list A).

Definition is_nil {A} (s : slice A) : bool :=
  match s with None => true | Some _ => false end.

Definition elems {A} (s : slice A) : list A :=
  match s with None => [] | Some l => l end.

Definition len {A} (s : slice A) : Z := Z.of_nat (length (elems s)).

(** [make([]T, n)] followed by element-wise assignment yields an allocated
    slice, never [nil], also when [n = 0]. *)
Definition make_from {A} (l : list A) : slice A := Some l.

(** Go [error]: [nil] is [None]; a non-nil error carries its message. *)
Definition error := string.

Inductive res (A : Type) : Type :=
| Ok (a : A)
| Err (e : error).
Arguments Ok {A} a.
Arguments Err {A} e.

Definition res_bind {A B} (m : res A) (k : A -> res B) : res B :=
  match m with Ok a => k a | Err e => Err e end.

Notation "'try' x <- m 'in' k" := (res_bind m (fun x => k))
  (at level 10, x pattern, m at level 100, k at level 200).

Definition uint32 (z : Z) : Z := z mod 2 ^ 32.
Definition int64 (z : Z) : Z := (z + 2 ^ 63) mod 2 ^ 64 - 2 ^ 63.

(** ** The Go runtime *)

(** [make([]T, n)] asks the runtime for the memory of [n] elements at once.
    When the memory cannot be had, the runtime ends the process with
    [fatal error: runtime: out of memory]. This is not a panic: no
    deferred call runs and [recover] does not see it. Whether the memory
    can be had is decided by the machine, not by the program:
    [available bytes] is the answer of the runtime to a request for that
    many bytes. *)
Class Runtime : Type := {
  available : Z -> bool
}.

(** The size of a slice element on a 64-bit platform: a string is a
    pointer and a length, a slice a pointer, a length and a capacity. *)
Definition sizeof_string : Z := 16.
Definition sizeof_slice : Z := 24.

(** Whether [make([]T, n)] returns. A slice of no elements needs no
    memory. For a [uint32] count and these element sizes the request stays
    below the largest allocation the runtime admits, so [make] does not
    panic with [len out of range]. *)
Definition can_make {HR : Runtime} (elemSize n : Z) : bool :=
  (n =? 0) || available (elemSize * n).

(** What a call comes to when it allocates: it returns, or the process
    has ended. *)
Inductive run (A : Type) : Type :=
| Returned (a : A)
| OutOfMemory.
Arguments Returned {A} a.
Arguments OutOfMemory {A}.

(** [strings.HasPrefix(s, prefix)]. *)
Fixpoint HasPrefix (s prefix : string) : bool :=
  match prefix, s with
  | EmptyString, _ => true
  | String _ _, EmptyString => false
  | String p prefix', String c s' =>
      if Ascii.eqb p c then HasPrefix s' prefix' else false
  end.

(** ** Wire primitives of [package db] *)

Module Wire.

Definition byte_of_Z (z : Z) : byte :=
  match Byte.of_N (Z.to_N (z mod 256)) with
  | Some b => b
  | None => "000"%byte
  end.

Definition Z_of_byte (b : byte) : Z := Z.of_N (Byte.to_N b).

(** Big-endian bytes of the low [8 * width] bits of [z] (two's complement
    for a negative [z]). *)
Fixpoint be_bytes (width : nat) (z : Z) : list byte :=
  match width with
  | O => []
  | S w => byte_of_Z (Z.shiftr z (8 * Z.of_nat w)) :: be_bytes w z
  end.

Arguments be_bytes : simpl never.

Definition be_value (bs : list byte) : Z :=
  fold_left (fun acc b => acc * 256 + Z_of_byte b) bs 0.

(** Modelled from the spec: [encode] of package db, whose source is
    missing, for the two fixed-width types the request codec passes to it.
    The spec gives the layout as length-prefixed, big-endian, with an
    [int64] timestamp and [uint32] counts; writing to an in-memory buffer
    does not fail. *)
Definition encode_int64 (buf : list byte) (v : Z) : list byte :=
  buf ++ be_bytes 8 v.

Definition encode_uint32 (buf : list byte) (v : Z) : list byte :=
  buf ++ be_bytes 4 v.

(** Modelled from the spec: [encodeBytes] of package db, missing here:
    [uint32 len, bytes]. A [nil] slice has length zero. *)
Definition encodeBytes (buf : list byte) (bts : slice byte) : list byte :=
  encode_uint32 buf (uint32 (len bts)) ++ elems bts.

(** Modelled from the spec: [encodeString] of package db, missing
    here: a key is written as its bytes, length-prefixed. *)
Definition encodeString (buf : list byte) (s : string) : list byte :=
  encodeBytes buf (Some (list_byte_of_string s)).

(** A reader over the remaining input ([bytes.Reader]). *)
Definition Reader (A : Type) : Type := list byte -> res (A * list byte).

Definition rret {A} (a : A) : Reader A := fun buf => Ok (a, buf).

Definition rbind {A B} (m : Reader A) (k : A -> Reader B) : Reader B :=
  fun buf =>
    match m buf with
    | Ok (a, buf') => k a buf'
    | Err e => Err e
    end.

(** Reading exactly [n] bytes: end of input before the first byte is
    [EOF], in the middle [unexpected EOF]. *)
Definition read_full (n : nat) : Reader (list byte) :=
  fun buf =>
    if (n <=? length buf)%nat then Ok (take n buf, drop n buf)
    else match buf with
         | [] => Err "EOF"
         | _ => Err "unexpected EOF"
         end.

(** Modelled from the spec: [decode] of package db, missing here, at
    [*int64] and [*uint32]: the inverse reads of [encode]. *)
Definition decode_int64 : Reader Z :=
  rbind (read_full 8) (fun bs => rret (int64 (be_value bs))).

Definition decode_uint32 : Reader Z :=
  rbind (read_full 4) (fun bs => rret (be_value bs)).

(** Modelled from the spec: [decodeBytes] of package db, missing
    here: reads the [uint32] length, then that many bytes into a freshly
    made slice. *)
Definition decodeBytes : Reader (slice byte) :=
  rbind decode_uint32 (fun n =>
  rbind (read_full (Z.to_nat n)) (fun bs => rret (make_from bs))).

(** Modelled from the spec: [decodeString] of package db, missing
    here. *)
Definition decodeString : Reader string :=
  rbind decodeBytes (fun bts => rret (string_of_list_byte (elems bts))).

(** [for i := 0; i < n; i++ { x, err := p(buf); ...; out[i] = x }] *)
Fixpoint repeat_read {A} (n : nat) (p : Reader A) : Reader (list A) :=
  match n with
  | O => rret []
  | S n' => rbind p (fun x => rbind (repeat_read n' p) (fun xs => rret (x :: xs)))
  end.

End Wire.

(** ** Request payload and its codec ([pkg/db/remoteRequest.go]) *)

Record requestPayload : Type := mkRequest {
  dbKeys : slice string;
  dbValues : slice (slice byte);
  timestamp : Z;
  sig : slice byte
}.

(** [RequestValidator]: [Verify] may update the validator (the history of
    the signer), so it returns the new validator with its verdict. *)
Class RequestValidator (V : Type) : Type := {
  Verify : V -> list byte -> Z -> slice byte -> option error * V
}.

Section Codec.

Context {HR : Runtime}.

(** [crypto.Keccak256] of go-ethereum. *)
Variable Keccak256 : list byte -> list byte.

Definition encodeKeysValuesAndTime (buf : list byte) (dbKeys : slice string)
    (values : slice (slice byte)) (timestamp : Z) : res (list byte) :=
  let buf := Wire.encode_int64 buf timestamp in
  match dbKeys with
  | None => Err "No keys to encode"
  | Some keys =>
      let buf := Wire.encode_uint32 buf (uint32 (len dbKeys)) in
      let buf := fold_left Wire.encodeString keys buf in
      match values with
      | Some vals =>
          let buf := Wire.encode_uint32 buf (uint32 (len values)) in
          Ok (fold_left Wire.encodeBytes vals buf)
      | None => Ok (Wire.encode_uint32 buf (uint32 0))
      end
  end.

(** The two slices are made at the size read from the input, before any
    of their elements is read and before any signature is checked. The
    result carries the rest of the input. *)
Definition decodeKeysValuesAndTime (buf : list byte)
  : run (res (slice string * slice (slice byte) * Z * list byte)) :=
  match Wire.decode_int64 buf with
  | Err err => Returned (Err err)
  | Ok (time, buf) =>
  match Wire.decode_uint32 buf with
  | Err err => Returned (Err err)
  | Ok (len, buf) =>
  if negb (can_make sizeof_string len) then OutOfMemory else
  match Wire.repeat_read (Z.to_nat len) Wire.decodeString buf with
  | Err err => Returned (Err err)
  | Ok (dbKeys, buf) =>
  match Wire.decode_uint32 buf with
  | Err err => Returned (Err err)
  | Ok (len, buf) =>
  if negb (can_make sizeof_slice len) then OutOfMemory else
  match Wire.repeat_read (Z.to_nat len) Wire.decodeBytes buf with
  | Err err => Returned (Err err)
  | Ok (values, buf) =>
      Returned (Ok (make_from dbKeys, make_from values, time, buf))
  end
  end
  end
  end
  end.

Definition encodeRequest (r : requestPayload) : res (list byte) :=
  if is_nil (dbKeys r) || (len (dbKeys r) =? 0) then
    Err "No keys in request. No point in making a request if there are no keys"
  else if is_nil (sig r) then
    Err "Cannot encode a request without a signature attached"
  else
    try buf <- encodeKeysValuesAndTime [] (dbKeys r) (dbValues r) (timestamp r) in
    Ok (Wire.encodeBytes buf (sig r)).

Definition decodeRequest {V} {HV : RequestValidator V} (data : list byte)
    (validator : V) : run (res requestPayload * V) :=
  match decodeKeysValuesAndTime data with
  | OutOfMemory => OutOfMemory
  | Returned (Err e) => Returned (Err e, validator)
  | Returned (Ok (keys, vals, time, buf)) =>
      Returned
        (if len keys =? 0 then (Err "No dbKeys in incoming request", validator)
         else
           match Wire.decodeBytes buf with
           | Err e => (Err e, validator)
           | Ok (sig, _) =>
               match encodeKeysValuesAndTime [] keys vals time with
               | Err e => (Err e, validator)
               | Ok hBuf =>
                   let hash := Keccak256 hBuf in
                   match Verify validator hash time sig with
                   | (Some e, validator') => (Err e, validator')
                   | (None, validator') =>
                       (Ok (mkRequest keys vals time sig), validator')
                   end
               end
           end)
  end.

End Codec.

(** ** The data-server side of the proxy ([remoteImpl], package db) *)

(** How long a signed request is good for before it is rejected. *)
Definition _validityThreshold : Z := 2.

(** Go [time]: an instant is written as its number of nanoseconds since
    the Unix epoch. A [time.Time] keeps the seconds since the year 1 in an
    [int64]: [time.Unix] carries whole seconds of [nsec] over into [sec]
    and adds [unixToInternal] to it, both in [int64], so for [sec] within
    62135596800 s of the largest [int64] the sum wraps around and the
    instant returned lies in the far past. [After] compares seconds, then
    nanoseconds. *)
Definition unixToInternal : Z := 62135596800.

Definition time_Unix (sec nsec : Z) : Z :=
  let sec := int64 (sec + nsec / 1000000000) in
  let nsec := nsec mod 1000000000 in
  (int64 (sec + unixToInternal) - unixToInternal) * 1000000000 + nsec.

Definition After (t u : Z) : bool := t >? u.

(** The part of [lru.ARCCache] (hashicorp/golang-lru) that [Verify] uses;
    [Add] always stores the value [true], so only the key is kept. *)
Class History (C : Type) : Type := {
  Contains : C -> Z -> bool;
  Add : C -> Z -> C
}.

(** The part of go-ethereum's [crypto] that [Verify] uses. [addressHex] is
    [strings.ToLower(crypto.PubkeyToAddress(pub).Hex())]. *)
Class Crypto (PubKey : Type) : Type := {
  SigToPub : list byte -> slice byte -> res PubKey;
  addressHex : PubKey -> string
}.

(** The [DB] interface of the embedded store, as [IncomingRequest] uses it.
    A [Put] that returns an error leaves the store as it was; [Get] of an
    absent key returns the nil slice. *)
Class DB (D : Type) : Type := {
  Put : D -> string -> slice byte -> res D;
  Get : D -> string -> res (slice byte)
}.

(** The fields of [remoteImpl] the server side reads. The private key, the
    public address and the post URL serve the client side; the logger and
    the read/write lock have no effect on the values computed. *)
Record remoteImpl (C D : Type) : Type := mkRemote {
  localDB : option D;
  whitelist : gmap string bool;
  wlHistory : gmap string C
}.
Arguments mkRemote {C D} localDB whitelist wlHistory.
Arguments localDB {C D} r.
Arguments whitelist {C D} r.
Arguments wlHistory {C D} r.

Record responsePayload : Type := mkResponse {
  dbVals : gmap string (list byte);
  errorMsg : string
}.

(** Modelled from the spec: [errorResponse] of package db, missing here. A
    response is the entries followed by the error message; an error
    response carries the message and no entries. Responses are kept
    unencoded. *)
Definition errorResponse (msg : string) : responsePayload :=
  mkResponse ∅ msg.

(** What a handler call comes to: a response, a run-time panic, or the end
    of the process by a fatal error of the runtime. *)
Inductive handled : Type :=
| Responded (r : responsePayload)
| Panicked (msg : string)
| Fatal (msg : string).

Inductive writeResult (D : Type) : Type :=
| Written (db : D)
| WriteFailed (msg : error) (db : D)
| WritePanic (msg : string) (db : D).
Arguments Written {D} db.
Arguments WriteFailed {D} msg db.
Arguments WritePanic {D} msg db.

Section Remote.

Context {HR : Runtime}.
Context {C D PubKey : Type} {HC : History C} {HD : DB D} {HK : Crypto PubKey}.

Variable Keccak256 : list byte -> list byte.

(** Modelled from the spec: [isKnownKey] of package db, missing here,
    taken as a parameter: membership in the static allow-list of
    oracle and chain-snapshot keys. *)
Variable isKnownKey : string -> bool.

Definition hasAddressPrefix (i : remoteImpl C D) (key : string) : bool :=
  existsb (fun k => HasPrefix key k) (map fst (map_to_list (whitelist i))).

(** [now] is what [time.Now()] returns inside [Verify]. *)
Definition remote_Verify (now : Z) (i : remoteImpl C D) (hash : list byte)
    (timestamp : Z) (sig : slice byte) : option error * remoteImpl C D :=
  match SigToPub hash sig with
  | Err err => (Some err, i)
  | Ok pubKey =>
      let ashex := addressHex pubKey in
      if negb (default false (whitelist i !! ashex)) then
        (Some "Unauthorized", i)
      else
        match wlHistory i !! ashex with
        | None => (Some "No history found for address", i)
        | Some cache =>
            let accept :=
              (None, mkRemote (localDB i) (whitelist i)
                       (<[ashex := Add cache timestamp]> (wlHistory i))) in
            if Contains cache timestamp then
              let expr := time_Unix (int64 (timestamp + _validityThreshold)) 0 in
              if After now expr then (Some "Request expired", i)
              else accept
            else accept
        end
  end.

Definition remote_validator (now : Z) : RequestValidator (remoteImpl C D) :=
  {| Verify := remote_Verify now |}.

(** The write loop of [IncomingRequest]:
    [for idx, k := range req.dbKeys { ... v := req.dbValues[idx] ... }],
    started at index [idx] with the keys from there on. *)
Fixpoint writeLoop (i : remoteImpl C D) (idx : nat) (keys : list string)
    (values : list (slice byte)) (db : D) : writeResult D :=
  match keys with
  | [] => Written db
  | k :: keys' =>
      if negb (hasAddressPrefix i k) then
        WriteFailed
          "All remote data storage request keys must be prefixed with miner public Ethereum address"
          db
      else
        match values !! idx with
        | None => WritePanic "index out of range" db
        | Some v =>
            match Put db k v with
            | Err err => WriteFailed err db
            | Ok db' => writeLoop i (S idx) keys' values db'
            end
        end
  end.

(** The read loop of [IncomingRequest], filling [outMap]. *)
Fixpoint readLoop (values_nil : bool) (keys : list string) (db : D)
    (outMap : gmap string (list byte)) : res (gmap string (list byte)) :=
  match keys with
  | [] => Ok outMap
  | k :: keys' =>
      if values_nil && negb (isKnownKey k) then
        Err (String.append "Invalid lookup key: " k)
      else
        match Get db k with
        | Err err => Err err
        | Ok None => readLoop values_nil keys' db outMap
        | Ok (Some bts) => readLoop values_nil keys' db (<[k := bts]> outMap)
        end
  end.

Definition set_localDB (i : remoteImpl C D) (db : D) : remoteImpl C D :=
  mkRemote (Some db) (whitelist i) (wlHistory i).

(** The successive [Put]s of a list of pairs, in order. *)
Fixpoint putAll (kvs : list (string * slice byte)) (db : D) : res D :=
  match kvs with
  | [] => Ok db
  | (k, v) :: kvs' =>
      match Put db k v with
      | Err err => Err err
      | Ok db' => putAll kvs' db'
      end
  end.

(** [IncomingRequest] from the decoded request on. [decodeRequest]
    returns a non-nil request whenever its error is nil, so the
    [req == nil] test of the source cannot fire and has no counterpart
    here. *)
Definition serveRequest (i : remoteImpl C D) (req : requestPayload)
  : handled * remoteImpl C D :=
  if is_nil (dbKeys req) then
    (Responded (errorResponse "No keys found in request!"), i)
  else
    match localDB i with
    | None => (Responded (errorResponse "Missing localDB instance!"), i)
    | Some db =>
        let wr :=
          if negb (is_nil (dbValues req)) && (len (dbValues req) >? 0) then
            if negb (len (dbKeys req) =? len (dbValues req)) then
              WriteFailed "Keys and values must have the same array dimensions" db
            else
              writeLoop i 0 (elems (dbKeys req)) (elems (dbValues req)) db
          else Written db in
        match wr with
        | WritePanic msg db => (Panicked msg, set_localDB i db)
        | WriteFailed msg db => (Responded (errorResponse msg), set_localDB i db)
        | Written db =>
            match readLoop (is_nil (dbValues req)) (elems (dbKeys req)) db ∅ with
            | Err err => (Responded (errorResponse err), set_localDB i db)
            | Ok outMap => (Responded (mkResponse outMap ""), set_localDB i db)
            end
        end
    end.

(** When the process ends in [decodeRequest] no response is sent and the
    server has not been changed. *)
Definition IncomingRequest (now : Z) (i : remoteImpl C D) (data : list byte)
  : handled * remoteImpl C D :=
  match decodeRequest (HV := remote_validator now) Keccak256 data i with
  | OutOfMemory => (Fatal "runtime: out of memory", i)
  | Returned (Err err, i) => (Responded (errorResponse err), i)
  | Returned (Ok req, i) => serveRequest i req
  end.

End Remote.

(** ** Configuration checks ([pkg/config/config.go]) *)

Module Cfg.

(** [errors.Errorf]: a fresh error. The formatted operands are left out
    of the messages where they are not text. *)
Definition Errorf (msg : string) : option error := Some msg.

(** [errors.Wrapf] of github.com/pkg/errors: annotates [err] with the
    message; if [err] is nil, [Wrapf] returns nil. *)
Definition Wrapf (err : option error) (msg : string) : option error :=
  match err with
  | None => None
  | Some e => Some (String.append msg (String.append ": " e))
  end.

(** [encoding/hex]: the value of a hexadecimal digit, in either case. *)
Definition fromHexChar (c : ascii) : option Z :=
  let n := Z.of_N (N_of_ascii c) in
  if (48 <=? n) && (n <=? 57) then Some (n - 48)
  else if (97 <=? n) && (n <=? 102) then Some (n - 87)
  else if (65 <=? n) && (n <=? 70) then Some (n - 55)
  else None.

Definition InvalidByteError (c : ascii) : error :=
  String.append "encoding/hex: invalid byte: " (String c EmptyString).
Definition ErrLength : error := "encoding/hex: odd length hex string".

(** [hex.DecodeString]: the bytes decoded before the first error, and the
    error. *)
Fixpoint DecodeString (s : string) : list byte * option error :=
  match s with
  | EmptyString => ([], None)
  | String p EmptyString =>
      match fromHexChar p with
      | None => ([], Some (InvalidByteError p))
      | Some _ => ([], Some ErrLength)
      end
  | String p (String q rest) =>
      match fromHexChar p with
      | None => ([], Some (InvalidByteError p))
      | Some a =>
          match fromHexChar q with
          | None => ([], Some (InvalidByteError q))
          | Some b =>
              let '(bs, err) := DecodeString rest in
              (Wire.byte_of_Z (Z.lor (Z.shiftl a 4) b) :: bs, err)
          end
      end
  end.

(** The fields of [Config] that [validateConfig] reads. [GasMultiplier]
    is a [float32]; every value it can hold after JSON parsing is a
    rational, and only its order against 0 and 20 is used. *)
Record Config : Type := mkConfig {
  PublicAddress : string;
  GasMultiplier : Q
}.

Definition PrivateKeyEnvName : string := "ETH_PRIVATE_KEY".
Definition NodeURLEnvName : string := "NODE_URL".

Definition Qlt_bool (x y : Q) : bool := negb (Qle_bool y x).

Definition quoted (s : string) : string :=
  String (ascii_of_nat 34) (String.append s (String (ascii_of_nat 34) EmptyString)).

Section Validate.

(** [os.Getenv]: the value of a variable, empty when it is unset. *)
Variable Getenv : string -> string.

Definition validateConfig (cfg : Config) : option error :=
  let '(b, err) := DecodeString (PublicAddress cfg) in
  if bool_decide (err <> None) || negb (Z.of_nat (length b) =? 20) then
    Wrapf err (String.append "expecting 40 hex character public address, got "
                 (quoted (PublicAddress cfg)))
  else if String.eqb (Getenv NodeURLEnvName) "" then
    Errorf (String.append "missing nodeURL environment variable '"
              (String.append NodeURLEnvName "'"))
  else
    let '(b, err) := DecodeString (Getenv PrivateKeyEnvName) in
    if bool_decide (err <> None) || negb (Z.of_nat (length b) =? 32) then
      Wrapf err (String.append "expecting 64 hex character private key, got "
                   (quoted (Getenv PrivateKeyEnvName)))
    else if Qlt_bool (GasMultiplier cfg) 0 || Qlt_bool 20 (GasMultiplier cfg) then
      Errorf "gas multiplier out of range [0, 20]"
    else None.

End Validate.

End Cfg.

(** ** HTTP with retries ([pkg/util/httpRetriever.go]) *)

Module Http.

Definition GET : Z := 1.
Definition POST : Z := 2.

(** [Timeout] is a [time.Duration], in nanoseconds. *)
Record HTTPFetchRequest : Type := mkFetch {
  Method : Z;
  QueryURL : string;
  Payload : list byte;
  Timeout : Z
}.

(** What is read of an [http.Response]: the status code and the body as
    [ioutil.ReadAll] returns it. *)
Record Response : Type := mkHttpResponse {
  StatusCode : Z;
  Body : list byte
}.

Inductive call : Type :=
| HttpGet (url : string)
| HttpPost (url contentType : string) (body : list byte).

(** The process as the fetch sees it: the clock, in nanoseconds, and the
    number of exchanges made so far. *)
Record World : Type := mkWorld {
  clock : Z;
  exchanges : nat
}.

Definition Millisecond : Z := 1000000.

Definition Sleep (d : Z) (w : World) : World :=
  mkWorld (clock w + d) (exchanges w).

Section Fetch.

(** The network: the outcome of the [n]-th exchange and the time it
    takes. *)
Variable roundTrip : nat -> call -> res Response.
Variable elapsed : nat -> Z.

Definition exchange (c : call) (w : World) : res Response * World :=
  (roundTrip (exchanges w) c,
   mkWorld (clock w + elapsed (exchanges w)) (S (exchanges w))).

(** [http.Get] for a GET request, otherwise [http.Post] with the
    payload. *)
Definition request_call (req : HTTPFetchRequest) : call :=
  if Method req =? GET then HttpGet (QueryURL req)
  else HttpPost (QueryURL req) "application/json" (Payload req).

(** [_recReq] calls itself after each failed attempt; [fuel] bounds the
    number of attempts, and [None] means the bound was reached. *)
Fixpoint _recReq (fuel : nat) (req : HTTPFetchRequest) (expiration : Z)
    (w : World) : option (res (list byte) * World) :=
  match fuel with
  | O => None
  | S fuel' =>
      let '(r, w) := exchange (request_call req) w in
      match r with
      | Err err =>
          let now := clock w in
          if After now expiration then Some (Err err, w)
          else _recReq fuel' req expiration (Sleep (500 * Millisecond) w)
      | Ok r =>
          let data := Body r in
          if (StatusCode r <? 200) || (StatusCode r >? 299) then
            let now := clock w in
            if After now expiration then
              Some (Err (String.append
                           "giving up fetch request after request timeout: "
                           (pretty (StatusCode r))), w)
            else _recReq fuel' req expiration (Sleep (500 * Millisecond) w)
          else Some (Ok data, w)
      end
  end.

Definition HTTPWithRetries (fuel : nat) (req : HTTPFetchRequest) (w : World)
  : option (res (list byte) * World) :=
  _recReq fuel req (clock w + Timeout req) w.

(** The time taken by [count] exchanges, from the [from]-th on. *)
Fixpoint total_elapsed (from count : nat) : Z :=
  match count with
  | O => 0
  | S c => elapsed from + total_elapsed (S from) c
  end.

(** An outcome after which the request is tried again: a transport
    error, or a status code outside 200..299. *)
Definition transient (r : res Response) : bool :=
  match r with
  | Err _ => true
  | Ok r => (StatusCode r <? 200) || (StatusCode r >? 299)
  end.

Definition in_2xx (r : Response) : Prop := 200 <= StatusCode r <= 299.

(** The clock right after the [j]-th exchange counted from world [w]
    ([j = 0] for the first): [j] sleeps of 500 ms lie in between. *)
Definition clock_after (w : World) (j : nat) : Z :=
  clock w + total_elapsed (exchanges w) (S j) + Z.of_nat j * (500 * Millisecond).

(** What a completed fetch has done, from world [w] to world [w'] with
    result [r]: [S k] exchanges, the first [k] of them transient, seen
    before the deadline had passed and each followed by a sleep of 500 ms;
    the last one either a response with a status in 200..299, whose body is
    the result, or a transient outcome seen after the deadline, which gives
    an error. *)
Definition fetched (req : HTTPFetchRequest) (expiration : Z) (w : World)
    (r : res (list byte)) (w' : World) : Prop :=
  exists k,
    exchanges w' = (exchanges w + S k)%nat /\
    clock w' = clock_after w k /\
    (forall j, (j < k)%nat ->
               transient (roundTrip (exchanges w + j) (request_call req)) = true /\
               clock_after w j <= expiration) /\
    match r with
    | Ok data =>
        exists resp, roundTrip (exchanges w + k) (request_call req) = Ok resp /\
                     in_2xx resp /\ Body resp = data
    | Err _ =>
        transient (roundTrip (exchanges w + k) (request_call req)) = true /\
        expiration < clock w'
    end.

(** Attempts that always suffice when the clock does not run backwards:
    every retry follows a sleep of half a second. *)
Definition attempts (timeout : Z) : nat :=
  Z.to_nat (timeout / (500 * Millisecond)) + 2.

End Fetch.

End Http.

(** ** The [mine] command, up to the start of the miner ([package main]) *)

Module Main.

(** A [db.DataServerProxy], as far as the command uses it. *)
Record DataServerProxy : Type := mkProxy {
  proxy_Get : string -> slice byte * option error
}.

(** What the command can observe and change: the lines written to the
    standard error stream by [ExitOnError], the warnings handed to the
    logger, the proxy stored in the global context under [DataProxyKey],
    and which services were started. *)
Record World : Type := mkWorld {
  stderr : list string;
  warnings : list string;
  ctxDataProxy : option DataServerProxy;
  dataServerStarted : bool;
  minerStarted : bool
}.

(** How a run is cut short: [cli.Exit(code)], or a run-time panic. *)
Inductive stop : Type :=
| Exit (code : Z)
| Panic (msg : string).

Definition M (A : Type) : Type := World -> (A + stop) * World.

Definition ret {A} (a : A) : M A := fun w => (inl a, w).

Definition bind {A B} (m : M A) (k : A -> M B) : M B :=
  fun w =>
    match m w with
    | (inl a, w') => k a w'
    | (inr s, w') => (inr s, w')
    end.

Notation "'run' x <- m 'in' k" := (bind m (fun x => k))
  (at level 10, x pattern, m at level 100, k at level 200).

Definition halt {A} (s : stop) : M A := fun w => (inr s, w).

Definition newline : string := String (ascii_of_nat 10) EmptyString.

Definition Fprintf_stderr (line : string) : M unit :=
  fun w => (inl tt, mkWorld (stderr w ++ [line]) (warnings w) (ctxDataProxy w)
                      (dataServerStarted w) (minerStarted w)).

Definition warn (msg : string) : M unit :=
  fun w => (inl tt, mkWorld (stderr w) (warnings w ++ [msg]) (ctxDataProxy w)
                      (dataServerStarted w) (minerStarted w)).

Definition ExitOnError (err : option error) (operation : string) : M unit :=
  match err with
  | Some e =>
      run _ <- Fprintf_stderr
                 (String.append operation
                    (String.append " failed: " (String.append e newline))) in
      halt (Exit (-1))
  | None => ret tt
  end.

(** The line [ExitOnError] prints when the dispute-status check fails. *)
Definition refusal : string :=
  String.append "checking miner failed: miner is not able to mine with current status"
    newline.

(** [errors.Wrapf] on an error that is known to be non-nil. *)
Definition wrap (msg : string) (e : error) : error :=
  String.append msg (String.append ": " e).

(** The collaborators of the command: configuration, the store, the data
    server, go-ethereum's [hexutil.DecodeBig] and the mining manager. *)
Record Env : Type := mkEnv {
  EnablePoolWorker : bool;
  db_Open : option error;
  OpenRemoteDB : res DataServerProxy;
  OpenLocalProxy : res DataServerProxy;
  CreateDataServerOps : option error;
  ds_Start : option error;
  DisputeStatusKey : string;
  DecodeBig : string -> res Z;
  CreateMiningManager : option error
}.

Section Mine.

Variable env : Env.

Definition set_proxy (p : DataServerProxy) : M unit :=
  fun w => (inl tt, mkWorld (stderr w) (warnings w) (Some p)
                      (dataServerStarted w) (minerStarted w)).

Definition AddDBToCtx (remote : bool) : M (option error) :=
  match db_Open env with
  | Some err => ret (Some (wrap "opening DB" err))
  | None =>
      if remote then
        match OpenRemoteDB env with
        | Err err => ret (Some (wrap "open remote DB" err))
        | Ok proxy => run _ <- set_proxy proxy in ret None
        end
      else
        match OpenLocalProxy env with
        | Err err => ret (Some (wrap "opening local DB:" err))
        | Ok proxy => run _ <- set_proxy proxy in ret None
        end
  end.

Definition startDataServer : M unit :=
  run _ <- ExitOnError (CreateDataServerOps env) "creating data server" in
  run _ <- ExitOnError (ds_Start env) "starting data server" in
  fun w => (inl tt, mkWorld (stderr w) (warnings w) (ctxDataProxy w)
                      true (minerStarted w)).

(** [ctx.Value(tellorCommon.DataProxyKey).(db.DataServerProxy)]: the
    type assertion panics when the context holds no proxy. *)
Definition ctx_DataProxy : M DataServerProxy :=
  fun w =>
    match ctxDataProxy w with
    | Some p => (inl p, w)
    | None => (inr (Panic "interface conversion: interface is nil"), w)
    end.

(** [status.Cmp(y)] on a [*big.Int]: a nil receiver is dereferenced. *)
Definition big_Cmp (status : option Z) (y : Z) : M Z :=
  match status with
  | None => halt (Panic "invalid memory address or nil pointer dereference")
  | Some x => ret (if x <? y then -1 else if x =? y then 0 else 1)
  end.

Definition miner_Start : M unit :=
  fun w => (inl tt, mkWorld (stderr w) (warnings w) (ctxDataProxy w)
                      (dataServerStarted w) true).

(** From "Start miner" on: the dispute-status check and the start of
    the mining manager. *)
Definition startMiner : M unit :=
  run DB <- ctx_DataProxy in
  let '(v, err) := proxy_Get DB (DisputeStatusKey env) in
  run _ <- match err with
           | Some _ => warn "getting dispute status. Check if staked"
           | None => ret tt
           end in
  let status :=
    match DecodeBig env (string_of_list_byte (elems v)) with
    | Ok n => Some n
    | Err _ => None
    end in
  run c <- big_Cmp status 1 in
  run _ <- (if negb (c =? 0) then
              ExitOnError (Some "miner is not able to mine with current status")
                "checking miner"
            else ret tt) in
  run _ <- ExitOnError (CreateMiningManager env) "creating miner" in
  miner_Start.

(** What precedes "Start miner": the store and, unless it is remote,
    the data server. *)
Definition prepare (remoteDS : bool) : M unit :=
  if negb (EnablePoolWorker env) then
    run err <- AddDBToCtx remoteDS in
    run _ <- ExitOnError err "initializing database" in
    if negb remoteDS then startDataServer else ret tt
  else ret tt.

(** The action of [mineCmd] until the miner runs; what follows waits
    for the interrupt signal and for the services to stop. *)
Definition mineCmd (remoteDS : bool) : M unit :=
  run _ <- prepare remoteDS in
  startMiner.

End Mine.

End Main.

(** ** Stand-ins for the collaborators, to run the model on concrete input *)

Module Sample.

(** A machine that grants up to 1 GiB at once. *)
Definition machine : Runtime := {| available := fun bytes => bytes <=? 2 ^ 30 |}.

(** A validator that accepts every request. *)
Definition accept_all : RequestValidator unit :=
  {| Verify := fun v _ _ _ => (None, v) |}.

(** A digest that keeps its input. *)
Definition digest (bs : list byte) : list byte := bs.

(** A signature scheme in which the signature spells the address of the
    signer; an empty signature does not recover. *)
Definition address_crypto : Crypto string :=
  {| SigToPub := fun _ sig =>
       match sig with
       | Some (b :: bs) => Ok (string_of_list_byte (b :: bs))
       | _ => Err "invalid signature length"
       end;
     addressHex := fun a => a |}.

(** A history of at most 50 timestamps, most recent first. *)
Definition recent_history : History (list Z) :=
  {| Contains := fun c k => bool_decide (k ∈ c);
     Add := fun c k => take 50 (k :: filter (fun x => x <> k) c) |}.

(** A store whose [Put] always succeeds. *)
Definition map_store : DB (gmap string (list byte)) :=
  {| Put := fun db k v => Ok (<[k := elems v]> db);
     Get := fun db k => Ok (db !! k) |}.

(** A store that holds at most [quota] keys. *)
Record bounded : Type := mkBounded {
  cells : gmap string (list byte);
  quota : nat
}.

Definition bounded_store : DB bounded :=
  {| Put := fun db k v =>
       if bool_decide (is_Some (cells db !! k)) || (size (cells db) <? quota db)%nat
       then Ok (mkBounded (<[k := elems v]> (cells db)) (quota db))
       else Err "no space left on device";
     Get := fun db k => Ok (cells db !! k) |}.

Definition minerA : string := "0x00000000000000000000000000000000000000aa".
Definition minerB : string := "0x00000000000000000000000000000000000000bb".

Definition signature_of (a : string) : slice byte := Some (list_byte_of_string a).

Definition bytes_of (r : res (list byte)) : list byte :=
  match r with Ok d => d | Err _ => [] end.

(** A server that whitelists [minerA] and [minerB], with empty histories
    and an empty store. *)
Definition server0 : remoteImpl (list Z) (gmap string (list byte)) :=
  mkRemote (Some ∅) {[ minerA := true; minerB := true ]}
    {[ minerA := []; minerB := [] ]}.

Definition keyA : string := String.append minerA "-lastSubmit".
Definition keyB : string := String.append minerB "-lastSubmit".

(** [minerA] writes one value under its own prefix, signed at second 1000. *)
Definition write1 : requestPayload :=
  mkRequest (Some [keyA]) (Some [Some ["001"%byte]]) 1000 (signature_of minerA).


(** [minerA] writes under the prefix of [minerB]. *)
Definition writeForeign : requestPayload :=
  mkRequest (Some [keyB]) (Some [Some ["007"%byte]]) 1000 (signature_of minerA).

(** [minerA] writes under its prefix, then under no whitelisted prefix. *)
Definition writeMixed : requestPayload :=
  mkRequest (Some [keyA; "currentChallenge"])
    (Some [Some ["001"%byte]; Some ["002"%byte]]) 1000 (signature_of minerA).

(** [minerA] writes two values under its prefix. *)
Definition keyA2 : string := String.append minerA "-hashrate".

Definition writeTwo : requestPayload :=
  mkRequest (Some [keyA; keyA2])
    (Some [Some ["001"%byte]; Some ["002"%byte]]) 1000 (signature_of minerA).

(** A server whose store has room for one key only. *)
Definition serverFull : remoteImpl (list Z) bounded :=
  mkRemote (Some (mkBounded ∅ 1)) {[ minerA := true ]} {[ minerA := [] ]}.

(** [minerA] reads a key, with no values. *)
Definition read1 : requestPayload :=
  mkRequest (Some ["privateNotes"]) None 1000 (signature_of minerA).

(** An allow-list that knows the dispute status key only. *)
Definition knownKeys (k : string) : bool := String.eqb k "disputeStatus".

(** A server whose store holds a key outside [knownKeys]. *)
Definition server1 : remoteImpl (list Z) (gmap string (list byte)) :=
  mkRemote (Some {[ "privateNotes" := ["042"%byte] ]}) {[ minerA := true ]}
    {[ minerA := [] ]}.

(** go-ethereum's [hexutil.DecodeBig]: a 0x-prefixed hexadecimal number
    of at most 256 bits, without leading zero digits. *)
Definition has0xPrefix (s : string) : bool :=
  match s with
  | String c0 (String c1 _) =>
      Ascii.eqb c0 "0" && (Ascii.eqb c1 "x" || Ascii.eqb c1 "X")
  | _ => false
  end.

Fixpoint hexval (s : string) (acc : Z) : option Z :=
  match s with
  | EmptyString => Some acc
  | String c s' =>
      match Cfg.fromHexChar c with
      | Some d => hexval s' (acc * 16 + d)
      | None => None
      end
  end.

Definition hexutil_DecodeBig (input : string) : res Z :=
  match input with
  | EmptyString => Err "empty hex string"
  | _ =>
      if negb (has0xPrefix input) then Err "hex string without 0x prefix"
      else
        match String.substring 2 (String.length input - 2) input with
        | EmptyString => Err (String.append "hex string " (Cfg.quoted "0x"))
        | String c rest as raw =>
            if Ascii.eqb c "0" && negb (String.eqb rest "") then
              Err "hex number with leading zero digits"
            else if (64 <? String.length raw)%nat then Err "hex number > 256 bits"
            else match hexval raw 0 with
                 | Some n => Ok n
                 | None => Err "invalid hex string"
                 end
        end
  end.

(** A proxy whose store holds the given dispute status, if any. *)
Definition status_proxy (status : slice byte) : Main.DataServerProxy :=
  Main.mkProxy (fun k => if String.eqb k "disputeStatus" then (status, None)
                         else (None, None)).

(** A miner set up against a local store with the given dispute status;
    every collaborator succeeds. *)
Definition mine_env (status : slice byte) : Main.Env :=
  Main.mkEnv false None (Ok (status_proxy status)) (Ok (status_proxy status))
    None None "disputeStatus" hexutil_DecodeBig None.

Definition world0 : Main.World := Main.mkWorld [] [] None false false.

(** A server that answers every request with the given status code. *)
Definition always (code : Z) (body : list byte) : nat -> Http.call -> res Http.Response :=
  fun _ _ => Ok (Http.mkHttpResponse code body).

(** Every exchange takes 100 ms. *)
Definition latency : nat -> Z := fun _ => 100 * Http.Millisecond.

Definition fetch1 : Http.HTTPFetchRequest :=
  Http.mkFetch Http.POST "http://localhost:5000" [] (2000 * Http.Millisecond).

Definition handle := IncomingRequest (HR := machine) (HC := recent_history)
                       (HD := map_store) (HK := address_crypto) digest knownKeys.

Definition serve := serveRequest (HD := map_store) (C := list Z) knownKeys.

Definition verify := remote_Verify (HC := recent_history) (HK := address_crypto)
                       (D := gmap string (list byte)).

Definition wire (r : requestPayload) : list byte := bytes_of (encodeRequest r).

(** The entries and the error message of a response, and the content of
    the store of a server, as lists. *)
Definition shown (h : handled) : option (list (string * list byte) * string) :=
  match h with
  | Responded r => Some (map_to_list (dbVals r), errorMsg r)
  | Panicked _ => None
  | Fatal _ => None
  end.

Definition stored {C} (i : remoteImpl C (gmap string (list byte)))
  : option (list (string * list byte)) :=
  option_map map_to_list (localDB i).

(** Instants, in nanoseconds: second 1000, 0.2 s and 0.5 s later, and
    second 1003. *)
Definition t1000 : Z := time_Unix 1000 0.
Definition t1003 : Z := time_Unix 1003 0.

End Sample.

(** ** Notions used to state the properties *)

(** A slice whose length fits the [uint32] prefix of the wire format. *)
Definition fits {A} (s : slice A) : Prop := len s < 2 ^ 32.

(** A request that [encodeRequest] accepts and whose parts fit the wire
    format: keys present and not empty, a signature attached, the timestamp
    an [int64], every count and length below [2^32]. *)
Definition wellFormed (r : requestPayload) : Prop :=
  (exists k keys, dbKeys r = Some (k :: keys)) /\
  sig r <> None /\
  - 2 ^ 63 <= timestamp r < 2 ^ 63 /\
  fits (dbKeys r) /\
  Forall (fun k => fits (Some (list_byte_of_string k))) (elems (dbKeys r)) /\
  fits (dbValues r) /\
  Forall fits (elems (dbValues r)) /\
  fits (sig r).

(** What a request looks like once it has crossed the wire: the same keys,
    timestamp and bytes, with every slice allocated (a nil list of values
    or a nil value comes back empty, not nil). *)
Definition allocated {A} (s : slice A) : slice A := Some (elems s).

Definition received (r : requestPayload) : requestPayload :=
  mkRequest (dbKeys r) (Some (map allocated (elems (dbValues r))))
    (timestamp r) (allocated (sig r)).

(** Whether the runtime provides the two slices that
    [decodeKeysValuesAndTime] makes for the keys and the values of [r]. *)
Definition makes {HR : Runtime} (r : requestPayload) : bool :=
  can_make sizeof_string (len (dbKeys r)) && can_make sizeof_slice (len (dbValues r)).

(** The bytes that are hashed and signed. *)
Definition signedBytes (r : requestPayload) : list byte :=
  Wire.be_bytes 8 (timestamp r)
  ++ Wire.be_bytes 4 (uint32 (len (dbKeys r)))
  ++ concat (map (Wire.encodeString []) (elems (dbKeys r)))
  ++ Wire.be_bytes 4 (uint32 (len (dbValues r)))
  ++ concat (map (Wire.encodeBytes []) (elems (dbValues r))).

(** ** The client side of the proxy ([createRequest], [remoteImpl.BatchPut]
    and its siblings) *)

(** [RequestSigner]: [Sign] returns the signature bytes, possibly nil, or
    an error. *)
Class RequestSigner (S : Type) : Type := {
  Sign : S -> list byte -> res (slice byte)
}.

(** The fields of [remoteImpl] the client side reads. *)
Record remoteClient (S : Type) : Type := mkClient {
  privateKey : S;
  publicAddress : string;
  postURL : string
}.
Arguments mkClient {S} privateKey publicAddress postURL.
Arguments privateKey {S} r.
Arguments publicAddress {S} r.
Arguments postURL {S} r.

Definition Second : Z := 1000 * Http.Millisecond.

Section Client.

Context {S : Type} {HS : RequestSigner S}.

Variable Keccak256 : list byte -> list byte.

(** Modelled from the spec: [decodeResponse] of package db, missing here,
    taken as a parameter: the inverse of the response encoding (entries,
    then the error message). *)
Variable decodeResponse : list byte -> res responsePayload.

(** The network, as for [Http.HTTPWithRetries]. *)
Variable roundTrip : nat -> Http.call -> res Http.Response.
Variable elapsed : nat -> Z.

(** [createRequest]; [t] is [time.Now().Unix()]. The hash is left out of
    the message of the last error. *)
Definition createRequest (t : Z) (dbKeys : slice string)
    (values : slice (slice byte)) (signer : S) : res requestPayload :=
  try buf <- encodeKeysValuesAndTime [] dbKeys values t in
  let hash := Keccak256 buf in
  match Sign signer hash with
  | Err err => Err err
  | Ok None => Err "Could not generate a signature for  hash: "
  | Ok (Some sig) => Ok (mkRequest dbKeys values t (Some sig))
  end.

(** The key that [BatchPut] sends for the key [k] of its caller. *)
Definition prefixedKey (i : remoteClient S) (k : string) : string :=
  if negb (HasPrefix k (publicAddress i)) then
    String.append (publicAddress i) (String.append "-" k)
  else k.

(** [BatchPut] up to the bytes it posts: the keys are prefixed into a
    slice made for them, the request is created and encoded. *)
Definition putRequest (t : Z) (i : remoteClient S) (keys : slice string)
    (values : slice (slice byte)) : res requestPayload :=
  let dbKeys := make_from (map (prefixedKey i) (elems keys)) in
  createRequest t dbKeys values (privateKey i).

(** What follows the encoding in [BatchGet] and [BatchPut] alike: the post
    with a timeout of ten seconds, the decoding of the response, and the
    error it may carry. [context] is the annotation of a transport error. *)
Definition postRequest (fuel : nat) (context : string) (i : remoteClient S)
    (data : list byte) (w : Http.World)
  : option (res (gmap string (list byte)) * Http.World) :=
  let httpReq := Http.mkFetch Http.POST (postURL i) data (10 * Second) in
  match Http.HTTPWithRetries roundTrip elapsed fuel httpReq w with
  | None => None
  | Some (Err err, w') =>
      Some (Err (String.append context (String.append ": " err)), w')
  | Some (Ok respData, w') =>
      match decodeResponse respData with
      | Err err => Some (Err err, w')
      | Ok remResp =>
          if (0 <? String.length (errorMsg remResp))%nat then
            Some (Err (errorMsg remResp), w')
          else Some (Ok (dbVals remResp), w')
      end
  end.

Definition BatchGet (fuel : nat) (t : Z) (i : remoteClient S) (keys : slice string)
    (w : Http.World) : option (res (gmap string (list byte)) * Http.World) :=
  match createRequest t keys None (privateKey i) with
  | Err err => Some (Err err, w)
  | Ok req =>
      match encodeRequest req with
      | Err err => Some (Err err, w)
      | Ok data => postRequest fuel "retrieving data after retries" i data w
      end
  end.

Definition BatchPut (fuel : nat) (t : Z) (i : remoteClient S) (keys : slice string)
    (values : slice (slice byte)) (w : Http.World)
  : option (res (gmap string (list byte)) * Http.World) :=
  match putRequest t i keys values with
  | Err err => Some (Err err, w)
  | Ok req =>
      match encodeRequest req with
      | Err err => Some (Err err, w)
      | Ok data => postRequest fuel "put data after retries" i data w
      end
  end.

(** [Get]: the value of one key, nil when the response does not hold it. *)
Definition remote_Get (fuel : nat) (t : Z) (i : remoteClient S) (key : string)
    (w : Http.World) : option (res (slice byte) * Http.World) :=
  match BatchGet fuel t i (Some [key]) w with
  | None => None
  | Some (Err err, w') => Some (Err err, w')
  | Some (Ok res, w') => Some (Ok (res !! key), w')
  end.

Definition remote_Put (fuel : nat) (t : Z) (i : remoteClient S) (key : string)
    (value : slice byte) (w : Http.World)
  : option (res (gmap string (list byte)) * Http.World) :=
  BatchPut fuel t i (Some [key]) (Some [value]) w.

End Client.

(** ** Fetching with retries in the trackers ([pkg/tracker/retryFetcher.go]) *)

Module Tracker.

(** [timeout] is a [time.Duration], in nanoseconds. *)
Record FetchRequest : Type := mkFetchRequest {
  queryURL : string;
  timeout : Z
}.

(** What is read of an [http.Response]: the status code, and the body as
    [ioutil.ReadAll] returns it, which may be an error. *)
Record Response : Type := mkResponse {
  StatusCode : Z;
  Body : res (list byte)
}.

Section Fetch.

(** The network: the outcome of the [n]-th [client.Get], given the URL and
    the timeout the client was set to, and the time the exchange takes. *)
Variable get : nat -> string -> Z -> res Response.
Variable elapsed : nat -> Z.

Definition exchange (url : string) (clientTimeout : Z) (w : Http.World)
  : res Response * Http.World :=
  (get (Http.exchanges w) url clientTimeout,
   Http.mkWorld (Http.clock w + elapsed (Http.exchanges w)) (S (Http.exchanges w))).

(** [_recFetch] calls itself after each failed attempt; [fuel] bounds the
    number of attempts, and [None] means the bound was reached. *)
Fixpoint _recFetch (fuel : nat) (req : FetchRequest) (expiration : Z)
    (w : Http.World) : option (res (list byte) * Http.World) :=
  match fuel with
  | O => None
  | S fuel' =>
      let now := Http.clock w in
      let clientTimeout := expiration - now in
      let '(r, w) := exchange (queryURL req) clientTimeout w in
      match r with
      | Err err =>
          let now := Http.clock w in
          if After now expiration then
            Some (Err (Main.wrap "retry timeout expired, last error is wrapped" err), w)
          else _recFetch fuel' req expiration (Http.Sleep (1000 * Http.Millisecond) w)
      | Ok r =>
          match Body r with
          | Err err => Some (Err (Main.wrap "read response body" err), w)
          | Ok data =>
              if (StatusCode r <? 200) || (StatusCode r >? 299) then
                let now := Http.clock w in
                if After now expiration then
                  Some (Err (String.append
                               "giving up fetch request after request timeout:"
                               (pretty (StatusCode r))), w)
                else _recFetch fuel' req expiration (Http.Sleep (500 * Http.Millisecond) w)
              else Some (Ok data, w)
          end
      end
  end.

Definition fetchWithRetries (fuel : nat) (req : FetchRequest) (w : Http.World)
  : option (res (list byte) * Http.World) :=
  _recFetch fuel req (Http.clock w + timeout req) w.

(** An outcome after which the fetch is tried again. *)
Definition transient (r : res Response) : bool :=
  match r with
  | Err _ => true
  | Ok r =>
      match Body r with
      | Err _ => false
      | Ok _ => (StatusCode r <? 200) || (StatusCode r >? 299)
      end
  end.

(** The sleep that follows an attempt that is tried again: one second
    after a transport error, half a second after a response. *)
Definition pause (r : res Response) : Z :=
  match r with
  | Err _ => 1000 * Http.Millisecond
  | Ok _ => 500 * Http.Millisecond
  end.

(** The world at the start of attempt number [k], counted from 0, of a
    fetch that began in [w], when every earlier attempt was tried again:
    each of them was an exchange with the timeout of the client set to
    what was left until [expiration], followed by its sleep. *)
Fixpoint before (k : nat) (req : FetchRequest) (expiration : Z) (w : Http.World)
  : Http.World :=
  match k with
  | O => w
  | S k' =>
      let '(r, w1) := exchange (queryURL req) (expiration - Http.clock w) w in
      before k' req expiration (Http.Sleep (pause r) w1)
  end.

End Fetch.

End Tracker.

(** ** Waiting for the services to stop (the end of [mineCmd]) *)

Module Shutdown.

(** [ds.Running] and [miner.Running] as the loop reads them in its
    iteration number [cnt]; [None] for a nil pointer. *)
Definition stopped (service : option (Z -> bool)) (cnt : Z) : bool :=
  match service with
  | Some running => negb (running cnt)
  | None => true
  end.

(** The state of the loop: the counter, the warnings logged and the number
    of sleeps of 500 ms taken. *)
Record state : Type := mkState {
  cnt : Z;
  logged : list string;
  sleeps : nat
}.

Definition overdue : string := "taking longer than expected to stop operations".

(** The [for] loop; [fuel] bounds its iterations. *)
Fixpoint waitStopped (fuel : nat) (ds miner : option (Z -> bool)) (s : state)
  : option state :=
  match fuel with
  | O => None
  | S fuel' =>
      let cnt := int64 (cnt s + 1) in
      let dsStopped := stopped ds cnt in
      let minerStopped := stopped miner cnt in
      if negb dsStopped && negb minerStopped && (cnt >? 60) then
        waitStopped fuel' ds miner
          (mkState cnt (logged s ++ [overdue]) (S (sleeps s)))
      else if dsStopped && minerStopped then
        Some (mkState cnt (logged s) (sleeps s))
      else
        waitStopped fuel' ds miner (mkState cnt (logged s) (S (sleeps s)))
  end.

(** An iteration that logs the warning: both services still run after
    more than 60 iterations. *)
Definition late (ds miner : option (Z -> bool)) (cnt : Z) : bool :=
  negb (stopped ds cnt) && negb (stopped miner cnt) && (cnt >? 60).

(** The iterations [from], ..., [from + count - 1]. *)
Definition iterations (from count : nat) : list Z := map Z.of_nat (seq from count).

End Shutdown.

(** ** Hexadecimal strings *)

(** A string of hexadecimal digits, of either case. *)
Fixpoint is_hex (s : string) : bool :=
  match s with
  | EmptyString => true
  | String c s' =>
      match Cfg.fromHexChar c with
      | Some _ => is_hex s'
      | None => false
      end
  end.

(** ** More stand-ins *)

Module Sample2.

(** The signer that goes with [Sample.address_crypto]: its key is its
    address, and its signature spells it. *)
Definition address_signer : RequestSigner string :=
  {| Sign := fun a _ => Ok (Sample.signature_of a) |}.

Definition clientA : remoteClient string :=
  mkClient Sample.minerA Sample.minerA "http://localhost:5000".

(** A server that whitelists [minerA] only, with an empty history and an
    empty store. *)
Definition serverA : remoteImpl (list Z) (gmap string (list byte)) :=
  mkRemote (Some ∅) {[ Sample.minerA := true ]} {[ Sample.minerA := [] ]}.

(** [minerB], which [serverA] does not whitelist, writes under its own
    prefix. *)
Definition writeByB : requestPayload :=
  mkRequest (Some [Sample.keyB]) (Some [Some ["009"%byte]]) 1000
    (Sample.signature_of Sample.minerB).

(** One key, two values. *)
Definition writeMismatch : requestPayload :=
  mkRequest (Some [Sample.keyA]) (Some [Some ["001"%byte]; Some ["002"%byte]]) 1000
    (Sample.signature_of Sample.minerA).

(** A read as it looks once decoded. *)
Definition readDecoded : requestPayload := received Sample.read1.

Definition decode (now : Z) :=
  decodeRequest (HR := Sample.machine) (HV := remote_validator (HC := Sample.recent_history)
                         (HK := Sample.address_crypto)
                         (D := gmap string (list byte)) now) Sample.digest.

(** A source that refuses the first connection and then answers. *)
Definition flaky_get : nat -> string -> Z -> res Tracker.Response :=
  fun n _ _ =>
    match n with
    | O => Err "connection refused"
    | _ => Ok (Tracker.mkResponse 200 (Ok [Byte.x34; Byte.x32]))
    end.

Definition fetch2 : Tracker.FetchRequest :=
  Tracker.mkFetchRequest "http://localhost/price" (2000 * Http.Millisecond).

(** A data server that stops at the second iteration and a miner that
    stops at the third. *)
Definition dsRunning : Z -> bool := fun cnt => cnt <? 2.
Definition minerRunning : Z -> bool := fun cnt => cnt <? 3.

(** A pool worker: no store is opened and no data server started. *)
Definition pool_env : Main.Env :=
  Main.mkEnv true None (Err "not opened") (Err "not opened")
    None None "disputeStatus" Sample.hexutil_DecodeBig None.

(** A configuration and an environment that meet every condition. *)
Definition cfg_ok : Cfg.Config :=
  Cfg.mkConfig "00000000000000000000000000000000000000aa" 1.

Definition env_ok (name : string) : string :=
  if String.eqb name Cfg.NodeURLEnvName then "http://localhost:8545"
  else if String.eqb name Cfg.PrivateKeyEnvName then
    "00000000000000000000000000000000000000000000000000000000000000ff"
  else "".

End Sample2.
(** * Properties *)

(** ** The wire codec *)

Module WireFacts.
Import Wire.

Lemma Z_of_byte_of_Z z : Z_of_byte (byte_of_Z z) = z mod 256.
Proof.
  unfold Z_of_byte, byte_of_Z.
  assert (Hr : 0 <= z mod 256 < 256) by (apply Z.mod_pos_bound; lia).
  destruct (Byte.of_N (Z.to_N (z mod 256))) as [b|] eqn:E.
  - apply Byte.to_of_N in E. rewrite E. lia.
  - apply Byte.of_N_None_iff in E. lia.
Qed.

Lemma be_bytes_length w z : length (be_bytes w z) = w.
Proof.
  induction w as [|w IH]; [reflexivity|].
  change (be_bytes (S w) z)
    with (byte_of_Z (Z.shiftr z (8 * Z.of_nat w)) :: be_bytes w z).
  simpl. now rewrite IH.
Qed.

Lemma be_fold w z acc :
  fold_left (fun a b => a * 256 + Z_of_byte b) (be_bytes w z) acc
  = acc * 2 ^ (8 * Z.of_nat w) + z mod 2 ^ (8 * Z.of_nat w).
Proof.
  revert acc. induction w as [|w IH]; intros acc.
  - change (be_bytes 0 z) with (@nil byte). simpl. rewrite Z.mod_1_r. lia.
  - change (be_bytes (S w) z)
      with (byte_of_Z (Z.shiftr z (8 * Z.of_nat w)) :: be_bytes w z).
    cbn [fold_left]. rewrite IH, Z_of_byte_of_Z.
    rewrite Z.shiftr_div_pow2 by lia.
    replace (8 * Z.of_nat (S w)) with (8 * Z.of_nat w + 8) by lia.
    rewrite Z.pow_add_r by lia.
    change (2 ^ 8) with 256.
    assert (Hp : 0 < 2 ^ (8 * Z.of_nat w)) by (apply Z.pow_pos_nonneg; lia).
    rewrite (Z.rem_mul_r z (2 ^ (8 * Z.of_nat w)) 256) by lia.
    lia.
Qed.

Lemma be_value_be_bytes w z : be_value (be_bytes w z) = z mod 2 ^ (8 * Z.of_nat w).
Proof. unfold be_value. rewrite be_fold. lia. Qed.

Lemma read_full_app bs rest :
  read_full (length bs) (bs ++ rest) = Ok (bs, rest).
Proof.
  unfold read_full.
  rewrite length_app.
  destruct (Nat.leb_spec (length bs) (length bs + length rest)); [|lia].
  now rewrite take_app_length, drop_app_length.
Qed.

Lemma decode_uint32_encoded v rest :
  0 <= v < 2 ^ 32 ->
  decode_uint32 (be_bytes 4 v ++ rest) = Ok (v, rest).
Proof.
  intros Hv. unfold decode_uint32, rbind, rret.
  pose proof (read_full_app (be_bytes 4 v) rest) as R.
  rewrite be_bytes_length in R. rewrite R.
  rewrite be_value_be_bytes.
  change (8 * Z.of_nat 4) with 32. now rewrite Z.mod_small.
Qed.

Lemma decode_int64_encoded v rest :
  - 2 ^ 63 <= v < 2 ^ 63 ->
  decode_int64 (be_bytes 8 v ++ rest) = Ok (v, rest).
Proof.
  intros Hv. unfold decode_int64, rbind, rret.
  pose proof (read_full_app (be_bytes 8 v) rest) as R.
  rewrite be_bytes_length in R. rewrite R.
  rewrite be_value_be_bytes.
  change (8 * Z.of_nat 8) with 64.
  do 2 f_equal. unfold int64.
  rewrite Zplus_mod_idemp_l.
  rewrite Z.mod_small by lia. lia.
Qed.

Lemma encodeBytes_app buf bts : encodeBytes buf bts = buf ++ encodeBytes [] bts.
Proof. unfold encodeBytes, encode_uint32. now rewrite <- !app_assoc. Qed.

Lemma encodeString_app buf s : encodeString buf s = buf ++ encodeString [] s.
Proof. apply encodeBytes_app. Qed.

Lemma fold_encodeBytes vals buf :
  fold_left encodeBytes vals buf = buf ++ concat (map (encodeBytes []) vals).
Proof.
  revert buf. induction vals as [|v vals IH]; intros buf; simpl.
  - now rewrite app_nil_r.
  - rewrite IH, (encodeBytes_app buf). now rewrite <- app_assoc.
Qed.

Lemma fold_encodeString keys buf :
  fold_left encodeString keys buf = buf ++ concat (map (encodeString []) keys).
Proof.
  revert buf. induction keys as [|k keys IH]; intros buf; simpl.
  - now rewrite app_nil_r.
  - rewrite IH, (encodeString_app buf). now rewrite <- app_assoc.
Qed.

Lemma decodeBytes_encoded bts rest :
  fits bts ->
  decodeBytes (encodeBytes [] bts ++ rest) = Ok (Some (elems bts), rest).
Proof.
  intros Hf. unfold fits, len in Hf.
  unfold decodeBytes, encodeBytes, encode_uint32, rbind, rret, make_from.
  rewrite app_nil_l, <- app_assoc.
  unfold uint32, len. rewrite Z.mod_small by lia.
  rewrite decode_uint32_encoded by lia.
  rewrite Nat2Z.id, read_full_app. reflexivity.
Qed.

Lemma decodeString_encoded s rest :
  fits (Some (list_byte_of_string s)) ->
  decodeString (encodeString [] s ++ rest) = Ok (s, rest).
Proof.
  intros Hf. unfold decodeString, encodeString, rbind, rret.
  rewrite decodeBytes_encoded by assumption.
  simpl elems. now rewrite string_of_list_byte_of_string.
Qed.

Lemma repeat_read_encoded {A B} (enc : A -> list byte) (dec : Reader B)
    (norm : A -> B) (ok : A -> Prop) (xs : list A) rest :
  (forall x rest, ok x -> dec (enc x ++ rest) = Ok (norm x, rest)) ->
  Forall ok xs ->
  repeat_read (length xs) dec (concat (map enc xs) ++ rest)
  = Ok (map norm xs, rest).
Proof.
  intros Hdec Hall. induction Hall as [|x xs Hx _ IH]; simpl.
  - reflexivity.
  - unfold rbind at 1. rewrite <- app_assoc, Hdec by assumption.
    unfold rbind at 1. rewrite IH. reflexivity.
Qed.

Lemma encodeBytes_allocated (v : slice byte) :
  encodeBytes [] (allocated v) = encodeBytes [] v.
Proof. now destruct v. Qed.

End WireFacts.

(** ** The request codec *)

(** Well-formedness of a concrete request. *)
Ltac solve_wellFormed :=
  unfold wellFormed, fits, len; cbn;
  repeat split; try lia; try discriminate;
  try (repeat constructor; cbn; lia); eauto.

Section CodecFacts.

Context {HR : Runtime}.

Variable Keccak256 : list byte -> list byte.

Lemma encodeKeysValuesAndTime_bytes keys values t :
  encodeKeysValuesAndTime [] (Some keys) values t
  = Ok (signedBytes (mkRequest (Some keys) values t None)).
Proof.
  unfold encodeKeysValuesAndTime, signedBytes, Wire.encode_int64,
    Wire.encode_uint32. cbn.
  destruct values as [vals|]; cbn.
  - rewrite WireFacts.fold_encodeBytes, WireFacts.fold_encodeString.
    now rewrite <- !app_assoc.
  - rewrite WireFacts.fold_encodeString.
    now rewrite <- !app_assoc.
Qed.

Lemma signedBytes_received r :
  signedBytes (received r) = signedBytes r.
Proof.
  unfold signedBytes, received, len. cbn.
  rewrite length_map, map_map.
  rewrite (map_ext _ (Wire.encodeBytes []) WireFacts.encodeBytes_allocated).
  reflexivity.
Qed.

Lemma decodeKeysValuesAndTime_encoded keys values t rest :
  - 2 ^ 63 <= t < 2 ^ 63 ->
  fits (Some keys) ->
  Forall (fun k => fits (Some (list_byte_of_string k))) keys ->
  fits values ->
  Forall fits (elems values) ->
  decodeKeysValuesAndTime
    (signedBytes (mkRequest (Some keys) values t None) ++ rest)
  = if makes (mkRequest (Some keys) values t None)
    then Returned (Ok (Some keys, Some (map allocated (elems values)), t, rest))
    else OutOfMemory.
Proof.
  intros Ht Hk Hks Hv Hvs.
  unfold fits, len in Hk, Hv. cbn in Hk.
  unfold decodeKeysValuesAndTime, makes, signedBytes. cbn.
  rewrite <- !app_assoc.
  rewrite WireFacts.decode_int64_encoded by assumption.
  unfold uint32, len. cbn [elems].
  rewrite Z.mod_small by lia.
  rewrite WireFacts.decode_uint32_encoded by lia.
  destruct (can_make sizeof_string (Z.of_nat (length keys))); cbn [negb andb];
    [|reflexivity].
  rewrite Nat2Z.id.
  rewrite (WireFacts.repeat_read_encoded (Wire.encodeString []) Wire.decodeString
             (fun k => k) (fun k => fits (Some (list_byte_of_string k))));
    [| intros; now apply WireFacts.decodeString_encoded | assumption].
  rewrite map_id.
  rewrite Z.mod_small by lia.
  rewrite WireFacts.decode_uint32_encoded by lia.
  destruct (can_make sizeof_slice (Z.of_nat (length (elems values)))); cbn [negb];
    [|reflexivity].
  rewrite Nat2Z.id.
  rewrite (WireFacts.repeat_read_encoded (Wire.encodeBytes []) Wire.decodeBytes
             allocated fits);
    [| intros; now apply WireFacts.decodeBytes_encoded | assumption].
  reflexivity.
Qed.

Lemma encodeRequest_bytes r :
  wellFormed r ->
  encodeRequest r = Ok (signedBytes r ++ Wire.encodeBytes [] (sig r)).
Proof.
  intros ((k & keys & Hkeys) & Hsig & _).
  unfold encodeRequest. rewrite Hkeys.
  unfold len at 1. cbn [is_nil]. cbn [elems].
  destruct (Z.eqb_spec (Z.of_nat (length (k :: keys))) 0) as [E|_];
    [cbn in E; lia|].
  cbn [orb]. cbv iota.
  destruct (sig r) as [s|] eqn:Es; [|congruence].
  cbn [is_nil]. cbv iota.
  rewrite encodeKeysValuesAndTime_bytes. cbn [res_bind].
  rewrite WireFacts.encodeBytes_app. f_equal.
  unfold signedBytes. cbn. now rewrite Hkeys.
Qed.

Lemma received_id r vs s :
  dbValues r = Some vs -> Forall (fun v => v <> None) vs -> sig r = Some s ->
  received r = r.
Proof.
  intros Hv Hall Hs. destruct r as [ks vals t sg]. cbn in *. subst.
  unfold received. cbn. f_equal. f_equal.
  induction Hall as [|v vs Hx _ IH]; cbn; [reflexivity|].
  rewrite IH. destruct v; [reflexivity | congruence].
Qed.

(** C5, as amended. For every well-formed request (keys present and not
    empty, a signature attached, every length within the [uint32] prefix),
    [encodeRequest] succeeds, and [decodeRequest] on its bytes, once the
    runtime has provided the slices for the keys and the values, hands the
    validator the hash of the signed bytes and, when the validator
    accepts, returns the request as received: the same keys in the same
    order, the same timestamp, the same value bytes and signature bytes,
    with a nil list of values (or a nil value) coming back as an empty,
    allocated one. When the validator refuses, its error is returned; when
    the runtime cannot provide the slices, the process ends. A request
    whose values are all allocated comes back identical. *)
Theorem decodeRequest_encodeRequest {V} {HV : RequestValidator V}
    (r : requestPayload) (validator : V) :
  wellFormed r ->
  exists data,
    encodeRequest r = Ok data /\
    decodeRequest Keccak256 data validator
    = (if makes r then
         Returned
           (match Verify validator (Keccak256 (signedBytes r)) (timestamp r)
                    (allocated (sig r)) with
            | (None, validator') => (Ok (received r), validator')
            | (Some err, validator') => (Err err, validator')
            end)
       else OutOfMemory) /\
    (forall vs s, dbValues r = Some vs -> Forall (fun v => v <> None) vs ->
                  sig r = Some s -> received r = r).
Proof.
  intros Hwf. pose proof Hwf as ((k & keys & Hkeys) & Hsig & Ht & Hk & Hks & Hv & Hvs & Hs).
  exists (signedBytes r ++ Wire.encodeBytes [] (sig r)).
  split; [now apply encodeRequest_bytes|].
  split; [|intros; eapply received_id; eauto].
  unfold decodeRequest.
  assert (Hb : signedBytes r
               = signedBytes (mkRequest (Some (k :: keys)) (dbValues r) (timestamp r) None)).
  { unfold signedBytes. cbn. now rewrite Hkeys. }
  rewrite Hb at 1.
  rewrite Hkeys in Hk, Hks.
  rewrite decodeKeysValuesAndTime_encoded by assumption.
  assert (Hm : makes (mkRequest (Some (k :: keys)) (dbValues r) (timestamp r) None)
               = makes r).
  { unfold makes. cbn. now rewrite Hkeys. }
  rewrite Hm. destruct (makes r); [|reflexivity]. f_equal.
  unfold len at 1. cbn [elems].
  destruct (Z.eqb_spec (Z.of_nat (length (k :: keys))) 0) as [E|_];
    [cbn in E; lia|].
  rewrite <- (app_nil_r (Wire.encodeBytes [] (sig r))).
  rewrite WireFacts.decodeBytes_encoded by assumption.
  rewrite encodeKeysValuesAndTime_bytes.
  change (mkRequest (Some (k :: keys)) (Some (map allocated (elems (dbValues r))))
            (timestamp r) None)
    with (mkRequest (Some (k :: keys)) (dbValues (received r)) (timestamp r) None).
  assert (Hb' : signedBytes (mkRequest (Some (k :: keys)) (dbValues (received r))
                               (timestamp r) None) = signedBytes r).
  { rewrite <- (signedBytes_received r). unfold signedBytes. cbn. now rewrite Hkeys. }
  rewrite Hb'.
  unfold received, allocated. rewrite Hkeys. reflexivity.
Qed.

End CodecFacts.

(** A well-formed request with a nil list of values, and what comes back. *)
Lemma decodeRequest_encodeRequest_witness :
  wellFormed Sample.read1 /\
  exists data,
    encodeRequest Sample.read1 = Ok data /\
    decodeRequest (HR := Sample.machine) (HV := Sample.accept_all) Sample.digest data tt
    = Returned (Ok (received Sample.read1), tt).
Proof.
  assert (Hwf : wellFormed Sample.read1).
  { solve_wellFormed. }
  split; [exact Hwf|].
  destruct (decodeRequest_encodeRequest (HR := Sample.machine) Sample.digest
              (HV := Sample.accept_all) Sample.read1 tt Hwf)
    as (data & He & Hd & _).
  exists data. split; [exact He|]. exact Hd.
Defined.

(** C5 as stated fails on a nil list of values: the request that comes
    back from the wire has an empty, allocated list instead, so it is not
    equal to the one that was encoded. *)
Lemma roundtrip_nil_values_differs :
  wellFormed Sample.read1 /\
  dbValues Sample.read1 = None /\
  decodeRequest (HR := Sample.machine) (HV := Sample.accept_all) Sample.digest
    (Sample.bytes_of (encodeRequest Sample.read1)) tt
  = Returned (Ok (mkRequest (Some ["privateNotes"]) (Some []) 1000
                    (Sample.signature_of Sample.minerA)), tt) /\
  decodeRequest (HR := Sample.machine) (HV := Sample.accept_all) Sample.digest
    (Sample.bytes_of (encodeRequest Sample.read1)) tt
  <> Returned (Ok Sample.read1, tt).
Proof.
  split.
  { solve_wellFormed. }
  split; [reflexivity|].
  assert (E : decodeRequest (HR := Sample.machine) (HV := Sample.accept_all)
                Sample.digest (Sample.bytes_of (encodeRequest Sample.read1)) tt
              = Returned (Ok (mkRequest (Some ["privateNotes"]) (Some []) 1000
                                (Sample.signature_of Sample.minerA)), tt))
    by (vm_compute; reflexivity).
  split; [exact E|].
  rewrite E. unfold Sample.read1. intros H. inversion H.
Qed.

(** ** The data-server side of the proxy *)

Section RemoteFacts.

Context {HR : Runtime}.
Context {C D PubKey : Type} {HC : History C} {HD : DB D} {HK : Crypto PubKey}.

Variable Keccak256 : list byte -> list byte.

(** A key passes [hasAddressPrefix] exactly when some address of the
    whitelist map, whichever it is, is a prefix of it. *)
Lemma hasAddressPrefix_spec (i : remoteImpl C D) (key : string) :
  hasAddressPrefix i key = true <->
  exists a, is_Some (whitelist i !! a) /\ HasPrefix key a = true.
Proof.
  unfold hasAddressPrefix. rewrite existsb_exists. split.
  - intros (a & Hin & Hp). exists a. split; [|exact Hp].
    apply in_map_iff in Hin as ((a' & b) & Ha & Hin). simpl in Ha. subst a'.
    apply list_elem_of_In, elem_of_map_to_list in Hin. eauto.
  - intros (a & (b & Hb) & Hp). exists a. split; [|exact Hp].
    apply in_map_iff. exists (a, b). split; [reflexivity|].
    apply list_elem_of_In, elem_of_map_to_list. exact Hb.
Qed.

(** *** Verify *)

Lemma Verify_inversion now (i i' : remoteImpl C D) hash ts sig :
  remote_Verify now i hash ts sig = (None, i') ->
  exists pub cache,
    SigToPub hash sig = Ok pub /\
    whitelist i !! addressHex pub = Some true /\
    wlHistory i !! addressHex pub = Some cache /\
    (Contains cache ts = true ->
     After now (time_Unix (int64 (ts + _validityThreshold)) 0) = false) /\
    i' = mkRemote (localDB i) (whitelist i)
           (<[addressHex pub := Add cache ts]> (wlHistory i)).
Proof.
  unfold remote_Verify. intros Hv.
  destruct (SigToPub hash sig) as [pub|e] eqn:Es; [|discriminate].
  destruct (whitelist i !! addressHex pub) as [[|]|] eqn:Ew;
    simpl in Hv; try discriminate.
  destruct (wlHistory i !! addressHex pub) as [cache|] eqn:Eh; [|discriminate].
  exists pub, cache.
  destruct (Contains cache ts) eqn:Ec.
  - destruct (After now _) eqn:Ea; [discriminate|].
    inversion Hv; subst. repeat split; auto.
  - inversion Hv; subst. repeat split; auto. discriminate.
Qed.

(** A timestamp that is not in the history of a whitelisted signer is
    accepted whatever the clock says. *)
Lemma Verify_unseen_any_time now (i : remoteImpl C D) hash ts sig pub cache :
  SigToPub hash sig = Ok pub ->
  whitelist i !! addressHex pub = Some true ->
  wlHistory i !! addressHex pub = Some cache ->
  Contains cache ts = false ->
  fst (remote_Verify now i hash ts sig) = None.
Proof.
  intros Es Ew Eh Ec. unfold remote_Verify.
  rewrite Es, Ew, Eh, Ec. reflexivity.
Qed.

(** *** The write loop *)

Lemma writeLoop_stops (i : remoteImpl C D) j :
  forall keys values idx db k v dbj,
    keys !! j = Some k ->
    values !! (idx + j)%nat = Some v ->
    Forall (fun k => hasAddressPrefix i k = true) (take j keys) ->
    putAll (zip (take j keys) (take j (drop idx values))) db = Ok dbj ->
    (hasAddressPrefix i k = false \/ exists e, Put dbj k v = Err e) ->
    exists msg,
      writeLoop i idx keys values db = WriteFailed msg dbj /\
      (if hasAddressPrefix i k then Put dbj k v = Err msg
       else msg = "All remote data storage request keys must be prefixed with miner public Ethereum address").
Proof.
  induction j as [|j IH]; intros keys values idx db k v dbj Hk Hv Hall Hput Hfail.
  - destruct keys as [|k0 keys]; [discriminate|].
    simpl in Hk. inversion Hk; subst k0.
    rewrite Nat.add_0_r in Hv.
    simpl in Hput. inversion Hput; subst dbj.
    simpl. destruct (hasAddressPrefix i k) eqn:Hp; simpl; [|eauto].
    destruct Hfail as [Hp' | (e & He)]; [discriminate|].
    rewrite Hv, He. eauto.
  - destruct keys as [|k0 keys]; [discriminate|].
    simpl in Hk. simpl in Hall. inversion Hall as [|? ? Hp0 Hall']; subst.
    destruct (values !! idx) as [v0|] eqn:Ev0.
    2:{ apply lookup_ge_None in Ev0. apply lookup_lt_Some in Hv. lia. }
    rewrite (drop_S _ _ _ Ev0) in Hput. simpl in Hput.
    simpl. rewrite Hp0, Ev0. simpl.
    destruct (Put db k0 v0) as [db'|e]; [|discriminate].
    apply (IH keys values (S idx) db' k v dbj); auto.
    replace (S idx + j)%nat with (idx + S j)%nat by lia. exact Hv.
Qed.

Lemma writeLoop_inv (i : remoteImpl C D) values :
  forall keys idx db,
    (idx + length keys <= length values)%nat ->
    exists j db',
      (j <= length keys)%nat /\
      Forall (fun k => hasAddressPrefix i k = true) (take j keys) /\
      putAll (zip (take j keys) (take j (drop idx values))) db = Ok db' /\
      ((j = length keys /\ writeLoop i idx keys values db = Written db') \/
       (exists k msg, keys !! j = Some k /\
          writeLoop i idx keys values db = WriteFailed msg db' /\
          (if hasAddressPrefix i k
           then exists v, values !! (idx + j)%nat = Some v /\ Put db' k v = Err msg
           else msg = "All remote data storage request keys must be prefixed with miner public Ethereum address"))).
Proof.
  induction keys as [|k keys IH]; intros idx db Hlen.
  - exists 0%nat, db. simpl. repeat split; auto.
  - simpl in Hlen. simpl.
    destruct (hasAddressPrefix i k) eqn:Hp; simpl.
    2:{ exists 0%nat, db. simpl. repeat split; auto; try lia. right.
        exists k. eexists. rewrite Hp. eauto. }
    destruct (values !! idx) as [v|] eqn:Ev.
    2:{ apply lookup_ge_None in Ev. lia. }
    destruct (Put db k v) as [db1|e] eqn:Eput.
    2:{ exists 0%nat, db. simpl. repeat split; auto; try lia. right.
        exists k, e. rewrite Hp, Nat.add_0_r. eauto. }
    destruct (IH (S idx) db1) as (j & db' & Hj & Hall & Hput & Hres); [lia|].
    exists (S j), db'. simpl. rewrite (drop_S _ _ _ Ev). simpl. rewrite Eput.
    repeat split; auto; try lia.
    destruct Hres as [(-> & Hw) | (k' & msg & Hk' & Hw & Hmsg)]; [left | right]; eauto.
    exists k', msg. repeat split; auto.
    replace (idx + S j)%nat with (S idx + j)%nat by lia. exact Hmsg.
Qed.

(** *** The read loop *)

Lemma readLoop_unchecked known known' keys (db : D) outMap :
  readLoop known false keys db outMap = readLoop known' false keys db outMap.
Proof.
  revert outMap. induction keys as [|k keys IH]; intros outMap; simpl; [reflexivity|].
  destruct (Get db k) as [[bts|]|e]; auto.
Qed.

(** What [decodeRequest] returns has allocated keys and values: both are
    made with [make] in [decodeKeysValuesAndTime]. *)
Lemma decodeRequest_allocated {V} {HV : RequestValidator V} data (validator validator' : V) req :
  decodeRequest Keccak256 data validator = Returned (Ok req, validator') ->
  is_nil (dbKeys req) = false /\ is_nil (dbValues req) = false.
Proof.
  unfold decodeRequest, decodeKeysValuesAndTime, make_from.
  destruct (Wire.decode_int64 data) as [[t b1]|e]; [|discriminate].
  destruct (Wire.decode_uint32 b1) as [[n b2]|e]; [|discriminate].
  destruct (can_make sizeof_string n); [|discriminate]. cbn [negb].
  destruct (Wire.repeat_read _ Wire.decodeString b2) as [[ks b3]|e]; [|discriminate].
  destruct (Wire.decode_uint32 b3) as [[m b4]|e]; [|discriminate].
  destruct (can_make sizeof_slice m); [|discriminate]. cbn [negb].
  destruct (Wire.repeat_read _ Wire.decodeBytes b4) as [[vs b5]|e]; [|discriminate].
  destruct (len (Some ks) =? 0); [discriminate|].
  destruct (Wire.decodeBytes b5) as [[sg b6]|e]; [|discriminate].
  destruct (encodeKeysValuesAndTime _ _ _ _) as [h|e]; [|discriminate].
  destruct (Verify _ _ _ _) as [[e|] v']; [discriminate|].
  intros H. inversion H; subst. split; reflexivity.
Qed.

Lemma serveRequest_unchecked known known' (i : remoteImpl C D) req :
  is_nil (dbValues req) = false ->
  serveRequest known i req = serveRequest known' i req.
Proof.
  intros Hv. unfold serveRequest. rewrite Hv.
  destruct (is_nil (dbKeys req)); [reflexivity|].
  destruct (localDB i) as [db|]; [|reflexivity].
  match goal with |- context [match ?w with Written _ => _ | _ => _ end] =>
    destruct w as [db'|msg db'|msg db'] end; try reflexivity.
  now rewrite (readLoop_unchecked known known').
Qed.

(** The allow-list of known keys has no effect on any request that
    arrives over the wire: the check is guarded by [req.dbValues == nil],
    and a decoded request never has nil values. *)
Lemma IncomingRequest_ignores_isKnownKey known known' now (i : remoteImpl C D) data :
  IncomingRequest Keccak256 known now i data
  = IncomingRequest Keccak256 known' now i data.
Proof.
  unfold IncomingRequest.
  destruct (decodeRequest Keccak256 data i) as [[[req|e] i1]|] eqn:Ed;
    [|reflexivity|reflexivity].
  apply decodeRequest_allocated in Ed as [_ Hv].
  now apply serveRequest_unchecked.
Qed.

(** *** Write requests *)

(** C4, as amended. For every write request (values present and not
    empty) that the server handles, the pairs it has put into the store
    are an initial run of the request's pairs, and every key of that run
    begins with an address of the whitelist: any whitelisted address,
    which need not be the signer's (the handler is not even told who
    signed). If some key begins with no whitelisted address, the
    response is an error response, whose message is that of the first
    failure met: the numbers of keys and values differ, or the first key
    not written begins with no whitelisted address, or the [Put] of the
    first pair not written returned that error. *)
Theorem write_keys_prefixed known (i i' : remoteImpl C D) req db keys vals out :
  localDB i = Some db ->
  dbKeys req = Some keys ->
  dbValues req = Some vals ->
  vals <> [] ->
  serveRequest known i req = (out, i') ->
  exists j db',
    localDB i' = Some db' /\
    putAll (zip (take j keys) (take j vals)) db = Ok db' /\
    Forall (fun k => exists a, is_Some (whitelist i !! a) /\ HasPrefix k a = true)
      (take j keys) /\
    (Exists (fun k => forall a, is_Some (whitelist i !! a) -> HasPrefix k a = false) keys ->
     exists msg,
       out = Responded (errorResponse msg) /\
       ((length keys <> length vals /\ j = 0%nat /\
         msg = "Keys and values must have the same array dimensions") \/
        (length keys = length vals /\
         exists k, keys !! j = Some k /\
           if hasAddressPrefix i k
           then exists v, vals !! j = Some v /\ Put db' k v = Err msg
           else (forall a, is_Some (whitelist i !! a) -> HasPrefix k a = false) /\
                msg = "All remote data storage request keys must be prefixed with miner public Ethereum address"))).
Proof.
  intros Hdb Hk Hv Hne Hs. unfold serveRequest in Hs.
  rewrite Hk, Hv, Hdb in Hs. cbn [is_nil negb andb elems] in Hs.
  assert (Hpos : (len (Some vals) >? 0) = true).
  { unfold len. cbn [elems]. destruct vals; [congruence|]. cbn. reflexivity. }
  rewrite Hpos in Hs.
  destruct (Z.eqb_spec (len (Some keys)) (len (Some vals))) as [Hlen|Hlen];
    cbn [negb] in Hs.
  2:{ inversion Hs; subst. exists 0%nat, db. cbn.
      split; [reflexivity|]. split; [reflexivity|]. split; [constructor|].
      intros _. eexists. split; [reflexivity|]. left.
      unfold len in Hlen. cbn [elems] in Hlen. repeat split; auto; lia. }
  unfold len in Hlen. cbn [elems] in Hlen.
  assert (Hlen' : length keys = length vals) by lia.
  destruct (writeLoop_inv i vals keys 0%nat db) as (j & db' & Hj & Hall & Hput & Hres);
    [lia|].
  rewrite drop_0 in Hput.
  exists j, db'.
  assert (Hall' : Forall (fun k => exists a, is_Some (whitelist i !! a) /\ HasPrefix k a = true)
                    (take j keys)).
  { eapply Forall_impl; [exact Hall|]. intros k Hp. now apply hasAddressPrefix_spec. }
  destruct Hres as [(-> & Hw) | (k & msg & Hkj & Hw & Hmsg)]; rewrite Hw in Hs.
  - rewrite firstn_all in Hall'.
    assert (Hnone : Exists (fun k => forall a, is_Some (whitelist i !! a) -> HasPrefix k a = false) keys
                    -> False).
    { intros Hex. apply Exists_exists in Hex as (k & Hin & Hno).
      rewrite Forall_forall in Hall'.
      destruct (Hall' k Hin) as (a & Ha & Hp). rewrite (Hno a Ha) in Hp. discriminate. }
    destruct (readLoop known false keys db' ∅); inversion Hs; subst;
      cbn; rewrite firstn_all; repeat split; auto;
      try (rewrite firstn_all in Hput; exact Hput); intros Hex; now destruct Hnone.
  - inversion Hs; subst. cbn.
    split; [reflexivity|]. split; [exact Hput|]. split; [exact Hall'|].
    intros _. exists msg. split; [reflexivity|]. right. split; [exact Hlen'|].
    exists k. split; [exact Hkj|].
    destruct (hasAddressPrefix i k) eqn:Hp; [exact Hmsg|].
    split; [|exact Hmsg].
    intros a Ha. destruct (HasPrefix k a) eqn:Hpa; [|reflexivity].
    assert (Ht : hasAddressPrefix i k = true)
      by (apply hasAddressPrefix_spec; eauto).
    congruence.
Qed.

(** C10. Within one write request whose keys and values have the same
    length, the pairs are put in index order and the loop stops at the
    first failure: if the pairs before index [j] pass the prefix check
    and are put one after the other, reaching the store [dbj], and the key
    at index [j] fails the prefix check or its [Put] returns an error, then
    the response is the error response of that failure (the message that
    every key must be prefixed with a miner address, or the error the
    [Put] returned) and the store is left as [dbj]: the earlier pairs
    written, the pair at [j] and the later ones not. *)
Theorem write_stops_at_first_failure known (i : remoteImpl C D) req db keys vals
    j k v dbj :
  localDB i = Some db ->
  dbKeys req = Some keys ->
  dbValues req = Some vals ->
  length keys = length vals ->
  keys !! j = Some k ->
  vals !! j = Some v ->
  Forall (fun k => hasAddressPrefix i k = true) (take j keys) ->
  putAll (zip (take j keys) (take j vals)) db = Ok dbj ->
  (hasAddressPrefix i k = false \/ exists e, Put dbj k v = Err e) ->
  exists msg,
    serveRequest known i req = (Responded (errorResponse msg), set_localDB i dbj) /\
    (if hasAddressPrefix i k then Put dbj k v = Err msg
     else msg = "All remote data storage request keys must be prefixed with miner public Ethereum address").
Proof.
  intros Hdb Hk Hv Hlen Hkj Hvj Hall Hput Hfail.
  unfold serveRequest. rewrite Hk, Hv, Hdb. cbn [is_nil negb andb elems].
  assert (Hpos : (len (Some vals) >? 0) = true).
  { unfold len. cbn [elems]. apply lookup_lt_Some in Hvj.
    destruct vals; [cbn in Hvj; lia|]. cbn. reflexivity. }
  rewrite Hpos.
  assert (Heq : (len (Some keys) =? len (Some vals)) = true).
  { unfold len. cbn [elems]. rewrite Hlen. apply Z.eqb_refl. }
  rewrite Heq. cbn [negb].
  destruct (writeLoop_stops i j keys vals 0%nat db k v dbj) as (msg & Hw & Hmsg);
    rewrite ?drop_0; auto.
  rewrite Hw. eauto.
Qed.

End RemoteFacts.

(** *** Concrete runs of the server *)


(** C3 at the failing input: a request signed at second 1000 reaches the
    server at second 1003, past the validity threshold of two seconds. Its
    timestamp is not in the history, so the clock is never read: the
    request is verified, its value is written and the response carries no
    error. *)
Theorem expired_first_delivery_accepted :
  After Sample.t1003 (time_Unix (1000 + _validityThreshold) 0) = true /\
  timestamp Sample.write1 = 1000 /\
  Sample.stored Sample.server0 = Some [] /\
  Sample.shown (fst (Sample.handle Sample.t1003 Sample.server0 (Sample.wire Sample.write1)))
  = Some ([(Sample.keyA, ["001"%byte])], "") /\
  Sample.stored (snd (Sample.handle Sample.t1003 Sample.server0 (Sample.wire Sample.write1)))
  = Some [(Sample.keyA, ["001"%byte])].
Proof. repeat split; vm_compute; reflexivity. Qed.

(** C2 at the failing input: a read request (no values) for a key that is
    not in the allow-list. On the wire the absent values are a zero count,
    which decodes to an allocated empty list, so the allow-list is not
    consulted and the stored value is returned. *)
Theorem unknown_key_read_served :
  dbValues Sample.read1 = None /\
  dbKeys Sample.read1 = Some ["privateNotes"] /\
  Sample.knownKeys "privateNotes" = false /\
  Sample.shown (fst (Sample.handle Sample.t1000 Sample.server1 (Sample.wire Sample.read1)))
  = Some ([("privateNotes", ["042"%byte])], "").
Proof. repeat split; vm_compute; reflexivity. Qed.

(** [minerA] writes one value under its own prefix. *)
Lemma write_keys_prefixed_witness :
  localDB Sample.server0 = Some ∅ /\
  dbKeys Sample.write1 = Some [Sample.keyA] /\
  dbValues Sample.write1 = Some [Some ["001"%byte]] /\
  exists j db',
    localDB (snd (Sample.serve Sample.server0 Sample.write1)) = Some db' /\
    putAll (HD := Sample.map_store) (zip (take j [Sample.keyA]) (take j [Some ["001"%byte]])) ∅
    = Ok db' /\
    Forall (fun k => exists a, is_Some (whitelist Sample.server0 !! a) /\ HasPrefix k a = true)
      (take j [Sample.keyA]).
Proof.
  repeat split.
  destruct (write_keys_prefixed (HD := Sample.map_store)
              Sample.knownKeys Sample.server0
              (snd (Sample.serve Sample.server0 Sample.write1))
              Sample.write1 ∅ [Sample.keyA] [Some ["001"%byte]]
              (fst (Sample.serve Sample.server0 Sample.write1)))
    as (j & db' & H1 & H2 & H3 & _);
    [reflexivity | reflexivity | reflexivity | discriminate | apply surjective_pairing |].
  exists j, db'. repeat split; assumption.
Defined.

(** C4 as stated fails: [minerA] signs a request that writes under the
    address of [minerB]; the key does not begin with the signer's address,
    and the value is written all the same. *)
Lemma foreign_prefix_written :
  SigToPub (Crypto := Sample.address_crypto) [] (sig Sample.writeForeign) = Ok Sample.minerA /\
  dbKeys Sample.writeForeign = Some [Sample.keyB] /\
  HasPrefix Sample.keyB Sample.minerA = false /\
  Sample.shown (fst (Sample.handle Sample.t1000 Sample.server0
                       (Sample.wire Sample.writeForeign)))
  = Some ([(Sample.keyB, ["007"%byte])], "") /\
  Sample.stored (snd (Sample.handle Sample.t1000 Sample.server0
                        (Sample.wire Sample.writeForeign)))
  = Some [(Sample.keyB, ["007"%byte])].
Proof. repeat split; vm_compute; reflexivity. Qed.

(** A request whose second key has no whitelisted prefix: the first pair
    is written, the response is an error, the store has changed. *)
Lemma write_stops_at_first_failure_witness :
  hasAddressPrefix Sample.server0 "currentChallenge" = false /\
  Sample.stored Sample.server0 = Some [] /\
  Sample.serve Sample.server0 Sample.writeMixed
  = (Responded
       (errorResponse
          "All remote data storage request keys must be prefixed with miner public Ethereum address"),
     set_localDB Sample.server0 (<[ Sample.keyA := ["001"%byte] ]> ∅)) /\
  Sample.stored (set_localDB Sample.server0 (<[ Sample.keyA := ["001"%byte] ]> ∅))
  = Some [(Sample.keyA, ["001"%byte])].
Proof.
  assert (Hp : hasAddressPrefix Sample.server0 "currentChallenge" = false)
    by (vm_compute; reflexivity).
  split; [exact Hp|]. split; [vm_compute; reflexivity|].
  destruct (write_stops_at_first_failure (HD := Sample.map_store)
              Sample.knownKeys Sample.server0 Sample.writeMixed ∅
              [Sample.keyA; "currentChallenge"] [Some ["001"%byte]; Some ["002"%byte]]
              1%nat "currentChallenge" (Some ["002"%byte])
              (<[ Sample.keyA := ["001"%byte] ]> ∅)) as (msg & Hrun & Hmsg);
    try reflexivity.
  - repeat constructor.
  - left. exact Hp.
  - rewrite Hp in Hmsg. subst msg.
    split; [exact Hrun | vm_compute; reflexivity].
Defined.

(** The other way for a write to stop: the [Put] of the second pair fails
    because the store is full; the first pair stays written and the
    response is the error of the store. *)
Example put_failure_keeps_earlier_pairs :
  let out := serveRequest (HD := Sample.bounded_store) Sample.knownKeys
               Sample.serverFull Sample.writeTwo in
  fst out = Responded (errorResponse "no space left on device") /\
  option_map (fun d => map_to_list (Sample.cells d)) (localDB (snd out))
  = Some [(Sample.keyA, ["001"%byte])].
Proof. split; vm_compute; reflexivity. Qed.

(** ** Configuration checks *)

Section ConfigFacts.

Variable Getenv : string -> string.

(** An address that is valid hexadecimal of the wrong length makes
    [validateConfig] return [Wrapf] of a nil error, which is nil: the
    configuration is accepted and the later checks are not reached. *)
Lemma validateConfig_wrong_length_address cfg b :
  Cfg.DecodeString (Cfg.PublicAddress cfg) = (b, None) ->
  length b <> 20%nat ->
  Cfg.validateConfig Getenv cfg = None.
Proof.
  intros Hd Hl. unfold Cfg.validateConfig. rewrite Hd.
  destruct (Z.eqb_spec (Z.of_nat (length b)) 20) as [E|_]; [lia|].
  rewrite orb_true_r. reflexivity.
Qed.

(** The same slip on the private key. *)
Lemma validateConfig_wrong_length_key cfg a b :
  Cfg.DecodeString (Cfg.PublicAddress cfg) = (a, None) ->
  length a = 20%nat ->
  Getenv Cfg.NodeURLEnvName <> "" ->
  Cfg.DecodeString (Getenv Cfg.PrivateKeyEnvName) = (b, None) ->
  length b <> 32%nat ->
  Cfg.validateConfig Getenv cfg = None.
Proof.
  intros Ha Hla Hn Hb Hlb. unfold Cfg.validateConfig. rewrite Ha, Hla.
  destruct (bool_decide_reflect (@None error <> None)) as [E|_]; [congruence|].
  cbn [orb negb Z.eqb Z.of_nat Pos.of_succ_nat Pos.succ Pos.eqb].
  destruct (String.eqb_spec (Getenv Cfg.NodeURLEnvName) "") as [E|_]; [congruence|].
  rewrite Hb.
  destruct (Z.eqb_spec (Z.of_nat (length b)) 32) as [E|_]; [lia|].
  rewrite orb_true_r. reflexivity.
Qed.

End ConfigFacts.

(** C8 at the failing input: the public address "abcd" decodes to two
    bytes, [NODE_URL] and [ETH_PRIVATE_KEY] are unset, and [validateConfig]
    returns nil, that is, it accepts the configuration. *)
Theorem short_address_accepted :
  Cfg.DecodeString "abcd" = (["171"%byte; "205"%byte], None) /\
  Cfg.validateConfig (fun _ => "") (Cfg.mkConfig "abcd" 1) = None.
Proof. split; vm_compute; reflexivity. Qed.

(** The same slip on the private key: a well-formed address and node URL,
    a one-byte key and a gas multiplier of 1000 are accepted. *)
Example short_key_accepted :
  Cfg.validateConfig
    (fun name => if String.eqb name Cfg.NodeURLEnvName then "http://localhost:8545"
                 else if String.eqb name Cfg.PrivateKeyEnvName then "ab"
                 else "")
    (Cfg.mkConfig "00000000000000000000000000000000000000aa" 1000) = None.
Proof. vm_compute; reflexivity. Qed.

(** ** HTTP with retries *)

Section HttpFacts.

Import Http.

Variable roundTrip : nat -> call -> res Response.
Variable elapsed : nat -> Z.

Lemma transient_false resp :
  transient (Ok resp) = false <-> in_2xx resp.
Proof.
  unfold transient, in_2xx. rewrite orb_false_iff, Z.ltb_ge, Z.gtb_ltb, Z.ltb_ge. lia.
Qed.

Lemma fetched_last req expiration w (r : res (list byte)) :
  match r with
  | Ok data => exists resp, roundTrip (exchanges w) (request_call req) = Ok resp /\
                            in_2xx resp /\ Body resp = data
  | Err _ => transient (roundTrip (exchanges w) (request_call req)) = true /\
             expiration < clock w + elapsed (exchanges w)
  end ->
  fetched roundTrip elapsed req expiration w r
    (mkWorld (clock w + elapsed (exchanges w)) (S (exchanges w))).
Proof.
  intros Hlast. exists 0%nat. unfold clock_after. cbn [exchanges clock total_elapsed].
  split; [lia|]. split; [lia|]. split; [intros j Hj; lia|].
  rewrite Nat.add_0_r. destruct r; exact Hlast.
Qed.

Lemma clock_after_retry w j :
  clock_after elapsed
    (Sleep (500 * Millisecond)
       (mkWorld (clock w + elapsed (exchanges w)) (S (exchanges w)))) j
  = clock_after elapsed w (S j).
Proof.
  unfold clock_after. cbn [Sleep exchanges clock].
  change (total_elapsed elapsed (exchanges w) (S (S j)))
    with (elapsed (exchanges w) + total_elapsed elapsed (S (exchanges w)) (S j)).
  lia.
Qed.

Lemma fetched_retry req expiration w r w' :
  transient (roundTrip (exchanges w) (request_call req)) = true ->
  clock w + elapsed (exchanges w) <= expiration ->
  fetched roundTrip elapsed req expiration
    (Sleep (500 * Millisecond)
       (mkWorld (clock w + elapsed (exchanges w)) (S (exchanges w)))) r w' ->
  fetched roundTrip elapsed req expiration w r w'.
Proof.
  intros Htr Hbefore0 (k & He & Hc & Hbefore & Hlast).
  rewrite clock_after_retry in Hc.
  cbn [Sleep exchanges clock] in He, Hbefore, Hlast.
  exists (S k). split; [lia|]. split; [exact Hc|]. split.
  - intros [|j] Hj.
    + rewrite Nat.add_0_r. split; [exact Htr|].
      unfold clock_after. cbn [total_elapsed]. lia.
    + destruct (Hbefore j ltac:(lia)) as [Ht Hcl].
      rewrite clock_after_retry in Hcl.
      replace (exchanges w + S j)%nat with (S (exchanges w) + j)%nat by lia.
      split; assumption.
  - replace (exchanges w + S k)%nat with (S (exchanges w) + k)%nat by lia.
    exact Hlast.
Qed.

Lemma recReq_spec fuel :
  forall req expiration w r w',
    _recReq roundTrip elapsed fuel req expiration w = Some (r, w') ->
    fetched roundTrip elapsed req expiration w r w'.
Proof.
  induction fuel as [|fuel IH]; intros req expiration w r w' Hrun; [discriminate|].
  cbn [_recReq] in Hrun. unfold exchange in Hrun.
  destruct (roundTrip (exchanges w) (request_call req)) as [resp|err] eqn:Ert.
  - destruct ((StatusCode resp <? 200) || (StatusCode resp >? 299)) eqn:Est.
    + destruct (After _ expiration) eqn:Ea; unfold After in Ea; cbn [clock] in Ea.
      * inversion Hrun; subst r w'. apply fetched_last. rewrite Ert.
        split; [exact Est | lia].
      * apply fetched_retry; [rewrite Ert; exact Est | lia | now apply IH].
    + inversion Hrun; subst r w'. apply fetched_last.
      exists resp. repeat split; try reflexivity; try exact Ert;
        apply transient_false; exact Est.
  - destruct (After _ expiration) eqn:Ea; unfold After in Ea; cbn [clock] in Ea.
    + inversion Hrun; subst r w'. apply fetched_last. rewrite Ert.
      split; [reflexivity | lia].
    + apply fetched_retry; [rewrite Ert; reflexivity | lia | now apply IH].
Qed.

(** With a clock that does not run backwards, the attempts are bounded by
    the time left: every retry follows a sleep of 500 ms. *)
Lemma recReq_terminates fuel :
  (forall n, 0 <= elapsed n) ->
  forall req expiration w,
    (1 <= fuel)%nat ->
    expiration - clock w < (Z.of_nat fuel - 1) * (500 * Millisecond) ->
    exists r w', _recReq roundTrip elapsed fuel req expiration w = Some (r, w').
Proof.
  intros Hmono. induction fuel as [|fuel IH]; intros req expiration w Hf Hleft; [lia|].
  cbn [_recReq]. unfold exchange.
  set (w1 := mkWorld (clock w + elapsed (exchanges w)) (S (exchanges w))).
  assert (Hnext : After (clock w1) expiration = false ->
                  exists r w', _recReq roundTrip elapsed fuel req expiration (Sleep (500 * Millisecond) w1)
                               = Some (r, w')).
  { intros Ea. unfold After in Ea. cbn [w1 clock] in Ea.
    pose proof (Hmono (exchanges w)) as He.
    assert (Hms : 0 < 500 * Millisecond) by (unfold Millisecond; lia).
    apply IH; cbn [Sleep w1 clock]; nia. }
  destruct (roundTrip (exchanges w) (request_call req)) as [resp|err].
  - destruct ((StatusCode resp <? 200) || (StatusCode resp >? 299)).
    + destruct (After (clock w1) expiration) eqn:Ea; eauto.
    + eauto.
  - destruct (After (clock w1) expiration) eqn:Ea; eauto.
Qed.

Lemma attempts_suffice timeout fuel :
  (attempts timeout <= fuel)%nat ->
  (1 <= fuel)%nat /\ timeout < (Z.of_nat fuel - 1) * (500 * Millisecond).
Proof.
  unfold attempts, Millisecond. intros Hf. split; [lia|].
  change (500 * 1000000) with 500000000 in *.
  destruct (Z.le_gt_cases 0 timeout) as [Hpos|Hneg]; [|lia].
  assert (Hq : 0 <= timeout / 500000000) by (apply Z.div_pos; lia).
  assert (Hfz : timeout / 500000000 + 2 <= Z.of_nat fuel) by lia.
  pose proof (Z.mod_pos_bound timeout 500000000 ltac:(lia)) as Hm.
  pose proof (Z.div_mod timeout 500000000 ltac:(lia)) as Hd.
  apply Z.lt_le_trans with (500000000 * (timeout / 500000000 + 1)); [lia|].
  rewrite Z.mul_comm. apply Z.mul_le_mono_nonneg_r; lia.
Qed.

(** C7, as amended. When the clock does not run backwards, a fetch given
    enough attempts returns. It has then made one or more exchanges; every
    exchange but the last ended, before the deadline (start time plus the
    request's [Timeout]) had passed, in a transport error or a status code
    outside 200..299, and was followed by a sleep of 500 ms and another try;
    the body is returned as success exactly when the last response has a
    status code in 200..299 (not only 200); an error is returned only when
    the last outcome was transient and the deadline had passed. *)
Theorem HTTPWithRetries_spec (req : HTTPFetchRequest) (w : World) (fuel : nat) :
  (forall n, 0 <= elapsed n) ->
  (attempts (Timeout req) <= fuel)%nat ->
  exists r w' k,
    HTTPWithRetries roundTrip elapsed fuel req w = Some (r, w') /\
    exchanges w' = (exchanges w + S k)%nat /\
    clock w' = clock w + total_elapsed elapsed (exchanges w) (S k)
               + Z.of_nat k * (500 * Millisecond) /\
    (forall j, (j < k)%nat ->
               transient (roundTrip (exchanges w + j) (request_call req)) = true /\
               clock w + total_elapsed elapsed (exchanges w) (S j)
               + Z.of_nat j * (500 * Millisecond) <= clock w + Timeout req) /\
    match r with
    | Ok data =>
        exists resp, roundTrip (exchanges w + k) (request_call req) = Ok resp /\
                     200 <= StatusCode resp <= 299 /\ Body resp = data
    | Err _ =>
        transient (roundTrip (exchanges w + k) (request_call req)) = true /\
        clock w + Timeout req < clock w'
    end.
Proof.
  intros Hmono Hfuel. unfold HTTPWithRetries.
  destruct (attempts_suffice _ _ Hfuel) as [H1 Hlt].
  destruct (recReq_terminates fuel Hmono req (clock w + Timeout req) w H1) as (r & w' & Hrun);
    [lia|].
  destruct (recReq_spec _ _ _ _ _ _ Hrun) as (k & He & Hc & Hbefore & Hlast).
  exists r, w', k. repeat split; auto; apply Hbefore; assumption.
Qed.

End HttpFacts.

(** A server that always answers 500, a timeout of two seconds. *)
Lemma HTTPWithRetries_spec_witness :
  (forall n, 0 <= Sample.latency n) /\
  (Http.attempts (Http.Timeout Sample.fetch1) <= 6)%nat /\
  exists r w' k,
    Http.HTTPWithRetries (Sample.always 500 []) Sample.latency 6 Sample.fetch1
      (Http.mkWorld 0 0) = Some (r, w') /\
    Http.exchanges w' = (0 + S k)%nat.
Proof.
  assert (Hmono : forall n, 0 <= Sample.latency n)
    by (intros n; unfold Sample.latency, Http.Millisecond; lia).
  assert (Hfuel : (Http.attempts (Http.Timeout Sample.fetch1) <= 6)%nat)
    by (vm_compute; lia).
  split; [exact Hmono|]. split; [exact Hfuel|].
  destruct (HTTPWithRetries_spec (Sample.always 500 []) Sample.latency Sample.fetch1
              (Http.mkWorld 0 0) 6 Hmono Hfuel)
    as (r & w' & k & Hrun & He & _).
  exists r, w', k. split; [exact Hrun | exact He].
Defined.

(** C7 as stated fails: a response with status 201, which is not 200, is
    not retried; its body is returned as success after one exchange. *)
Lemma created_status_is_success :
  Http.StatusCode (Http.mkHttpResponse 201 ["111"%byte; "107"%byte]) <> 200 /\
  Http.HTTPWithRetries (Sample.always 201 ["111"%byte; "107"%byte]) Sample.latency 6
    Sample.fetch1 (Http.mkWorld 0 0)
  = Some (Ok ["111"%byte; "107"%byte], Http.mkWorld (100 * Http.Millisecond) 1).
Proof. split; [discriminate | vm_compute; reflexivity]. Qed.

(** ** The [mine] command *)

Section MineFacts.

Import Main.

Variable env : Env.

Lemma prepare_minerStarted remote w x w' :
  prepare env remote w = (x, w') -> minerStarted w' = minerStarted w.
Proof.
  unfold prepare, AddDBToCtx, startDataServer, ExitOnError, Fprintf_stderr,
    set_proxy, halt, bind, ret.
  destruct (EnablePoolWorker env), (db_Open env), remote, (OpenRemoteDB env),
    (OpenLocalProxy env), (CreateDataServerOps env), (ds_Start env);
    cbn; intros H; inversion H; reflexivity.
Qed.

Lemma startMiner_refuses w DB v err n :
  ctxDataProxy w = Some DB ->
  proxy_Get DB (DisputeStatusKey env) = (v, err) ->
  DecodeBig env (string_of_list_byte (elems v)) = Ok n ->
  n <> 1 ->
  exists w',
    startMiner env w = (inr (Exit (-1)), w') /\
    stderr w' = stderr w ++ [refusal] /\
    minerStarted w' = minerStarted w.
Proof.
  intros Hctx Hget Hdec Hn.
  unfold startMiner, bind, ctx_DataProxy. rewrite Hctx, Hget, Hdec.
  assert (Hc : forall w0, big_Cmp (Some n) 1 w0
                          = (inl (if n <? 1 then -1 else if n =? 1 then 0 else 1), w0))
    by reflexivity.
  assert (Hnz : ((if n <? 1 then -1 else if n =? 1 then 0 else 1) =? 0) = false).
  { destruct (Z.ltb_spec n 1); [reflexivity|].
    destruct (Z.eqb_spec n 1); [congruence | reflexivity]. }
  destruct err as [e|]; cbn [warn ret]; rewrite Hc, Hnz; cbn;
    eexists; repeat split.
Qed.

Lemma startMiner_panics w DB v err e :
  ctxDataProxy w = Some DB ->
  proxy_Get DB (DisputeStatusKey env) = (v, err) ->
  DecodeBig env (string_of_list_byte (elems v)) = Err e ->
  exists msg w',
    startMiner env w = (inr (Panic msg), w') /\
    stderr w' = stderr w /\
    minerStarted w' = minerStarted w.
Proof.
  intros Hctx Hget Hdec.
  unfold startMiner, bind, ctx_DataProxy. rewrite Hctx, Hget, Hdec.
  destruct err as [e'|]; cbn; do 2 eexists; repeat split.
Qed.

(** C6. When the preparation of the command has completed and the
    dispute status read from the store decodes to a big integer other
    than 1, the command prints the line "checking miner failed: miner is
    not able to mine with current status" on the standard error stream
    and exits with code -1; the mining manager is not started. *)
Theorem mine_refuses_on_dispute_status remote w w1 DB v err n :
  prepare env remote w = (inl tt, w1) ->
  ctxDataProxy w1 = Some DB ->
  proxy_Get DB (DisputeStatusKey env) = (v, err) ->
  DecodeBig env (string_of_list_byte (elems v)) = Ok n ->
  n <> 1 ->
  exists w',
    mineCmd env remote w = (inr (Exit (-1)), w') /\
    stderr w' = stderr w1 ++
      [String.append
         "checking miner failed: miner is not able to mine with current status"
         newline] /\
    minerStarted w' = minerStarted w.
Proof.
  intros Hprep Hctx Hget Hdec Hn.
  destruct (startMiner_refuses w1 DB v err n Hctx Hget Hdec Hn) as (w' & Hrun & Herr & Hm).
  exists w'. unfold mineCmd, bind. rewrite Hprep. repeat split; auto.
  rewrite Hm. eapply prepare_minerStarted; eauto.
Qed.

(** C9. When the preparation of the command has completed and the
    dispute status read from the store does not decode to a big integer
    (the value is missing, so that the empty string is decoded, or it is
    not a hexadecimal number), the decode error is dropped, the status is
    a nil big integer and the comparison panics: the command does not
    leave through [ExitOnError], nothing is printed on the standard
    error stream by it, and the mining manager is not started. *)
Theorem mine_panics_on_undecodable_status remote w w1 DB v err e :
  prepare env remote w = (inl tt, w1) ->
  ctxDataProxy w1 = Some DB ->
  proxy_Get DB (DisputeStatusKey env) = (v, err) ->
  DecodeBig env (string_of_list_byte (elems v)) = Err e ->
  exists msg w',
    mineCmd env remote w = (inr (Panic msg), w') /\
    stderr w' = stderr w1 /\
    minerStarted w' = minerStarted w.
Proof.
  intros Hprep Hctx Hget Hdec.
  destruct (startMiner_panics w1 DB v err e Hctx Hget Hdec) as (msg & w' & Hrun & Herr & Hm).
  exists msg, w'. unfold mineCmd, bind. rewrite Hprep. repeat split; auto.
  rewrite Hm. eapply prepare_minerStarted; eauto.
Qed.

End MineFacts.

(** Dispute status 0 at the start of a local [mine]. *)
Lemma mine_refuses_on_dispute_status_witness :
  let env := Sample.mine_env (Some (list_byte_of_string "0x0")) in
  let w1 := snd (Main.prepare env false Sample.world0) in
  Main.prepare env false Sample.world0 = (inl tt, w1) /\
  Main.DecodeBig env "0x0" = Ok 0 /\
  exists w',
    Main.mineCmd env false Sample.world0 = (inr (Main.Exit (-1)), w') /\
    Main.stderr w' =
      [String.append
         "checking miner failed: miner is not able to mine with current status"
         Main.newline] /\
    Main.minerStarted w' = false.
Proof.
  intros env w1.
  assert (Hprep : Main.prepare env false Sample.world0 = (inl tt, w1)) by reflexivity.
  assert (Hdec : Main.DecodeBig env "0x0" = Ok 0) by reflexivity.
  split; [exact Hprep|]. split; [exact Hdec|].
  apply (mine_refuses_on_dispute_status env false Sample.world0 w1
           (Sample.status_proxy (Some (list_byte_of_string "0x0")))
           (Some (list_byte_of_string "0x0")) None 0 Hprep);
    [reflexivity | reflexivity | exact Hdec | discriminate].
Defined.

(** No dispute status in the store at the start of a local [mine]. *)
Lemma mine_panics_on_undecodable_status_witness :
  let env := Sample.mine_env None in
  let w1 := snd (Main.prepare env false Sample.world0) in
  Main.prepare env false Sample.world0 = (inl tt, w1) /\
  Main.DecodeBig env "" = Err "empty hex string" /\
  exists msg w',
    Main.mineCmd env false Sample.world0 = (inr (Main.Panic msg), w') /\
    Main.stderr w' = [] /\
    Main.minerStarted w' = false.
Proof.
  intros env w1.
  assert (Hprep : Main.prepare env false Sample.world0 = (inl tt, w1)) by reflexivity.
  assert (Hdec : Main.DecodeBig env "" = Err "empty hex string") by reflexivity.
  split; [exact Hprep|]. split; [exact Hdec|].
  apply (mine_panics_on_undecodable_status env false Sample.world0 w1
           (Sample.status_proxy None) None None "empty hex string" Hprep);
    [reflexivity | reflexivity | exact Hdec].
Defined.

(** * Further properties *)

(** ** Reading back what the wire primitives wrote *)

Module WireInv.
Import Wire.

Lemma byte_of_Z_of_byte b : byte_of_Z (Z_of_byte b) = b.
Proof.
  unfold byte_of_Z, Z_of_byte.
  pose proof (Byte.to_N_bounded b) as Hb.
  rewrite Z.mod_small by lia.
  rewrite N2Z.id, Byte.of_to_N. reflexivity.
Qed.

Lemma Z_of_byte_range b : 0 <= Z_of_byte b < 256.
Proof. unfold Z_of_byte. pose proof (Byte.to_N_bounded b). lia. Qed.

Lemma be_fold_acc bs acc :
  fold_left (fun a b => a * 256 + Z_of_byte b) bs acc
  = acc * 2 ^ (8 * Z.of_nat (length bs)) + be_value bs.
Proof.
  unfold be_value. revert acc.
  induction bs as [|b bs IH]; intros acc.
  - cbn. lia.
  - cbn [fold_left length]. rewrite IH, (IH (0 * 256 + Z_of_byte b)).
    replace (8 * Z.of_nat (S (length bs))) with (8 + 8 * Z.of_nat (length bs)) by lia.
    rewrite Z.pow_add_r by lia. change (2 ^ 8) with 256. lia.
Qed.

Lemma be_value_cons b bs :
  be_value (b :: bs) = Z_of_byte b * 2 ^ (8 * Z.of_nat (length bs)) + be_value bs.
Proof.
  unfold be_value at 1. cbn [fold_left]. rewrite be_fold_acc. lia.
Qed.

Lemma be_value_range bs : 0 <= be_value bs < 2 ^ (8 * Z.of_nat (length bs)).
Proof.
  induction bs as [|b bs IH].
  - cbn. lia.
  - rewrite be_value_cons. pose proof (Z_of_byte_range b) as Hb.
    replace (8 * Z.of_nat (length (b :: bs))) with (8 + 8 * Z.of_nat (length bs))
      by (cbn [length]; lia).
    rewrite Z.pow_add_r by lia. change (2 ^ 8) with 256.
    assert (0 < 2 ^ (8 * Z.of_nat (length bs))) by (apply Z.pow_pos_nonneg; lia).
    nia.
Qed.

(** The bytes written depend on the low bits only. *)
Lemma be_bytes_high w : forall v a z,
  (w <= v)%nat ->
  be_bytes w (a * 2 ^ (8 * Z.of_nat v) + z) = be_bytes w z.
Proof.
  induction w as [|w IH]; intros v a z Hv; [reflexivity|].
  change (be_bytes (S w) (a * 2 ^ (8 * Z.of_nat v) + z))
    with (byte_of_Z (Z.shiftr (a * 2 ^ (8 * Z.of_nat v) + z) (8 * Z.of_nat w))
          :: be_bytes w (a * 2 ^ (8 * Z.of_nat v) + z)).
  change (be_bytes (S w) z)
    with (byte_of_Z (Z.shiftr z (8 * Z.of_nat w)) :: be_bytes w z).
  rewrite (IH v a z) by lia. f_equal.
  rewrite !Z.shiftr_div_pow2 by lia.
  replace (8 * Z.of_nat v) with (8 + 8 * Z.of_nat (v - S w) + 8 * Z.of_nat w) by lia.
  rewrite !Z.pow_add_r by lia.
  assert (Hp : 0 < 2 ^ (8 * Z.of_nat w)) by (apply Z.pow_pos_nonneg; lia).
  rewrite Z.mul_assoc, Z.div_add_l by lia.
  unfold byte_of_Z. change (2 ^ 8) with 256.
  replace (a * (256 * 2 ^ (8 * Z.of_nat (v - S w))) + z / 2 ^ (8 * Z.of_nat w))
    with (z / 2 ^ (8 * Z.of_nat w) + (a * 2 ^ (8 * Z.of_nat (v - S w))) * 256) by lia.
  rewrite Z.mod_add by lia. reflexivity.
Qed.

Lemma be_bytes_be_value bs : be_bytes (length bs) (be_value bs) = bs.
Proof.
  induction bs as [|b bs IH]; [reflexivity|].
  cbn [length].
  change (be_bytes (S (length bs)) (be_value (b :: bs)))
    with (byte_of_Z (Z.shiftr (be_value (b :: bs)) (8 * Z.of_nat (length bs)))
          :: be_bytes (length bs) (be_value (b :: bs))).
  rewrite be_value_cons at 2.
  rewrite be_bytes_high by lia. rewrite IH. f_equal.
  rewrite be_value_cons, Z.shiftr_div_pow2 by lia.
  pose proof (be_value_range bs) as Hr.
  rewrite Z.div_add_l by lia. rewrite Z.div_small by lia.
  rewrite Z.add_0_r. apply byte_of_Z_of_byte.
Qed.

Lemma read_full_inv n buf bs rest :
  read_full n buf = Ok (bs, rest) -> buf = bs ++ rest /\ length bs = n.
Proof.
  unfold read_full. destruct (Nat.leb_spec n (length buf)) as [Hle|Hlt].
  - intros H. inversion H; subst. split.
    + now rewrite take_drop.
    + rewrite length_take. lia.
  - destruct buf; discriminate.
Qed.

Lemma decode_uint32_inv buf n rest :
  decode_uint32 buf = Ok (n, rest) ->
  buf = be_bytes 4 n ++ rest /\ 0 <= n < 2 ^ 32.
Proof.
  unfold decode_uint32, rbind, rret.
  destruct (read_full 4 buf) as [[bs r]|e] eqn:E; [|discriminate].
  intros H. inversion H; subst.
  apply read_full_inv in E as [-> Hl].
  pose proof (be_value_range bs) as Hr. rewrite Hl in Hr.
  split; [|exact Hr].
  rewrite <- Hl at 1. now rewrite be_bytes_be_value.
Qed.

Lemma int64_range u : - 2 ^ 63 <= int64 u < 2 ^ 63.
Proof.
  unfold int64. pose proof (Z.mod_pos_bound (u + 2 ^ 63) (2 ^ 64) ltac:(lia)). lia.
Qed.

Lemma decode_int64_inv buf t rest :
  decode_int64 buf = Ok (t, rest) ->
  buf = be_bytes 8 t ++ rest /\ - 2 ^ 63 <= t < 2 ^ 63.
Proof.
  unfold decode_int64, rbind, rret.
  destruct (read_full 8 buf) as [[bs r]|e] eqn:E; [|discriminate].
  intros H. inversion H; subst.
  apply read_full_inv in E as [-> Hl].
  split; [|apply int64_range].
  f_equal.
  assert (Hi : int64 (be_value bs)
               = (- ((be_value bs + 2 ^ 63) / 2 ^ 64)) * 2 ^ (8 * Z.of_nat 8) + be_value bs).
  { unfold int64. change (8 * Z.of_nat 8) with 64.
    pose proof (Z.div_mod (be_value bs + 2 ^ 63) (2 ^ 64) ltac:(lia)). lia. }
  rewrite Hi, be_bytes_high by lia.
  rewrite <- Hl. now rewrite be_bytes_be_value.
Qed.

Lemma decodeBytes_inv buf s rest :
  decodeBytes buf = Ok (s, rest) ->
  exists bs, s = Some bs /\ buf = encodeBytes [] s ++ rest /\ fits s.
Proof.
  unfold decodeBytes, rbind, rret, make_from.
  destruct (decode_uint32 buf) as [[n r1]|e] eqn:E1; [|discriminate].
  destruct (read_full (Z.to_nat n) r1) as [[bs r2]|e] eqn:E2; [|discriminate].
  intros H. inversion H; subst.
  apply decode_uint32_inv in E1 as [-> Hn].
  apply read_full_inv in E2 as [-> Hl].
  exists bs. split; [reflexivity|].
  assert (Hlen : len (Some bs) = n) by (unfold len; cbn [elems]; lia).
  split; [|unfold fits; lia].
  unfold encodeBytes, encode_uint32, uint32. rewrite Hlen.
  rewrite Z.mod_small by lia. cbn [elems]. now rewrite app_nil_l, <- app_assoc.
Qed.

Lemma decodeString_inv buf s rest :
  decodeString buf = Ok (s, rest) ->
  buf = encodeString [] s ++ rest /\ fits (Some (list_byte_of_string s)).
Proof.
  unfold decodeString, rbind, rret.
  destruct (decodeBytes buf) as [[bts r]|e] eqn:E; [|discriminate].
  intros H. inversion H; subst.
  apply decodeBytes_inv in E as (bs & -> & -> & Hf).
  cbn [elems]. unfold encodeString.
  rewrite list_byte_of_string_of_list_byte. split; [reflexivity | exact Hf].
Qed.

Lemma repeat_read_inv {A} (enc : A -> list byte) (dec : Reader A) (ok : A -> Prop) :
  (forall buf x rest, dec buf = Ok (x, rest) -> buf = enc x ++ rest /\ ok x) ->
  forall n buf xs rest,
    repeat_read n dec buf = Ok (xs, rest) ->
    length xs = n /\ buf = concat (map enc xs) ++ rest /\ Forall ok xs.
Proof.
  intros Hdec. induction n as [|n IH]; intros buf xs rest H.
  - cbn in H. inversion H; subst. repeat split; auto.
  - cbn [repeat_read] in H. unfold rbind at 1 in H.
    destruct (dec buf) as [[x r1]|e] eqn:E; [|discriminate].
    unfold rbind at 1 in H.
    destruct (repeat_read n dec r1) as [[xs' r2]|e] eqn:E'; [|discriminate].
    inversion H; subst.
    apply Hdec in E as [-> Hx]. apply IH in E' as (Hl & -> & Hall).
    cbn. rewrite Hl, <- app_assoc. repeat split; auto.
Qed.

End WireInv.

(** ** Requests on the wire *)

Section CodecInv.

Context {HR : Runtime}.

Variable Keccak256 : list byte -> list byte.

Lemma decodeKeysValuesAndTime_inv data keys vals t rest :
  decodeKeysValuesAndTime data = Returned (Ok (keys, vals, t, rest)) ->
  exists ks vs,
    keys = Some ks /\ vals = Some vs /\
    data = signedBytes (mkRequest (Some ks) (Some vs) t None) ++ rest /\
    - 2 ^ 63 <= t < 2 ^ 63 /\
    fits (Some ks) /\
    Forall (fun k => fits (Some (list_byte_of_string k))) ks /\
    fits (Some vs) /\
    Forall (fun v => fits v /\ v <> None) vs /\
    can_make sizeof_string (len (Some ks)) = true /\
    can_make sizeof_slice (len (Some vs)) = true.
Proof.
  unfold decodeKeysValuesAndTime, make_from.
  destruct (Wire.decode_int64 data) as [[t0 b1]|e] eqn:E1; [|discriminate].
  destruct (Wire.decode_uint32 b1) as [[n b2]|e] eqn:E2; [|discriminate].
  destruct (can_make sizeof_string n) eqn:M1; [|discriminate]. cbn [negb].
  destruct (Wire.repeat_read (Z.to_nat n) Wire.decodeString b2) as [[ks b3]|e] eqn:E3;
    [|discriminate].
  destruct (Wire.decode_uint32 b3) as [[m b4]|e] eqn:E4; [|discriminate].
  destruct (can_make sizeof_slice m) eqn:M2; [|discriminate]. cbn [negb].
  destruct (Wire.repeat_read (Z.to_nat m) Wire.decodeBytes b4) as [[vs b5]|e] eqn:E5;
    [|discriminate].
  intros H. inversion H; subst. exists ks, vs.
  apply WireInv.decode_int64_inv in E1 as [-> Ht].
  apply WireInv.decode_uint32_inv in E2 as [-> Hn].
  apply WireInv.decode_uint32_inv in E4 as [-> Hm].
  apply (WireInv.repeat_read_inv (Wire.encodeString [])
           Wire.decodeString (fun k => fits (Some (list_byte_of_string k)))) in E3
    as (Hlk & -> & Hks); [|apply WireInv.decodeString_inv].
  apply (WireInv.repeat_read_inv (Wire.encodeBytes [])
           Wire.decodeBytes (fun v => fits v /\ v <> None)) in E5
    as (Hlv & -> & Hvs).
  2:{ intros buf x r Hx. apply WireInv.decodeBytes_inv in Hx as (bs & -> & Hb & Hf).
      repeat split; auto; try discriminate. }
  assert (Hkn : len (Some ks) = n) by (unfold len; cbn [elems]; lia).
  assert (Hvm : len (Some vs) = m) by (unfold len; cbn [elems]; lia).
  rewrite Hkn, Hvm.
  repeat split; auto; try (unfold fits; lia).
  unfold signedBytes. cbn [dbKeys dbValues timestamp elems].
  rewrite Hkn, Hvm. unfold uint32. rewrite !Z.mod_small by lia.
  now rewrite <- !app_assoc.
Qed.

(** What an accepted byte string is made of. *)
Lemma decodeRequest_inv {V} {HV : RequestValidator V} data (validator validator' : V) req :
  decodeRequest Keccak256 data validator = Returned (Ok req, validator') ->
  wellFormed req /\
  received req = req /\
  (exists junk, data = signedBytes req ++ Wire.encodeBytes [] (sig req) ++ junk) /\
  Verify validator (Keccak256 (signedBytes req)) (timestamp req) (sig req)
  = (None, validator') /\
  makes req = true.
Proof.
  unfold decodeRequest.
  destruct (decodeKeysValuesAndTime data) as [[[[[keys vals] t] b1]|e]|] eqn:E1;
    [|discriminate|discriminate].
  apply decodeKeysValuesAndTime_inv in E1
    as (ks & vs & -> & -> & -> & Ht & Hk & Hks & Hv & Hvs & M1 & M2).
  intros H. apply (f_equal (fun x => match x with Returned a => Some a | OutOfMemory => None end)) in H.
  cbv beta iota in H. apply (inj Some) in H. revert H.
  destruct (Z.eqb_spec (len (Some ks)) 0) as [|Hne]; [discriminate|].
  destruct (Wire.decodeBytes b1) as [[sg b2]|e] eqn:E2; [|discriminate].
  apply WireInv.decodeBytes_inv in E2 as (bs & -> & -> & Hs).
  rewrite encodeKeysValuesAndTime_bytes.
  destruct (Verify validator _ t (Some bs)) as [[e|] v'] eqn:Ev; [discriminate|].
  intros H. inversion H; subst. cbn [dbKeys dbValues timestamp sig].
  assert (Hsb : signedBytes (mkRequest (Some ks) (Some vs) t (Some bs))
                = signedBytes (mkRequest (Some ks) (Some vs) t None)) by reflexivity.
  split.
  { unfold wellFormed. cbn [dbKeys dbValues timestamp sig elems].
    destruct ks as [|k ks]; [unfold len in Hne; cbn in Hne; lia|].
    repeat split; eauto; try discriminate; try lia.
    eapply Forall_impl; [exact Hvs|]. now intros v [? ?]. }
  split.
  { assert (Hmap : map allocated vs = vs).
    { clear -Hvs. induction Hvs as [|v vs' [_ Hx] _ IH]; [reflexivity|].
      cbn [map]. rewrite IH. destruct v; [reflexivity | congruence]. }
    unfold received. cbn [dbKeys dbValues timestamp sig elems].
    rewrite Hmap. reflexivity. }
  split.
  { exists b2. rewrite Hsb. reflexivity. }
  split; [rewrite Hsb; exact Ev|].
  unfold makes. cbn [dbKeys dbValues]. now rewrite M1, M2.
Qed.

(** The other way round, with bytes after the signature. *)
Lemma decodeRequest_wire {V} {HV : RequestValidator V} (r : requestPayload)
    (junk : list byte) (validator : V) :
  wellFormed r ->
  decodeRequest Keccak256
    (signedBytes r ++ Wire.encodeBytes [] (sig r) ++ junk) validator
  = (if makes r then
       Returned
         (match Verify validator (Keccak256 (signedBytes r)) (timestamp r)
                  (allocated (sig r)) with
          | (None, validator') => (Ok (received r), validator')
          | (Some err, validator') => (Err err, validator')
          end)
     else OutOfMemory).
Proof.
  intros ((k & keys & Hkeys) & Hsig & Ht & Hk & Hks & Hv & Hvs & Hs).
  unfold decodeRequest.
  assert (Hb : signedBytes r
               = signedBytes (mkRequest (Some (k :: keys)) (dbValues r) (timestamp r) None)).
  { unfold signedBytes. cbn. now rewrite Hkeys. }
  rewrite Hb at 1.
  rewrite Hkeys in Hk, Hks.
  rewrite decodeKeysValuesAndTime_encoded by assumption.
  assert (Hm : makes (mkRequest (Some (k :: keys)) (dbValues r) (timestamp r) None)
               = makes r).
  { unfold makes. cbn. now rewrite Hkeys. }
  rewrite Hm. destruct (makes r); [|reflexivity]. f_equal.
  unfold len at 1. cbn [elems].
  destruct (Z.eqb_spec (Z.of_nat (length (k :: keys))) 0) as [E|_];
    [cbn in E; lia|].
  rewrite WireFacts.decodeBytes_encoded by assumption.
  rewrite encodeKeysValuesAndTime_bytes.
  change (mkRequest (Some (k :: keys)) (Some (map allocated (elems (dbValues r))))
            (timestamp r) None)
    with (mkRequest (Some (k :: keys)) (dbValues (received r)) (timestamp r) None).
  assert (Hb' : signedBytes (mkRequest (Some (k :: keys)) (dbValues (received r))
                               (timestamp r) None) = signedBytes r).
  { rewrite <- (signedBytes_received r). unfold signedBytes. cbn. now rewrite Hkeys. }
  rewrite Hb'.
  unfold received, allocated. rewrite Hkeys. reflexivity.
Qed.

(** X1. Every byte string that [decodeRequest] accepts is the encoding of
    the request it returns, followed by bytes that are ignored: the
    request re-encodes to an initial part of the input. *)
Theorem decodeRequest_canonical {V} {HV : RequestValidator V} data
    (validator validator' : V) req :
  decodeRequest Keccak256 data validator = Returned (Ok req, validator') ->
  exists encoded junk, encodeRequest req = Ok encoded /\ data = encoded ++ junk.
Proof.
  intros H. apply decodeRequest_inv in H as (Hwf & _ & (junk & ->) & _).
  exists (signedBytes req ++ Wire.encodeBytes [] (sig req)), junk.
  split; [now apply encodeRequest_bytes | now rewrite <- app_assoc].
Qed.

(** X2. Every request that [decodeRequest] returns has at least one key, a
    timestamp within [int64], keys, values and signature that are all
    allocated slices (none is nil, not even an empty one), and lengths
    within 32 bits. *)
Theorem decodeRequest_wellFormed {V} {HV : RequestValidator V} data
    (validator validator' : V) req :
  decodeRequest Keccak256 data validator = Returned (Ok req, validator') ->
  (exists k keys, dbKeys req = Some (k :: keys)) /\
  (exists vals, dbValues req = Some vals /\ Forall (fun v => v <> None) vals) /\
  (exists s, sig req = Some s) /\
  - 2 ^ 63 <= timestamp req < 2 ^ 63 /\
  wellFormed req.
Proof.
  intros H. apply decodeRequest_inv in H as (Hwf & Hrec & _ & _).
  pose proof Hwf as (Hk & Hs & Ht & _).
  split; [exact Hk|]. split.
  { rewrite <- Hrec. cbn [received dbValues]. eexists. split; [reflexivity|].
    induction (elems (dbValues req)) as [|v vs IH]; constructor;
      [discriminate | exact IH]. }
  split; [destruct (sig req); [eauto | congruence]|].
  split; [exact Ht | exact Hwf].
Qed.

(** X3. Bytes that follow an encoded request change nothing: the request
    decoded, the hash, timestamp and signature given to the validator, and
    therefore the verdict, are the same. *)
Theorem decodeRequest_trailing_ignored {V} {HV : RequestValidator V}
    (r : requestPayload) data (junk : list byte) (validator : V) :
  wellFormed r ->
  encodeRequest r = Ok data ->
  decodeRequest Keccak256 (data ++ junk) validator
  = decodeRequest Keccak256 data validator.
Proof.
  intros Hwf He.
  assert (Hd : data = signedBytes r ++ Wire.encodeBytes [] (sig r))
    by (rewrite (encodeRequest_bytes r Hwf) in He; congruence).
  subst data.
  rewrite <- app_assoc, decodeRequest_wire by assumption.
  rewrite <- (app_nil_r (Wire.encodeBytes [] (sig r))).
  now rewrite decodeRequest_wire by assumption.
Qed.

(** X4. [encodeRequest] fails exactly on a request without keys (nil or
    empty) or without a signature; nothing else makes it fail, not even
    nil values. *)
Theorem encodeRequest_succeeds_iff (r : requestPayload) :
  (exists data, encodeRequest r = Ok data) <->
  (exists k keys, dbKeys r = Some (k :: keys)) /\ sig r <> None.
Proof.
  unfold encodeRequest. split.
  - intros (data & H).
    destruct (dbKeys r) as [[|k keys]|] eqn:Ek; try discriminate.
    destruct (sig r) eqn:Es; [|discriminate].
    split; [eauto | discriminate].
  - intros ((k & keys & Hk) & Hs). rewrite Hk.
    destruct (sig r) as [s|]; [|congruence].
    cbn [is_nil]. unfold len at 1. cbn [elems length].
    destruct (Z.eqb_spec (Z.of_nat (S (length keys))) 0) as [E|_]; [lia|].
    cbn [orb]. rewrite encodeKeysValuesAndTime_bytes. cbn [res_bind]. eauto.
Qed.

End CodecInv.

(** X5. The encoding tells requests apart: two well-formed requests with
    the same bytes have the same keys, timestamp, value bytes and signature
    bytes (they can differ only in a nil slice against an empty one). *)
Theorem encodeRequest_injective (r1 r2 : requestPayload) data :
  wellFormed r1 -> wellFormed r2 ->
  encodeRequest r1 = Ok data -> encodeRequest r2 = Ok data ->
  received r1 = received r2.
Proof.
  intros H1 H2 E1 E2.
  assert (D1 : signedBytes r1 ++ Wire.encodeBytes [] (sig r1) = data)
    by (rewrite (encodeRequest_bytes r1 H1) in E1; congruence).
  assert (D2 : signedBytes r2 ++ Wire.encodeBytes [] (sig r2) = data)
    by (rewrite (encodeRequest_bytes r2 H2) in E2; congruence).
  pose (HV := {| Verify := fun (v : unit) (_ : list byte) (_ : Z) (_ : slice byte) =>
                             (@None error, v) |}).
  pose (HR := {| available := fun _ => true |}).
  assert (Hm : forall r, makes (HR := HR) r = true).
  { intros r. unfold makes, can_make. cbn [available HR]. now rewrite !orb_true_r. }
  pose proof (decodeRequest_wire (HR := HR) (fun bs => bs) (HV := HV) r1 [] tt H1) as W1.
  pose proof (decodeRequest_wire (HR := HR) (fun bs => bs) (HV := HV) r2 [] tt H2) as W2.
  rewrite app_nil_r, Hm in W1, W2. rewrite D1 in W1. rewrite D2 in W2.
  cbn [Verify HV] in W1, W2. congruence.
Qed.

Lemma decodeRequest_canonical_witness :
  decodeRequest (HR := Sample.machine) (HV := Sample.accept_all) Sample.digest
    (Sample.wire Sample.write1) tt
  = Returned (Ok (received Sample.write1), tt) /\
  exists encoded junk,
    encodeRequest (received Sample.write1) = Ok encoded /\
    Sample.wire Sample.write1 = encoded ++ junk.
Proof.
  assert (H : decodeRequest (HR := Sample.machine) (HV := Sample.accept_all) Sample.digest
                (Sample.wire Sample.write1) tt
              = Returned (Ok (received Sample.write1), tt))
    by (vm_compute; reflexivity).
  split; [exact H|].
  exact (decodeRequest_canonical (HR := Sample.machine) Sample.digest
           (HV := Sample.accept_all) _ _ _ _ H).
Defined.

Lemma decodeRequest_wellFormed_witness :
  decodeRequest (HR := Sample.machine) (HV := Sample.accept_all) Sample.digest
    (Sample.wire Sample.read1) tt
  = Returned (Ok (received Sample.read1), tt) /\
  wellFormed (received Sample.read1).
Proof.
  assert (H : decodeRequest (HR := Sample.machine) (HV := Sample.accept_all) Sample.digest
                (Sample.wire Sample.read1) tt
              = Returned (Ok (received Sample.read1), tt))
    by (vm_compute; reflexivity).
  split; [exact H|].
  exact (proj2 (proj2 (proj2 (proj2
    (decodeRequest_wellFormed (HR := Sample.machine) Sample.digest
       (HV := Sample.accept_all) _ _ _ _ H))))).
Defined.

Lemma decodeRequest_trailing_ignored_witness :
  wellFormed Sample.write1 /\
  encodeRequest Sample.write1 = Ok (Sample.wire Sample.write1) /\
  decodeRequest (HR := Sample.machine) (HV := Sample.accept_all) Sample.digest
    (Sample.wire Sample.write1 ++ ["255"%byte; "000"%byte]) tt
  = decodeRequest (HR := Sample.machine) (HV := Sample.accept_all) Sample.digest
      (Sample.wire Sample.write1) tt.
Proof.
  assert (Hwf : wellFormed Sample.write1) by solve_wellFormed.
  assert (He : encodeRequest Sample.write1 = Ok (Sample.wire Sample.write1))
    by (vm_compute; reflexivity).
  split; [exact Hwf|]. split; [exact He|].
  exact (decodeRequest_trailing_ignored (HR := Sample.machine) Sample.digest
           (HV := Sample.accept_all) Sample.write1 _ _ tt Hwf He).
Defined.

Lemma encodeRequest_injective_witness :
  wellFormed Sample.read1 /\
  wellFormed (received Sample.read1) /\
  encodeRequest Sample.read1 = Ok (Sample.wire Sample.read1) /\
  encodeRequest (received Sample.read1) = Ok (Sample.wire Sample.read1) /\
  received Sample.read1 = received (received Sample.read1).
Proof.
  assert (H1 : wellFormed Sample.read1) by solve_wellFormed.
  assert (H2 : wellFormed (received Sample.read1)) by solve_wellFormed.
  assert (E1 : encodeRequest Sample.read1 = Ok (Sample.wire Sample.read1))
    by (vm_compute; reflexivity).
  assert (E2 : encodeRequest (received Sample.read1) = Ok (Sample.wire Sample.read1))
    by (vm_compute; reflexivity).
  repeat (split; [assumption|]).
  exact (encodeRequest_injective Sample.read1 (received Sample.read1) _ H1 H2 E1 E2).
Defined.

(** ** More on the data-server side *)

Section ServeFacts.

Context {C D : Type} {HD : DB D}.

Variable known : string -> bool.

Lemma set_localDB_same (i : remoteImpl C D) db :
  localDB i = Some db -> set_localDB i db = i.
Proof. destruct i; cbn. now intros ->. Qed.

Lemma writeLoop_all (i : remoteImpl C D) values :
  forall keys idx db db',
    Forall (fun k => hasAddressPrefix i k = true) keys ->
    (idx + length keys <= length values)%nat ->
    putAll (zip keys (drop idx values)) db = Ok db' ->
    writeLoop i idx keys values db = Written db'.
Proof.
  induction keys as [|k keys IH]; intros idx db db' Hall Hlen Hput.
  - cbn in Hput. now inversion Hput.
  - inversion Hall as [|? ? Hp Hall']; subst. cbn [length] in Hlen.
    destruct (values !! idx) as [v|] eqn:Ev.
    2:{ apply lookup_ge_None in Ev. lia. }
    rewrite (drop_S _ _ _ Ev) in Hput. cbn in Hput.
    cbn [writeLoop]. rewrite Hp, Ev. cbn [negb].
    destruct (Put db k v) as [db1|e]; [|discriminate].
    apply IH; auto. lia.
Qed.

Lemma serveRequest_responds (i : remoteImpl C D) req :
  exists r, fst (serveRequest known i req) = Responded r.
Proof.
  unfold serveRequest.
  destruct (is_nil (dbKeys req)); [eauto|].
  destruct (localDB i) as [db|]; [|eauto].
  destruct (negb (is_nil (dbValues req)) && (len (dbValues req) >? 0)).
  - destruct (Z.eqb_spec (len (dbKeys req)) (len (dbValues req))) as [Hl|Hl];
      cbn [negb]; [|eauto].
    unfold len in Hl.
    destruct (writeLoop_inv i (elems (dbValues req)) (elems (dbKeys req)) 0%nat db)
      as (j & db' & _ & _ & _ & [(_ & ->) | (k & msg & _ & -> & _)]); [lia| |eauto].
    destruct (readLoop known _ _ db' ∅); eauto.
  - destruct (readLoop known _ _ db ∅); eauto.
Qed.

Lemma serveRequest_keeps (i : remoteImpl C D) req :
  whitelist (snd (serveRequest known i req)) = whitelist i /\
  wlHistory (snd (serveRequest known i req)) = wlHistory i.
Proof.
  unfold serveRequest.
  destruct (is_nil (dbKeys req)); [auto|].
  destruct (localDB i) as [db|]; [|auto].
  match goal with |- context [match ?w with Written _ => _ | _ => _ end] =>
    destruct w as [db'|msg db'|msg db'] end; cbn; auto.
  destruct (readLoop known _ _ db' ∅); cbn; auto.
Qed.

(** *** What a served request returns *)

Lemma readLoop_lookup (db : D) (g : string -> option (list byte)) :
  forall keys outMap,
    (forall k, k ∈ keys -> Get db k = Ok (g k)) ->
    exists m,
      readLoop known false keys db outMap = Ok m /\
      forall k, m !! k = if bool_decide (k ∈ keys)
                         then match g k with Some b => Some b | None => outMap !! k end
                         else outMap !! k.
Proof.
  induction keys as [|k0 keys IH]; intros outMap Hget.
  - exists outMap. split; [reflexivity|]. intros k.
    rewrite bool_decide_eq_false_2; [reflexivity | apply not_elem_of_nil].
  - cbn [readLoop andb]. rewrite (Hget k0 (list_elem_of_here _ _)).
    assert (Hget' : forall k, k ∈ keys -> Get db k = Ok (g k))
      by (intros k Hk; apply Hget; now apply list_elem_of_further).
    destruct (g k0) as [b|] eqn:Eg.
    + destruct (IH (<[k0 := b]> outMap) Hget') as (m & -> & Hm).
      exists m. split; [reflexivity|]. intros k. rewrite Hm.
      destruct (decide (k = k0)) as [->|Hne].
      * rewrite (bool_decide_eq_true_2 (k0 ∈ k0 :: keys)) by apply list_elem_of_here.
        rewrite Eg, lookup_insert_eq. now destruct (bool_decide (k0 ∈ keys)).
      * rewrite lookup_insert_ne by congruence.
        destruct (bool_decide_reflect (k ∈ keys)) as [Hin|Hnin].
        -- rewrite bool_decide_eq_true_2; [reflexivity | now apply list_elem_of_further].
        -- rewrite bool_decide_eq_false_2; [reflexivity|].
           rewrite elem_of_cons. tauto.
    + destruct (IH outMap Hget') as (m & -> & Hm).
      exists m. split; [reflexivity|]. intros k. rewrite Hm.
      destruct (decide (k = k0)) as [->|Hne].
      * rewrite (bool_decide_eq_true_2 (k0 ∈ k0 :: keys)) by apply list_elem_of_here.
        rewrite Eg. now destruct (bool_decide (k0 ∈ keys)).
      * destruct (bool_decide_reflect (k ∈ keys)) as [Hin|Hnin].
        -- rewrite bool_decide_eq_true_2; [reflexivity | now apply list_elem_of_further].
        -- rewrite bool_decide_eq_false_2; [reflexivity|].
           rewrite elem_of_cons. tauto.
Qed.

(** X6. A decoded request without values (a read) whose lookups succeed
    is answered, without error, by exactly the requested keys that the
    store holds, each with its stored value: a requested key that is
    absent from the store is absent from the response, and so is every key
    that was not requested. *)
Theorem read_returns_stored (i : remoteImpl C D) req db keys
    (g : string -> option (list byte)) :
  localDB i = Some db ->
  dbKeys req = Some keys ->
  dbValues req = Some [] ->
  (forall k, k ∈ keys -> Get db k = Ok (g k)) ->
  exists m,
    serveRequest known i req = (Responded (mkResponse m ""), i) /\
    forall k, m !! k = if bool_decide (k ∈ keys) then g k else None.
Proof.
  intros Hdb Hk Hv Hget. unfold serveRequest.
  rewrite Hk, Hv, Hdb. cbn [is_nil negb andb elems].
  change (len (Some (@nil (slice byte))) >? 0) with false. cbv iota.
  destruct (readLoop_lookup db g keys ∅ Hget) as (m & -> & Hm).
  exists m. rewrite (set_localDB_same i db Hdb). split; [reflexivity|].
  intros k. rewrite Hm, lookup_empty. now destruct (g k), (bool_decide (k ∈ keys)).
Qed.

Lemma serveRequest_write_all (i : remoteImpl C D) req db db' keys vals :
  localDB i = Some db ->
  dbKeys req = Some keys ->
  dbValues req = Some vals ->
  vals <> [] ->
  length keys = length vals ->
  Forall (fun k => hasAddressPrefix i k = true) keys ->
  putAll (zip keys vals) db = Ok db' ->
  serveRequest known i req
  = (match readLoop known false keys db' ∅ with
     | Ok outMap => Responded (mkResponse outMap "")
     | Err err => Responded (errorResponse err)
     end, set_localDB i db').
Proof.
  intros Hdb Hk Hv Hne Hlen Hall Hput. unfold serveRequest.
  rewrite Hk, Hv, Hdb. cbn [is_nil negb andb elems].
  assert (Hpos : (len (Some vals) >? 0) = true).
  { unfold len. cbn [elems]. destruct vals; [congruence | reflexivity]. }
  assert (Heq : (len (Some keys) =? len (Some vals)) = true).
  { unfold len. cbn [elems]. rewrite Hlen. apply Z.eqb_refl. }
  rewrite Hpos, Heq. cbn [negb].
  rewrite (writeLoop_all i vals keys 0%nat db db'); auto; [|lia].
  destruct (readLoop known false keys db' ∅); reflexivity.
Qed.

(** X7. A write whose keys all begin with a whitelisted address and whose
    [Put]s all succeed writes every pair, in order, and then answers from
    the store as the writes left it: the response is the read-back of the
    request's keys. *)
Theorem write_all_then_read_back (i : remoteImpl C D) req db db' keys vals :
  localDB i = Some db ->
  dbKeys req = Some keys ->
  dbValues req = Some vals ->
  vals <> [] ->
  length keys = length vals ->
  Forall (fun k => hasAddressPrefix i k = true) keys ->
  putAll (zip keys vals) db = Ok db' ->
  serveRequest known i req
  = (match readLoop known false keys db' ∅ with
     | Ok outMap => Responded (mkResponse outMap "")
     | Err err => Responded (errorResponse err)
     end, set_localDB i db').
Proof. apply serveRequest_write_all. Qed.

(** X8. A request with values whose number differs from the number of
    keys is refused before anything is written. *)
Theorem mismatched_write_refused (i : remoteImpl C D) req db keys vals :
  localDB i = Some db ->
  dbKeys req = Some keys ->
  dbValues req = Some vals ->
  vals <> [] ->
  length keys <> length vals ->
  serveRequest known i req
  = (Responded (errorResponse "Keys and values must have the same array dimensions"), i).
Proof.
  intros Hdb Hk Hv Hne Hlen. unfold serveRequest.
  rewrite Hk, Hv, Hdb. cbn [is_nil negb andb elems].
  assert (Hpos : (len (Some vals) >? 0) = true).
  { unfold len. cbn [elems]. destruct vals; [congruence | reflexivity]. }
  rewrite Hpos.
  destruct (Z.eqb_spec (len (Some keys)) (len (Some vals))) as [E|_].
  { unfold len in E. cbn [elems] in E. lia. }
  cbn [negb]. now rewrite (set_localDB_same i db Hdb).
Qed.

End ServeFacts.

(** *** The instant a signed request expires *)

Lemma int64_small z : - 2 ^ 63 <= z < 2 ^ 63 -> int64 z = z.
Proof.
  intros Hz. unfold int64. rewrite Z.mod_small; lia.
Qed.




Section ServerFacts.

Context {HR : Runtime}.
Context {C D PubKey : Type} {HC : History C} {HD : DB D} {HK : Crypto PubKey}.

Variable Keccak256 : list byte -> list byte.
Variable known : string -> bool.


Lemma remote_Verify_refused now (i i' : remoteImpl C D) hash ts sg e :
  remote_Verify now i hash ts sg = (Some e, i') -> i' = i.
Proof.
  unfold remote_Verify.
  destruct (SigToPub hash sg) as [pub|e0]; [|now inversion 1].
  destruct (negb (default false (whitelist i !! addressHex pub))); [now inversion 1|].
  destruct (wlHistory i !! addressHex pub) as [cache|]; [|now inversion 1].
  destruct (Contains cache ts); [destruct (After now _)|]; now inversion 1.
Qed.

Lemma remote_Verify_accepts now (i : remoteImpl C D) hash ts sg pub cache :
  SigToPub hash sg = Ok pub ->
  whitelist i !! addressHex pub = Some true ->
  wlHistory i !! addressHex pub = Some cache ->
  (Contains cache ts = true ->
   After now (time_Unix (int64 (ts + _validityThreshold)) 0) = false) ->
  remote_Verify now i hash ts sg
  = (None, mkRemote (localDB i) (whitelist i)
             (<[addressHex pub := Add cache ts]> (wlHistory i))).
Proof.
  intros Hs Hw Hh Hfresh. unfold remote_Verify. rewrite Hs, Hw, Hh. cbn [default negb].
  destruct (Contains cache ts); [rewrite Hfresh|]; reflexivity.
Qed.

Lemma decodeRequest_refused now (i i' : remoteImpl C D) data e :
  decodeRequest (HV := remote_validator now) Keccak256 data i = Returned (Err e, i') ->
  i' = i.
Proof.
  unfold decodeRequest.
  destruct (decodeKeysValuesAndTime data) as [[[[[keys vals] t] b1]|e0]|];
    [|now inversion 1|discriminate].
  intros H. apply (f_equal (fun x => match x with Returned a => Some a | OutOfMemory => None end)) in H.
  cbv beta iota in H. apply (inj Some) in H. revert H.
  destruct (len keys =? 0); [now inversion 1|].
  destruct (Wire.decodeBytes b1) as [[sg b2]|e0]; [|now inversion 1].
  destruct (encodeKeysValuesAndTime [] keys vals t) as [h|e0]; [|now inversion 1].
  cbn [Verify remote_validator].
  destruct (remote_Verify now i (Keccak256 h) t sg) as [[e0|] i0] eqn:Ev;
    [|discriminate].
  intros H. inversion H; subst. eapply remote_Verify_refused; eauto.
Qed.

Lemma IncomingRequest_refused now (i i' : remoteImpl C D) data e :
  decodeRequest (HV := remote_validator now) Keccak256 data i = Returned (Err e, i') ->
  IncomingRequest Keccak256 known now i data = (Responded (errorResponse e), i).
Proof.
  intros H. unfold IncomingRequest. rewrite H.
  now rewrite (decodeRequest_refused _ _ _ _ _ H).
Qed.

(** The process ends in [decodeRequest] exactly when it ends in
    [decodeKeysValuesAndTime]. *)
Lemma decodeRequest_OutOfMemory {V} {HV : RequestValidator V} data (validator : V) :
  decodeRequest Keccak256 data validator = OutOfMemory <->
  decodeKeysValuesAndTime data = OutOfMemory.
Proof.
  unfold decodeRequest.
  destruct (decodeKeysValuesAndTime data) as [[[[[keys vals] t] b1]|e0]|];
    split; try discriminate; reflexivity.
Qed.

(** A body that announces more keys than the runtime has memory for. *)
Lemma decodeKeysValuesAndTime_oversized t n rest :
  - 2 ^ 63 <= t < 2 ^ 63 -> 0 <= n < 2 ^ 32 ->
  can_make sizeof_string n = false ->
  decodeKeysValuesAndTime (Wire.be_bytes 8 t ++ Wire.be_bytes 4 n ++ rest) = OutOfMemory.
Proof.
  intros Ht Hn Hm. unfold decodeKeysValuesAndTime.
  rewrite WireFacts.decode_int64_encoded by assumption.
  rewrite WireFacts.decode_uint32_encoded by assumption.
  now rewrite Hm.
Qed.

(** X9. [IncomingRequest] never panics: the index into the values in the
    write loop is in range whenever the loop is entered. It does not
    answer every body, though: when [decodeKeysValuesAndTime] asks for a
    slice of a size, read from the body, for which there is no memory, the
    runtime ends the process. This happens before the signature is looked
    at, whoever sent the body and whatever the state of the server: it is
    enough that the body begins with a timestamp and a count of keys that
    the runtime cannot provide. *)
Theorem IncomingRequest_never_panics now (i : remoteImpl C D) data :
  (forall msg, fst (IncomingRequest Keccak256 known now i data) <> Panicked msg) /\
  (decodeKeysValuesAndTime data = OutOfMemory ->
   IncomingRequest Keccak256 known now i data = (Fatal "runtime: out of memory", i)) /\
  (forall t n rest,
     - 2 ^ 63 <= t < 2 ^ 63 -> 0 <= n < 2 ^ 32 ->
     can_make sizeof_string n = false ->
     IncomingRequest Keccak256 known now i
       (Wire.be_bytes 8 t ++ Wire.be_bytes 4 n ++ rest)
     = (Fatal "runtime: out of memory", i)).
Proof.
  assert (Hoom : forall body, decodeKeysValuesAndTime body = OutOfMemory ->
            IncomingRequest Keccak256 known now i body
            = (Fatal "runtime: out of memory", i)).
  { intros body Hm. unfold IncomingRequest.
    apply (proj2 (decodeRequest_OutOfMemory (HV := remote_validator now) body i)) in Hm.
    now rewrite Hm. }
  split; [|split; [apply Hoom|]].
  - intros msg. unfold IncomingRequest.
    destruct (decodeRequest Keccak256 data i) as [[[req|e] i1]|]; try discriminate.
    destruct (serveRequest_responds known i1 req) as (r & ->). discriminate.
  - intros t n rest Ht Hn Hm. apply Hoom.
    now apply decodeKeysValuesAndTime_oversized.
Qed.

(** X10. A request for which [decodeRequest] returns an error (the body
    does not decode, or [Verify] refuses it) is answered with that error
    and leaves the server as it was: the store, the whitelist and every
    history. *)
Theorem refused_request_changes_nothing now (i i' : remoteImpl C D) data e :
  decodeRequest (HV := remote_validator now) Keccak256 data i = Returned (Err e, i') ->
  IncomingRequest Keccak256 known now i data = (Responded (errorResponse e), i).
Proof.
  intros H. unfold IncomingRequest. rewrite H.
  now rewrite (decodeRequest_refused _ _ _ _ _ H).
Qed.

(** X11. Whatever the request, [IncomingRequest] leaves the whitelist as it
    is, and no address gains or loses its history. *)
Theorem IncomingRequest_keeps_whitelist now (i : remoteImpl C D) data :
  whitelist (snd (IncomingRequest Keccak256 known now i data)) = whitelist i /\
  forall a, is_Some (wlHistory (snd (IncomingRequest Keccak256 known now i data)) !! a)
            <-> is_Some (wlHistory i !! a).
Proof.
  unfold IncomingRequest.
  destruct (decodeRequest Keccak256 data i) as [[[req|e] i1]|] eqn:Ed.
  3:{ cbn. split; [reflexivity | tauto]. }
  - apply decodeRequest_inv in Ed as (_ & _ & _ & Hv & _).
    cbn [Verify remote_validator] in Hv.
    apply Verify_inversion in Hv as (pub & cache & _ & _ & Hh & _ & ->).
    destruct (serveRequest_keeps known (mkRemote (localDB i) (whitelist i)
                (<[addressHex pub := Add cache (timestamp req)]> (wlHistory i))) req)
      as [-> ->].
    cbn. split; [reflexivity|]. intros a.
    destruct (decide (addressHex pub = a)) as [<-|Hne].
    + rewrite lookup_insert_eq, Hh. split; eauto.
    + now rewrite lookup_insert_ne.
  - apply decodeRequest_refused in Ed as ->. cbn. split; [reflexivity | tauto].
Qed.

(** X12. A request that carries no values never changes the store. *)
Theorem read_leaves_store now (i i1 : remoteImpl C D) data req :
  decodeRequest (HV := remote_validator now) Keccak256 data i = Returned (Ok req, i1) ->
  len (dbValues req) = 0 ->
  localDB (snd (IncomingRequest Keccak256 known now i data)) = localDB i.
Proof.
  intros Hd Hz. unfold IncomingRequest. rewrite Hd.
  assert (Hl : localDB i1 = localDB i).
  { apply decodeRequest_inv in Hd as (_ & _ & _ & Hv & _).
    cbn [Verify remote_validator] in Hv.
    now apply Verify_inversion in Hv as (pub & cache & _ & _ & _ & _ & ->). }
  unfold serveRequest. rewrite Hz. cbn [Z.gtb Z.compare]. rewrite andb_false_r.
  destruct (is_nil (dbKeys req)); [exact Hl|].
  destruct (localDB i1) as [db|] eqn:E; [|now rewrite <- Hl].
  destruct (readLoop known _ _ db ∅); cbn; exact Hl.
Qed.

(** X13. Once a request has been accepted, the same bytes delivered after
    its validity has run out (the clock past the instant
    [time.Unix(timestamp + 2, 0)]) are refused with "Request expired" and
    change nothing, provided the history still holds what was added to
    it. *)
Theorem replay_after_window_refused now1 now2 (i i1 : remoteImpl C D) data req :
  (forall (c : C) k, Contains (Add c k) k = true) ->
  decodeRequest (HV := remote_validator now1) Keccak256 data i = Returned (Ok req, i1) ->
  After now2 (time_Unix (int64 (timestamp req + _validityThreshold)) 0) = true ->
  let i2 := snd (IncomingRequest Keccak256 known now1 i data) in
  IncomingRequest Keccak256 known now2 i2 data
  = (Responded (errorResponse "Request expired"), i2).
Proof.
  intros Hlaw Hd Hafter i2.
  assert (Hi2 : whitelist i2 = whitelist i1 /\ wlHistory i2 = wlHistory i1).
  { unfold i2, IncomingRequest. rewrite Hd. apply serveRequest_keeps. }
  destruct Hi2 as [Hw2 Hh2].
  pose proof Hd as Hd'.
  apply decodeRequest_inv in Hd' as (Hwf & Hrec & (junk & Hdata) & Hv & Hmk).
  cbn [Verify remote_validator] in Hv.
  apply Verify_inversion in Hv as (pub & cache & Hs & Hw & Hh & _ & Hi1).
  apply IncomingRequest_refused with (i' := i2).
  rewrite Hdata.
  rewrite (decodeRequest_wire Keccak256 (HV := remote_validator now2) req junk i2 Hwf).
  rewrite Hmk. f_equal.
  assert (Hsig : allocated (sig req) = sig req) by (now rewrite <- Hrec at 2).
  rewrite Hsig. cbn [Verify remote_validator]. unfold remote_Verify.
  rewrite Hs, Hw2, Hh2, Hi1. cbn [whitelist wlHistory].
  rewrite Hw, lookup_insert_eq. cbn [default negb].
  now rewrite Hlaw, Hafter.
Qed.

(** X14. A well-formed request whose signature recovers to an address that
    the whitelist does not hold as [true] is answered with "Unauthorized",
    and nothing changes; this once the runtime has provided the slices for
    its keys and values, without which the process ends. *)
Theorem unauthorized_refused now (i : remoteImpl C D) (r : requestPayload) data pub :
  wellFormed r ->
  encodeRequest r = Ok data ->
  SigToPub (Keccak256 (signedBytes r)) (allocated (sig r)) = Ok pub ->
  whitelist i !! addressHex pub <> Some true ->
  IncomingRequest Keccak256 known now i data
  = (if makes r then Responded (errorResponse "Unauthorized")
     else Fatal "runtime: out of memory", i).
Proof.
  intros Hwf He Hs Hw.
  assert (Hd : data = signedBytes r ++ Wire.encodeBytes [] (sig r) ++ [])
    by (rewrite app_nil_r; rewrite (encodeRequest_bytes r Hwf) in He; congruence).
  pose proof (decodeRequest_wire Keccak256 (HV := remote_validator now) r [] i Hwf) as Hw'.
  rewrite <- Hd in Hw'.
  destruct (makes r).
  - apply IncomingRequest_refused with (i' := i). rewrite Hw'. f_equal.
    cbn [Verify remote_validator]. unfold remote_Verify. rewrite Hs.
    destruct (whitelist i !! addressHex pub) as [[|]|]; [congruence | reflexivity..].
  - unfold IncomingRequest. now rewrite Hw'.
Qed.


End ServerFacts.

(** *** Concrete runs for the properties above *)

(** A call that returned a pair whose first component is known. *)
Lemma Returned_pair {A B : Type} (x : run (A * B)) (a : A) :
  match x with Returned (a', _) => a' = a | OutOfMemory => False end ->
  exists b, x = Returned (a, b).
Proof.
  destruct x as [[a' b]|]; [|tauto]. intros ->. now exists b.
Defined.

(** A body of twelve bytes that announces [2^32 - 1] keys. *)
Lemma IncomingRequest_never_panics_witness :
  can_make (HR := Sample.machine) sizeof_string (2 ^ 32 - 1) = false /\
  length (Wire.be_bytes 8 1000 ++ Wire.be_bytes 4 (2 ^ 32 - 1) ++ []) = 12%nat /\
  Sample.handle Sample.t1000 Sample.server0
    (Wire.be_bytes 8 1000 ++ Wire.be_bytes 4 (2 ^ 32 - 1) ++ [])
  = (Fatal "runtime: out of memory", Sample.server0).
Proof.
  assert (Hm : can_make (HR := Sample.machine) sizeof_string (2 ^ 32 - 1) = false)
    by (vm_compute; reflexivity).
  split; [exact Hm|]. split; [vm_compute; reflexivity|].
  apply (IncomingRequest_never_panics (HR := Sample.machine)
           (HC := Sample.recent_history) (HD := Sample.map_store)
           (HK := Sample.address_crypto) Sample.digest Sample.knownKeys
           Sample.t1000 Sample.server0 []);
    [lia | lia | exact Hm].
Defined.

(** An empty body does not decode. *)
Lemma refused_request_changes_nothing_witness :
  Sample2.decode Sample.t1000 [] Sample.server0 = Returned (Err "EOF", Sample.server0) /\
  Sample.handle Sample.t1000 Sample.server0 []
  = (Responded (errorResponse "EOF"), Sample.server0).
Proof.
  assert (H : Sample2.decode Sample.t1000 [] Sample.server0
              = Returned (Err "EOF", Sample.server0))
    by reflexivity.
  split; [exact H|].
  exact (refused_request_changes_nothing (HR := Sample.machine)
           (HC := Sample.recent_history)
           (HD := Sample.map_store) (HK := Sample.address_crypto)
           Sample.digest Sample.knownKeys Sample.t1000 _ _ _ _ H).
Defined.

(** A read of [minerA] at a server whose store holds one key. *)
Lemma read_leaves_store_witness :
  (exists i1, Sample2.decode Sample.t1000 (Sample.wire Sample.read1) Sample.server1
              = Returned (Ok Sample2.readDecoded, i1)) /\
  len (dbValues Sample2.readDecoded) = 0 /\
  localDB (snd (Sample.handle Sample.t1000 Sample.server1 (Sample.wire Sample.read1)))
  = localDB Sample.server1.
Proof.
  destruct (Returned_pair
              (Sample2.decode Sample.t1000 (Sample.wire Sample.read1) Sample.server1)
              (Ok Sample2.readDecoded)) as (i1 & Hd); [vm_compute; reflexivity|].
  split; [exists i1; exact Hd|]. split; [reflexivity|].
  exact (read_leaves_store (HR := Sample.machine) (HC := Sample.recent_history)
           (HD := Sample.map_store)
           (HK := Sample.address_crypto) Sample.digest Sample.knownKeys Sample.t1000
           Sample.server1 i1 (Sample.wire Sample.read1) Sample2.readDecoded Hd eq_refl).
Defined.

Lemma recent_history_law (c : list Z) (k : Z) :
  Contains (History := Sample.recent_history) (Add (History := Sample.recent_history) c k) k
  = true.
Proof. cbn. apply bool_decide_eq_true_2. apply list_elem_of_here. Qed.

(** The write of [minerA], accepted at second 1000 and sent again at
    second 1003. *)
Lemma replay_after_window_refused_witness :
  (exists i1, Sample2.decode Sample.t1000 (Sample.wire Sample.write1) Sample.server0
              = Returned (Ok (received Sample.write1), i1)) /\
  After Sample.t1003 (time_Unix (int64 (1000 + _validityThreshold)) 0) = true /\
  let i2 := snd (Sample.handle Sample.t1000 Sample.server0 (Sample.wire Sample.write1)) in
  Sample.handle Sample.t1003 i2 (Sample.wire Sample.write1)
  = (Responded (errorResponse "Request expired"), i2).
Proof.
  destruct (Returned_pair
              (Sample2.decode Sample.t1000 (Sample.wire Sample.write1) Sample.server0)
              (Ok (received Sample.write1))) as (i1 & Hd); [vm_compute; reflexivity|].
  split; [exists i1; exact Hd|]. split; [reflexivity|].
  exact (replay_after_window_refused (HR := Sample.machine) (HC := Sample.recent_history)
           (HD := Sample.map_store) (HK := Sample.address_crypto)
           Sample.digest Sample.knownKeys Sample.t1000 Sample.t1003 Sample.server0
           i1 (Sample.wire Sample.write1) (received Sample.write1) recent_history_law
           Hd eq_refl).
Defined.


(** [minerB] writes to a server that whitelists [minerA] only. *)
Lemma unauthorized_refused_witness :
  wellFormed Sample2.writeByB /\
  encodeRequest Sample2.writeByB = Ok (Sample.wire Sample2.writeByB) /\
  whitelist Sample2.serverA !! Sample.minerB = None /\
  IncomingRequest (HR := Sample.machine) (HC := Sample.recent_history)
    (HD := Sample.map_store)
    (HK := Sample.address_crypto) Sample.digest Sample.knownKeys Sample.t1000
    Sample2.serverA (Sample.wire Sample2.writeByB)
  = (Responded (errorResponse "Unauthorized"), Sample2.serverA).
Proof.
  assert (Hwf : wellFormed Sample2.writeByB) by solve_wellFormed.
  assert (He : encodeRequest Sample2.writeByB = Ok (Sample.wire Sample2.writeByB))
    by (vm_compute; reflexivity).
  assert (Hw : whitelist Sample2.serverA !! Sample.minerB = None)
    by (vm_compute; reflexivity).
  split; [exact Hwf|]. split; [exact He|]. split; [exact Hw|].
  rewrite (unauthorized_refused (HR := Sample.machine) (HC := Sample.recent_history)
             (HD := Sample.map_store)
             (HK := Sample.address_crypto) Sample.digest Sample.knownKeys Sample.t1000
             Sample2.serverA Sample2.writeByB _ Sample.minerB Hwf He);
    [reflexivity | reflexivity |].
  change (addressHex (Crypto := Sample.address_crypto) Sample.minerB) with Sample.minerB.
  rewrite Hw. discriminate.
Defined.

(** A decoded read of a stored key. *)
Lemma read_returns_stored_witness :
  localDB Sample.server1 = Some {[ "privateNotes" := ["042"%byte] ]} /\
  dbKeys Sample2.readDecoded = Some ["privateNotes"] /\
  dbValues Sample2.readDecoded = Some [] /\
  exists m,
    Sample.serve Sample.server1 Sample2.readDecoded
    = (Responded (mkResponse m ""), Sample.server1) /\
    m !! "privateNotes" = Some ["042"%byte] /\
    m !! "disputeStatus" = None.
Proof.
  repeat (split; [reflexivity|]).
  destruct (read_returns_stored (HD := Sample.map_store) Sample.knownKeys
              Sample.server1 Sample2.readDecoded
              {[ "privateNotes" := ["042"%byte] ]} ["privateNotes"]
              (fun k => ({[ "privateNotes" := ["042"%byte] ]} : gmap string (list byte)) !! k)
              eq_refl eq_refl eq_refl (fun k _ => eq_refl))
    as (m & Hrun & Hm).
  exists m. split; [exact Hrun|].
  split; rewrite Hm; vm_compute; reflexivity.
Defined.

(** The write of [minerA]: one pair, written and read back. *)
Lemma write_all_then_read_back_witness :
  hasAddressPrefix Sample.server0 Sample.keyA = true /\
  putAll (HD := Sample.map_store) [(Sample.keyA, Some ["001"%byte])] ∅
  = Ok (<[ Sample.keyA := ["001"%byte] ]> ∅) /\
  Sample.serve Sample.server0 Sample.write1
  = (match readLoop (HD := Sample.map_store) Sample.knownKeys false [Sample.keyA]
             (<[ Sample.keyA := ["001"%byte] ]> ∅) ∅ with
     | Ok outMap => Responded (mkResponse outMap "")
     | Err err => Responded (errorResponse err)
     end, set_localDB Sample.server0 (<[ Sample.keyA := ["001"%byte] ]> ∅)).
Proof.
  assert (Hp : hasAddressPrefix Sample.server0 Sample.keyA = true)
    by (vm_compute; reflexivity).
  split; [exact Hp|]. split; [reflexivity|].
  apply (write_all_then_read_back (HD := Sample.map_store) Sample.knownKeys
           Sample.server0 Sample.write1 ∅ (<[ Sample.keyA := ["001"%byte] ]> ∅)
           [Sample.keyA] [Some ["001"%byte]]);
    try reflexivity; [discriminate|].
  constructor; [exact Hp | constructor].
Defined.

(** One key against two values. *)
Lemma mismatched_write_refused_witness :
  length (elems (dbKeys Sample2.writeMismatch)) = 1%nat /\
  length (elems (dbValues Sample2.writeMismatch)) = 2%nat /\
  Sample.serve Sample.server0 Sample2.writeMismatch
  = (Responded (errorResponse "Keys and values must have the same array dimensions"),
     Sample.server0).
Proof.
  repeat (split; [reflexivity|]).
  apply (mismatched_write_refused (HD := Sample.map_store) Sample.knownKeys
           Sample.server0 Sample2.writeMismatch ∅
           [Sample.keyA] [Some ["001"%byte]; Some ["002"%byte]]);
    try reflexivity; [discriminate | cbn; lia].
Defined.

(** ** The client side of the proxy *)

Lemma HasPrefix_append (a s : string) : HasPrefix (String.append a s) a = true.
Proof.
  induction a as [|c a IH]; [now destruct s|].
  change (String.append (String c a) s) with (String c (String.append a s)).
  change (HasPrefix (String c (String.append a s)) (String c a))
    with (if Ascii.eqb c c then HasPrefix (String.append a s) a else false).
  now rewrite Ascii.eqb_refl.
Qed.

Section ClientFacts.

Context {HR : Runtime}.
Context {S : Type} {HS : RequestSigner S}.

Variable Keccak256 : list byte -> list byte.

Lemma HasPrefix_prefixedKey (c : remoteClient S) k :
  HasPrefix (prefixedKey c k) (publicAddress c) = true.
Proof.
  unfold prefixedKey. destruct (HasPrefix k (publicAddress c)) eqn:E; cbn [negb].
  - exact E.
  - apply HasPrefix_append.
Qed.

Lemma createRequest_inv t keys values (signer : S) req :
  createRequest Keccak256 t keys values signer = Ok req ->
  exists ks sg,
    keys = Some ks /\
    Sign signer (Keccak256 (signedBytes req)) = Ok (Some sg) /\
    req = mkRequest keys values t (Some sg).
Proof.
  unfold createRequest. destruct keys as [ks|]; [|discriminate].
  rewrite encodeKeysValuesAndTime_bytes. cbn [res_bind].
  destruct (Sign signer _) as [[sg|]|e] eqn:Es; try discriminate.
  intros H. inversion H; subst. exists ks, sg. repeat split. exact Es.
Qed.

(** X15. What the client signs is what the server verifies. For a
    well-formed request made by [createRequest], the signature attached is
    the one [Sign] returned for the hash of the signed bytes, and
    [decodeRequest], on the encoded request, hands its validator that same
    hash with that same signature and the request's timestamp; this once
    the runtime has provided the slices for the keys and the values,
    without which the process ends. *)
Theorem createRequest_verified {V} {HV : RequestValidator V} t keys values
    (signer : S) req (validator : V) :
  createRequest Keccak256 t keys values signer = Ok req ->
  wellFormed req ->
  exists data sg,
    encodeRequest req = Ok data /\
    sig req = Some sg /\
    Sign signer (Keccak256 (signedBytes req)) = Ok (Some sg) /\
    decodeRequest Keccak256 data validator
    = (if makes req then
         Returned
           (match Verify validator (Keccak256 (signedBytes req)) t (Some sg) with
            | (None, validator') => (Ok (received req), validator')
            | (Some err, validator') => (Err err, validator')
            end)
       else OutOfMemory).
Proof.
  intros Hc Hwf.
  destruct (createRequest_inv _ _ _ _ _ Hc) as (ks & sg & -> & Hs & Hreq).
  exists (signedBytes req ++ Wire.encodeBytes [] (sig req)), sg.
  split; [now apply encodeRequest_bytes|].
  split; [now rewrite Hreq|]. split; [exact Hs|].
  rewrite <- (app_nil_r (Wire.encodeBytes [] (sig req))).
  rewrite decodeRequest_wire by assumption.
  now rewrite Hreq.
Qed.

(** X16. Every key of the request that [BatchPut] builds begins with the
    client's public address: a key of the caller that already does is
    sent as it is, any other is sent as the address, a dash and the key.
    Values and timestamp are passed on unchanged, and the slice of keys is
    allocated also when the caller's is nil. *)
Theorem putRequest_keys_prefixed t (c : remoteClient S) keys values req :
  putRequest Keccak256 t c keys values = Ok req ->
  exists dbKeys',
    dbKeys req = Some dbKeys' /\
    length dbKeys' = length (elems keys) /\
    Forall (fun k => HasPrefix k (publicAddress c) = true) dbKeys' /\
    (forall idx k, elems keys !! idx = Some k ->
       dbKeys' !! idx
       = Some (if HasPrefix k (publicAddress c) then k
               else String.append (publicAddress c) (String.append "-" k))) /\
    dbValues req = values /\
    timestamp req = t.
Proof.
  unfold putRequest. intros Hc.
  destruct (createRequest_inv _ _ _ _ _ Hc) as (ks & sg & Hk & _ & ->).
  unfold make_from in Hk. inversion Hk; subst ks.
  exists (map (prefixedKey c) (elems keys)). cbn [dbKeys dbValues timestamp].
  split; [reflexivity|]. split; [apply length_map|]. split.
  - clear Hc Hk. induction (elems keys) as [|k l IH]; cbn [map];
      [constructor | constructor; [apply HasPrefix_prefixedKey | exact IH]].
  - split; [|split; reflexivity].
    intros idx k Hidx.
    change (map (prefixedKey c) (elems keys)) with (prefixedKey c <$> elems keys).
    rewrite list_lookup_fmap, Hidx. cbn. unfold prefixedKey.
    now destruct (HasPrefix k (publicAddress c)).
Qed.

(** X17. Without keys (a nil or an empty slice) [BatchGet] and [BatchPut]
    return an error and make no network exchange. *)
Theorem no_keys_no_exchange decodeResponse roundTrip elapsed fuel t
    (c : remoteClient S) keys values (w : Http.World) :
  len keys = 0 ->
  (exists e, BatchGet Keccak256 decodeResponse roundTrip elapsed fuel t c keys w
             = Some (Err e, w)) /\
  (exists e, BatchPut Keccak256 decodeResponse roundTrip elapsed fuel t c keys values w
             = Some (Err e, w)).
Proof.
  intros Hz.
  assert (Hnil : elems keys = []).
  { unfold len in Hz. destruct (elems keys); [reflexivity | cbn in Hz; lia]. }
  split.
  - unfold BatchGet.
    destruct (createRequest Keccak256 t keys None (privateKey c)) as [req|e] eqn:Ec;
      [|eauto].
    destruct (createRequest_inv _ _ _ _ _ Ec) as (ks & sg & -> & _ & ->).
    cbn [elems] in Hnil. subst ks. cbn. eauto.
  - unfold BatchPut, putRequest. rewrite Hnil. cbn [map].
    destruct (createRequest Keccak256 t (make_from []) values (privateKey c))
      as [req|e] eqn:Ec; [|eauto].
    destruct (createRequest_inv _ _ _ _ _ Ec) as (ks & sg & _ & _ & ->).
    cbn. eauto.
Qed.

End ClientFacts.

(** ** Client and server together *)

Section EndToEnd.

Context {HR : Runtime}.
Context {S C D PubKey : Type} {HS : RequestSigner S} {HC : History C} {HD : DB D}
        {HK : Crypto PubKey}.

Variable Keccak256 : list byte -> list byte.
Variable known : string -> bool.

(** X18. A [BatchPut] of a whitelisted client is served in full. If the
    client's signatures recover to its public address, the server
    whitelists that address with a history, the request is well-formed
    and, in case its timestamp is in that history already, the clock is
    not past the instant [time.Unix(t + 2, 0)] (which, for a timestamp so
    large that [time.Unix] wraps around, lies in the far past), then once
    the runtime has provided the slices for the keys and the values the
    server neither refuses the signature nor any key: every pair is put
    under its prefixed key, provided the store accepts them, the timestamp
    is added to the client's history, and the response is read back from
    the store. Without the memory for the slices the process ends. *)
Theorem BatchPut_request_served t now (c : remoteClient S) (i : remoteImpl C D)
    keys vals req data cache db db' :
  (forall h sg, Sign (privateKey c) h = Ok (Some sg) ->
     exists pub, SigToPub h (Some sg) = Ok pub /\ addressHex pub = publicAddress c) ->
  putRequest Keccak256 t c keys (Some vals) = Ok req ->
  wellFormed req ->
  encodeRequest req = Ok data ->
  vals <> [] ->
  length (elems keys) = length vals ->
  whitelist i !! publicAddress c = Some true ->
  wlHistory i !! publicAddress c = Some cache ->
  (Contains cache t = true ->
   After now (time_Unix (int64 (t + _validityThreshold)) 0) = false) ->
  localDB i = Some db ->
  putAll (zip (map (prefixedKey c) (elems keys)) (map allocated vals)) db = Ok db' ->
  IncomingRequest Keccak256 known now i data
  = (if makes req then
       (match readLoop known false (map (prefixedKey c) (elems keys)) db' ∅ with
        | Ok outMap => Responded (mkResponse outMap "")
        | Err err => Responded (errorResponse err)
        end,
        mkRemote (Some db') (whitelist i)
          (<[publicAddress c := Add cache t]> (wlHistory i)))
     else (Fatal "runtime: out of memory", i)).
Proof.
  intros Hcrypto Hput Hwf He Hne Hlen Hw Hh Hfresh Hdb Hputs.
  unfold putRequest in Hput.
  destruct (createRequest_inv _ _ _ _ _ _ Hput) as (ks & sg & Hk & Hs & Hreq).
  unfold make_from in Hk. inversion Hk; subst ks. clear Hk.
  destruct (Hcrypto _ _ Hs) as (pub & Hpub & Haddr).
  assert (Hd : data = signedBytes req ++ Wire.encodeBytes [] (sig req) ++ [])
    by (rewrite app_nil_r; rewrite (encodeRequest_bytes req Hwf) in He; congruence).
  unfold IncomingRequest.
  rewrite Hd, (decodeRequest_wire Keccak256 (HV := remote_validator now) req [] i Hwf).
  destruct (makes req); [|reflexivity].
  cbn [Verify remote_validator].
  assert (Hsig : allocated (sig req) = Some sg) by (now rewrite Hreq).
  assert (Hts : timestamp req = t) by (now rewrite Hreq).
  rewrite Hsig, Hts.
  rewrite (remote_Verify_accepts now i _ t (Some sg) pub cache Hpub);
    rewrite ?Haddr; auto.
  rewrite (serveRequest_write_all known _ (received req) db db'
             (map (prefixedKey c) (elems keys)) (map allocated vals)).
  - reflexivity.
  - rewrite Hdb. reflexivity.
  - now rewrite Hreq.
  - now rewrite Hreq.
  - destruct vals; [congruence | discriminate].
  - now rewrite !length_map.
  - apply Forall_forall. intros k Hin.
    apply hasAddressPrefix_spec. exists (publicAddress c). cbn [whitelist].
    split; [rewrite Hw; eauto|].
    apply list_elem_of_In, in_map_iff in Hin as (k0 & <- & _).
    apply HasPrefix_prefixedKey.
  - exact Hputs.
Qed.

End EndToEnd.

(** A request made by [createRequest] for [minerA]. *)
Lemma createRequest_verified_witness :
  createRequest (HS := Sample2.address_signer) Sample.digest 1000
    (Some [Sample.keyA]) (Some [Some ["001"%byte]]) Sample.minerA = Ok Sample.write1 /\
  wellFormed Sample.write1 /\
  exists data sg,
    encodeRequest Sample.write1 = Ok data /\
    sig Sample.write1 = Some sg /\
    decodeRequest (HR := Sample.machine) (HV := Sample.accept_all) Sample.digest data tt
    = Returned (Ok (received Sample.write1), tt).
Proof.
  assert (Hc : createRequest (HS := Sample2.address_signer) Sample.digest 1000
                 (Some [Sample.keyA]) (Some [Some ["001"%byte]]) Sample.minerA
               = Ok Sample.write1) by (vm_compute; reflexivity).
  assert (Hwf : wellFormed Sample.write1) by solve_wellFormed.
  split; [exact Hc|]. split; [exact Hwf|].
  destruct (createRequest_verified (HR := Sample.machine)
              (HS := Sample2.address_signer) Sample.digest
              (HV := Sample.accept_all) _ _ _ _ _ tt Hc Hwf)
    as (data & sg & He & Hs & _ & Hd).
  exists data, sg. repeat split; assumption.
Defined.

(** [clientA] puts a value under the key "lastSubmit". *)
Lemma putRequest_keys_prefixed_witness :
  putRequest (HS := Sample2.address_signer) Sample.digest 1000 Sample2.clientA
    (Some ["lastSubmit"]) (Some [Some ["001"%byte]]) = Ok Sample.write1 /\
  exists dbKeys',
    dbKeys Sample.write1 = Some dbKeys' /\
    Forall (fun k => HasPrefix k Sample.minerA = true) dbKeys'.
Proof.
  assert (Hp : putRequest (HS := Sample2.address_signer) Sample.digest 1000 Sample2.clientA
                 (Some ["lastSubmit"]) (Some [Some ["001"%byte]]) = Ok Sample.write1)
    by (vm_compute; reflexivity).
  split; [exact Hp|].
  destruct (putRequest_keys_prefixed (HS := Sample2.address_signer) Sample.digest
              _ _ _ _ _ Hp) as (ks & Hk & _ & Hall & _).
  exists ks. split; assumption.
Defined.

(** No keys at all. *)
Lemma no_keys_no_exchange_witness :
  len (@None (list string)) = 0 /\
  exists e,
    BatchPut (HS := Sample2.address_signer) Sample.digest (fun _ => Err "unused")
      (Sample.always 200 []) Sample.latency 6 1000 Sample2.clientA None
      (Some [Some ["001"%byte]]) (Http.mkWorld 0 0)
    = Some (Err e, Http.mkWorld 0 0).
Proof.
  split; [reflexivity|].
  exact (proj2 (no_keys_no_exchange (HS := Sample2.address_signer) Sample.digest
                  (fun _ => Err "unused") (Sample.always 200 []) Sample.latency 6 1000
                  Sample2.clientA None (Some [Some ["001"%byte]]) (Http.mkWorld 0 0)
                  eq_refl)).
Defined.

(** [clientA] puts a value at [serverA], fresh, at second 1000. *)
Lemma BatchPut_request_served_witness :
  putRequest (HS := Sample2.address_signer) Sample.digest 1000 Sample2.clientA
    (Some ["lastSubmit"]) (Some [Some ["001"%byte]]) = Ok Sample.write1 /\
  encodeRequest Sample.write1 = Ok (Sample.wire Sample.write1) /\
  Sample.stored (snd (IncomingRequest (HR := Sample.machine) (HC := Sample.recent_history)
                        (HD := Sample.map_store)
                        (HK := Sample.address_crypto) Sample.digest Sample.knownKeys
                        Sample.t1000 Sample2.serverA (Sample.wire Sample.write1)))
  = Some [(Sample.keyA, ["001"%byte])].
Proof.
  assert (Hp : putRequest (HS := Sample2.address_signer) Sample.digest 1000 Sample2.clientA
                 (Some ["lastSubmit"]) (Some [Some ["001"%byte]]) = Ok Sample.write1)
    by (vm_compute; reflexivity).
  assert (He : encodeRequest Sample.write1 = Ok (Sample.wire Sample.write1))
    by (vm_compute; reflexivity).
  split; [exact Hp|]. split; [exact He|].
  rewrite (BatchPut_request_served (HR := Sample.machine) (HS := Sample2.address_signer)
             (HC := Sample.recent_history) (HD := Sample.map_store)
             (HK := Sample.address_crypto) Sample.digest Sample.knownKeys
             1000 Sample.t1000 Sample2.clientA Sample2.serverA
             (Some ["lastSubmit"]) [Some ["001"%byte]] Sample.write1
             (Sample.wire Sample.write1) [] ∅ (<[ Sample.keyA := ["001"%byte] ]> ∅)).
  - vm_compute. reflexivity.
  - intros h sg Hs. cbn in Hs. inversion Hs; subst.
    exists Sample.minerA. split; vm_compute; reflexivity.
  - exact Hp.
  - solve_wellFormed.
  - exact He.
  - discriminate.
  - reflexivity.
  - vm_compute. reflexivity.
  - vm_compute. reflexivity.
  - intros _. vm_compute. reflexivity.
  - reflexivity.
  - reflexivity.
Defined.

(** ** More on the configuration checks *)

Lemma DecodeString_hex n : forall s,
  String.length s = (2 * n)%nat -> is_hex s = true ->
  exists b, Cfg.DecodeString s = (b, None) /\ length b = n.
Proof.
  induction n as [|n IH]; intros s Hl Hh.
  - destruct s; [|discriminate]. exists []. split; reflexivity.
  - destruct s as [|p [|q rest]]; try (cbn in Hl; lia).
    cbn [is_hex] in Hh.
    destruct (Cfg.fromHexChar p) as [a|] eqn:Ep; [|discriminate].
    destruct (Cfg.fromHexChar q) as [b|] eqn:Eq; [|discriminate].
    destruct (IH rest) as (bs & Hd & Hlen); [cbn in Hl; lia | exact Hh |].
    cbn [Cfg.DecodeString]. rewrite Ep, Eq, Hd.
    eexists. split; [reflexivity|]. cbn [length]. now rewrite Hlen.
Qed.

Lemma DecodeString_ok_inv n : forall s b,
  (String.length s <= n)%nat ->
  Cfg.DecodeString s = (b, None) ->
  String.length s = (2 * length b)%nat /\ is_hex s = true.
Proof.
  induction n as [|n IH]; intros s b Hl Hd.
  - destruct s; [|cbn in Hl; lia]. cbn in Hd. inversion Hd. split; reflexivity.
  - destruct s as [|p [|q rest]].
    + cbn in Hd. inversion Hd. split; reflexivity.
    + cbn in Hd. destruct (Cfg.fromHexChar p); discriminate.
    + cbn [Cfg.DecodeString] in Hd.
      destruct (Cfg.fromHexChar p) as [a|] eqn:Ep; [|discriminate].
      destruct (Cfg.fromHexChar q) as [c|] eqn:Eq; [|discriminate].
      destruct (Cfg.DecodeString rest) as [bs err] eqn:Er.
      inversion Hd; subst.
      destruct (IH rest bs) as [Hlen Hh]; [cbn in Hl; lia | exact Er |].
      cbn [is_hex String.length length]. rewrite Ep, Eq, Hlen. split; [lia | exact Hh].
Qed.

Lemma Qlt_bool_false x y : Cfg.Qlt_bool x y = false <-> (y <= x)%Q.
Proof.
  unfold Cfg.Qlt_bool. rewrite negb_false_iff. apply Qle_bool_iff.
Qed.

Section ConfigMore.

Variable Getenv : string -> string.

(** X19. A configuration that meets the four conditions is accepted: an
    address of 40 hexadecimal digits, a non-empty [NODE_URL], a private key
    of 64 hexadecimal digits and a gas multiplier between 0 and 20. *)
Theorem valid_config_accepted cfg :
  String.length (Cfg.PublicAddress cfg) = 40%nat ->
  is_hex (Cfg.PublicAddress cfg) = true ->
  Getenv Cfg.NodeURLEnvName <> "" ->
  String.length (Getenv Cfg.PrivateKeyEnvName) = 64%nat ->
  is_hex (Getenv Cfg.PrivateKeyEnvName) = true ->
  (0 <= Cfg.GasMultiplier cfg)%Q ->
  (Cfg.GasMultiplier cfg <= 20)%Q ->
  Cfg.validateConfig Getenv cfg = None.
Proof.
  intros Hal Hah Hn Hkl Hkh Hg0 Hg20.
  destruct (DecodeString_hex 20 _ Hal Hah) as (a & Ha & Hla).
  destruct (DecodeString_hex 32 _ Hkl Hkh) as (k & Hk & Hlk).
  unfold Cfg.validateConfig. rewrite Ha, Hla.
  destruct (bool_decide_reflect (@None error <> None)) as [E|_]; [congruence|].
  cbn [orb negb Z.eqb Z.of_nat Pos.of_succ_nat Pos.succ Pos.eqb].
  destruct (String.eqb_spec (Getenv Cfg.NodeURLEnvName) "") as [E|_]; [congruence|].
  rewrite Hk, Hlk.
  destruct (bool_decide_reflect (@None error <> None)) as [E|_]; [congruence|].
  cbn [orb negb Z.eqb Z.of_nat Pos.of_succ_nat Pos.succ Pos.eqb].
  rewrite (proj2 (Qlt_bool_false _ _) Hg0), (proj2 (Qlt_bool_false _ _) Hg20).
  reflexivity.
Qed.

(** X20. What [validateConfig] never lets through. An accepted
    configuration has an address made of hexadecimal digits only, in even
    number; if the address has 40 digits, then [NODE_URL] is not empty and
    the private key is made of hexadecimal digits only, in even number; and
    if moreover the key has 64 digits, the gas multiplier lies between 0
    and 20. *)
Theorem accepted_config_checked cfg :
  Cfg.validateConfig Getenv cfg = None ->
  is_hex (Cfg.PublicAddress cfg) = true /\
  Nat.even (String.length (Cfg.PublicAddress cfg)) = true /\
  (String.length (Cfg.PublicAddress cfg) = 40%nat ->
   Getenv Cfg.NodeURLEnvName <> "" /\
   is_hex (Getenv Cfg.PrivateKeyEnvName) = true /\
   Nat.even (String.length (Getenv Cfg.PrivateKeyEnvName)) = true /\
   (String.length (Getenv Cfg.PrivateKeyEnvName) = 64%nat ->
    (0 <= Cfg.GasMultiplier cfg)%Q /\ (Cfg.GasMultiplier cfg <= 20)%Q)).
Proof.
  unfold Cfg.validateConfig.
  destruct (Cfg.DecodeString (Cfg.PublicAddress cfg)) as [a [ea|]] eqn:Ea.
  { cbn. discriminate. }
  destruct (DecodeString_ok_inv _ _ _ (Nat.le_refl _) Ea) as [Hal Hah].
  intros Hv. split; [exact Hah|]. split.
  { rewrite Hal. clear. induction (length a) as [|m IH]; [reflexivity|].
    replace (2 * S m)%nat with (S (S (2 * m))) by lia. exact IH. }
  intros H40.
  assert (Hla : length a = 20%nat) by lia. rewrite Hla in Hv.
  destruct (bool_decide_reflect (@None error <> None)) as [E|_]; [congruence|].
  cbn [orb negb Z.eqb Z.of_nat Pos.of_succ_nat Pos.succ Pos.eqb] in Hv.
  destruct (String.eqb_spec (Getenv Cfg.NodeURLEnvName) "") as [E|Hn];
    [discriminate|].
  split; [exact Hn|].
  destruct (Cfg.DecodeString (Getenv Cfg.PrivateKeyEnvName)) as [k [ek|]] eqn:Ek.
  { cbn in Hv. discriminate. }
  destruct (DecodeString_ok_inv _ _ _ (Nat.le_refl _) Ek) as [Hkl Hkh].
  split; [exact Hkh|]. split.
  { rewrite Hkl. clear. induction (length k) as [|m IH]; [reflexivity|].
    replace (2 * S m)%nat with (S (S (2 * m))) by lia. exact IH. }
  intros H64.
  assert (Hlk : length k = 32%nat) by lia. rewrite Hlk in Hv.
  destruct (bool_decide_reflect (@None error <> None)) as [E|_]; [congruence|].
  cbn [orb negb Z.eqb Z.of_nat Pos.of_succ_nat Pos.succ Pos.eqb] in Hv.
  destruct (Cfg.Qlt_bool (Cfg.GasMultiplier cfg) 0) eqn:E0; [discriminate|].
  destruct (Cfg.Qlt_bool 20 (Cfg.GasMultiplier cfg)) eqn:E20; [discriminate|].
  split; now apply Qlt_bool_false.
Qed.

End ConfigMore.

Lemma valid_config_accepted_witness :
  String.length (Cfg.PublicAddress Sample2.cfg_ok) = 40%nat /\
  String.length (Sample2.env_ok Cfg.PrivateKeyEnvName) = 64%nat /\
  Cfg.validateConfig Sample2.env_ok Sample2.cfg_ok = None.
Proof.
  repeat (split; [reflexivity|]).
  apply valid_config_accepted; try reflexivity; try discriminate.
Defined.

Lemma accepted_config_checked_witness :
  Cfg.validateConfig Sample2.env_ok Sample2.cfg_ok = None /\
  is_hex (Cfg.PublicAddress Sample2.cfg_ok) = true /\
  Sample2.env_ok Cfg.NodeURLEnvName <> "".
Proof.
  assert (Hv : Cfg.validateConfig Sample2.env_ok Sample2.cfg_ok = None)
    by (vm_compute; reflexivity).
  split; [exact Hv|].
  destruct (accepted_config_checked Sample2.env_ok Sample2.cfg_ok Hv) as (Hh & _ & Hrest).
  split; [exact Hh|]. exact (proj1 (Hrest eq_refl)).
Defined.

(** ** More on fetching with retries *)

Section HttpMore.

Import Http.

Variable roundTrip : nat -> call -> res Response.
Variable elapsed : nat -> Z.

Lemma total_elapsed_nonneg :
  (forall n, 0 <= elapsed n) ->
  forall count from, 0 <= total_elapsed elapsed from count.
Proof.
  intros Hmono. induction count as [|c IH]; intros from; cbn [total_elapsed]; [lia|].
  pose proof (Hmono from). pose proof (IH (S from)). lia.
Qed.

(** X21. When the clock does not run backwards, a fetch makes at most
    [Timeout / 500 ms + 2] exchanges, and spends at most the timeout plus
    500 ms sleeping between them. *)
Theorem HTTPWithRetries_bounded (req : HTTPFetchRequest) (w w' : World) (fuel : nat) r :
  (forall n, 0 <= elapsed n) ->
  HTTPWithRetries roundTrip elapsed fuel req w = Some (r, w') ->
  (exchanges w' - exchanges w <= attempts (Timeout req))%nat /\
  exists k,
    exchanges w' = (exchanges w + S k)%nat /\
    clock w' = clock w + total_elapsed elapsed (exchanges w) (S k)
               + Z.of_nat k * (500 * Millisecond) /\
    (k = 0%nat \/ Z.of_nat k * (500 * Millisecond) <= Timeout req + 500 * Millisecond).
Proof.
  intros Hmono Hrun. unfold HTTPWithRetries in Hrun.
  apply recReq_spec in Hrun as (k & He & Hc & Hbefore & _).
  assert (Hk : k = 0%nat \/ Z.of_nat k * (500 * Millisecond) <= Timeout req + 500 * Millisecond).
  { destruct k as [|k']; [now left|]. right.
    destruct (Hbefore k' ltac:(lia)) as [_ Hb]. unfold clock_after in Hb.
    pose proof (total_elapsed_nonneg Hmono (S k') (exchanges w)).
    unfold Millisecond in *. lia. }
  split; [|exists k; repeat split; auto].
  rewrite He. unfold attempts.
  destruct Hk as [->|Hk]; [lia|].
  assert (Hq : Z.of_nat k - 1 <= Timeout req / (500 * Millisecond)).
  { apply Z.div_le_lower_bound; unfold Millisecond in *; lia. }
  lia.
Qed.

End HttpMore.

(** A server that always answers 500: five exchanges in two seconds. *)
Lemma HTTPWithRetries_bounded_witness :
  (forall n, 0 <= Sample.latency n) /\
  exists r,
    Http.HTTPWithRetries (Sample.always 500 []) Sample.latency 6 Sample.fetch1
      (Http.mkWorld 0 0)
    = Some (r, Http.mkWorld (2500 * Http.Millisecond) 5) /\
    (5 - 0 <= Http.attempts (Http.Timeout Sample.fetch1))%nat.
Proof.
  assert (Hmono : forall n, 0 <= Sample.latency n)
    by (intros n; unfold Sample.latency, Http.Millisecond; lia).
  split; [exact Hmono|].
  eexists. split; [vm_compute; reflexivity|].
  exact (proj1 (HTTPWithRetries_bounded (Sample.always 500 []) Sample.latency
                  Sample.fetch1 (Http.mkWorld 0 0) (Http.mkWorld (2500 * Http.Millisecond) 5)
                  6 _ Hmono eq_refl)).
Defined.

Section TrackerFacts.

Import Tracker.

Variable get : nat -> string -> Z -> res Response.
Variable elapsed : nat -> Z.

(** What a completed fetch has done: [k] attempts that were tried again,
    and a last one that decided the result. *)
Lemma recFetch_trace fuel :
  forall req expiration w r w',
    _recFetch get elapsed fuel req expiration w = Some (r, w') ->
    exists k,
      (forall j, (j < k)%nat ->
         let wj := before get elapsed j req expiration w in
         let out := exchange get elapsed (queryURL req) (expiration - Http.clock wj) wj in
         transient (fst out) = true /\ After (Http.clock (snd out)) expiration = false) /\
      let wk := before get elapsed k req expiration w in
      let out := exchange get elapsed (queryURL req) (expiration - Http.clock wk) wk in
      w' = snd out /\
      Http.exchanges w' = (Http.exchanges w + S k)%nat /\
      match fst out with
      | Err err =>
          After (Http.clock w') expiration = true /\
          r = Err (Main.wrap "retry timeout expired, last error is wrapped" err)
      | Ok resp =>
          match Body resp with
          | Err err => r = Err (Main.wrap "read response body" err)
          | Ok data =>
              if (StatusCode resp <? 200) || (StatusCode resp >? 299) then
                After (Http.clock w') expiration = true /\
                r = Err (String.append "giving up fetch request after request timeout:"
                           (pretty (StatusCode resp)))
              else r = Ok data
          end
      end.
Proof.
  induction fuel as [|fuel IH]; intros req expiration w r w' Hrun; [discriminate|].
  cbn [_recFetch] in Hrun.
  destruct (exchange get elapsed (queryURL req) (expiration - Http.clock w) w)
    as [r0 w1] eqn:Ex.
  assert (Hw1 : Http.exchanges w1 = S (Http.exchanges w)).
  { unfold exchange in Ex. inversion Ex. reflexivity. }
  assert (Hlast : forall (Hfin :
      match r0 with
      | Err err =>
          After (Http.clock w1) expiration = true /\
          r = Err (Main.wrap "retry timeout expired, last error is wrapped" err)
      | Ok resp =>
          match Body resp with
          | Err err => r = Err (Main.wrap "read response body" err)
          | Ok data =>
              if (StatusCode resp <? 200) || (StatusCode resp >? 299) then
                After (Http.clock w1) expiration = true /\
                r = Err (String.append "giving up fetch request after request timeout:"
                           (pretty (StatusCode resp)))
              else r = Ok data
          end
      end) (Hw : w' = w1), exists k,
      (forall j, (j < k)%nat ->
         let wj := before get elapsed j req expiration w in
         let out := exchange get elapsed (queryURL req) (expiration - Http.clock wj) wj in
         transient (fst out) = true /\ After (Http.clock (snd out)) expiration = false) /\
      let wk := before get elapsed k req expiration w in
      let out := exchange get elapsed (queryURL req) (expiration - Http.clock wk) wk in
      w' = snd out /\
      Http.exchanges w' = (Http.exchanges w + S k)%nat /\
      match fst out with
      | Err err =>
          After (Http.clock w') expiration = true /\
          r = Err (Main.wrap "retry timeout expired, last error is wrapped" err)
      | Ok resp =>
          match Body resp with
          | Err err => r = Err (Main.wrap "read response body" err)
          | Ok data =>
              if (StatusCode resp <? 200) || (StatusCode resp >? 299) then
                After (Http.clock w') expiration = true /\
                r = Err (String.append "giving up fetch request after request timeout:"
                           (pretty (StatusCode resp)))
              else r = Ok data
          end
      end).
  { intros Hfin ->. exists 0%nat. split; [intros j Hj; lia|].
    cbn [before]. rewrite Ex. cbn [fst snd].
    split; [reflexivity|]. split; [lia | exact Hfin]. }
  assert (Hretry : forall (Htr : transient r0 = true)
      (Hnot : After (Http.clock w1) expiration = false)
      (Hrec : _recFetch get elapsed fuel req expiration (Http.Sleep (pause r0) w1)
              = Some (r, w')), exists k,
      (forall j, (j < k)%nat ->
         let wj := before get elapsed j req expiration w in
         let out := exchange get elapsed (queryURL req) (expiration - Http.clock wj) wj in
         transient (fst out) = true /\ After (Http.clock (snd out)) expiration = false) /\
      let wk := before get elapsed k req expiration w in
      let out := exchange get elapsed (queryURL req) (expiration - Http.clock wk) wk in
      w' = snd out /\
      Http.exchanges w' = (Http.exchanges w + S k)%nat /\
      match fst out with
      | Err err =>
          After (Http.clock w') expiration = true /\
          r = Err (Main.wrap "retry timeout expired, last error is wrapped" err)
      | Ok resp =>
          match Body resp with
          | Err err => r = Err (Main.wrap "read response body" err)
          | Ok data =>
              if (StatusCode resp <? 200) || (StatusCode resp >? 299) then
                After (Http.clock w') expiration = true /\
                r = Err (String.append "giving up fetch request after request timeout:"
                           (pretty (StatusCode resp)))
              else r = Ok data
          end
      end).
  { intros Htr Hnot Hrec. apply IH in Hrec as (k & Hbefore & Hend).
    exists (S k). split.
    - intros [|j] Hj.
      + cbn [before]. rewrite Ex. cbn [fst snd]. auto.
      + cbn [before]. rewrite Ex. apply Hbefore. lia.
    - cbn [before]. rewrite Ex. cbv zeta in Hend |- *.
      destruct Hend as (Hw' & Hex & Hfin).
      split; [exact Hw'|]. split; [|exact Hfin].
      rewrite Hex. cbn [Http.Sleep Http.exchanges]. rewrite Hw1. lia. }
  destruct r0 as [resp|err].
  - destruct (Body resp) as [data|e] eqn:Eb.
    + destruct ((StatusCode resp <? 200) || (StatusCode resp >? 299)) eqn:Est.
      * destruct (After (Http.clock w1) expiration) eqn:Ea.
        -- inversion Hrun; subst r w'.
           apply Hlast; [rewrite ?Eb, ?Est; auto | reflexivity].
        -- apply Hretry;
             [unfold transient; rewrite ?Eb; auto | reflexivity | exact Hrun].
      * inversion Hrun; subst r w'.
        apply Hlast; [rewrite ?Eb, ?Est; auto | reflexivity].
    + inversion Hrun; subst r w'.
      apply Hlast; [rewrite ?Eb; auto | reflexivity].
  - destruct (After (Http.clock w1) expiration) eqn:Ea.
    + inversion Hrun; subst r w'. apply Hlast; [auto | reflexivity].
    + apply Hretry; [reflexivity | reflexivity | exact Hrun].
Qed.

(** Each attempt that is tried again takes the clock half a second
    further at least. *)
Lemma before_clock k :
  (forall n, 0 <= elapsed n) ->
  forall req expiration w,
    Http.clock w + Z.of_nat k * (500 * Http.Millisecond)
    <= Http.clock (before get elapsed k req expiration w).
Proof.
  intros Hmono. induction k as [|k IH]; intros req expiration w.
  - cbn [before]. lia.
  - cbn [before]. unfold exchange.
    set (r := get (Http.exchanges w) (queryURL req) (expiration - Http.clock w)).
    etransitivity; [|apply IH].
    cbn [Http.Sleep Http.clock]. pose proof (Hmono (Http.exchanges w)).
    assert (500 * Http.Millisecond <= pause r)
      by (destruct r; unfold pause, Http.Millisecond; lia).
    lia.
Qed.

Lemma recFetch_terminates fuel :
  (forall n, 0 <= elapsed n) ->
  forall req expiration w,
    (1 <= fuel)%nat ->
    expiration - Http.clock w < (Z.of_nat fuel - 1) * (500 * Http.Millisecond) ->
    exists r w', _recFetch get elapsed fuel req expiration w = Some (r, w').
Proof.
  intros Hmono. induction fuel as [|fuel IH]; intros req expiration w Hf Hleft; [lia|].
  cbn [_recFetch]. unfold exchange.
  set (w1 := Http.mkWorld (Http.clock w + elapsed (Http.exchanges w))
               (S (Http.exchanges w))).
  assert (Hnext : forall d, 500 * Http.Millisecond <= d ->
            After (Http.clock w1) expiration = false ->
            exists r w', _recFetch get elapsed fuel req expiration (Http.Sleep d w1)
                         = Some (r, w')).
  { intros d Hd Ea. unfold After in Ea. cbn [w1 Http.clock] in Ea.
    pose proof (Hmono (Http.exchanges w)) as He.
    assert (Hms : 0 < 500 * Http.Millisecond) by (unfold Http.Millisecond; lia).
    apply IH; cbn [Http.Sleep w1 Http.clock]; nia. }
  destruct (get (Http.exchanges w) (queryURL req) _) as [resp|err].
  - destruct (Body resp) as [data|e]; [|eauto].
    destruct ((StatusCode resp <? 200) || (StatusCode resp >? 299)); [|eauto].
    destruct (After (Http.clock w1) expiration) eqn:Ea; [eauto|].
    apply Hnext; [lia | reflexivity].
  - destruct (After (Http.clock w1) expiration) eqn:Ea; [eauto|].
    apply Hnext; [unfold Http.Millisecond; lia | reflexivity].
Qed.

(** X22. The fetch of the trackers. When no exchange takes negative
    time, [fetchWithRetries] returns after [k + 1] exchanges, at most
    [timeout / 500 ms + 2] of them. Each exchange is made with the timeout
    of the client set to what is left until the deadline (the start plus
    the timeout of the request) at that moment. The first [k] ended
    before the deadline in a transport error or in a response, read in
    full, with a status code outside 200..299, and were followed by a sleep
    of one second and of half a second respectively. The last one decides:
    its body, when it was read without error and the status code is in
    200..299; the error of the read, at once and whatever the deadline,
    when the body could not be read; and after the deadline the wrapped
    transport error, or the status code that was not accepted. *)
Theorem fetchWithRetries_spec (req : FetchRequest) (w : Http.World) (fuel : nat) :
  (forall n, 0 <= elapsed n) ->
  (Http.attempts (timeout req) <= fuel)%nat ->
  let expiration := Http.clock w + timeout req in
  exists k r w',
    fetchWithRetries get elapsed fuel req w = Some (r, w') /\
    (S k <= Http.attempts (timeout req))%nat /\
    (forall j, (j < k)%nat ->
       let wj := before get elapsed j req expiration w in
       let out := exchange get elapsed (queryURL req) (expiration - Http.clock wj) wj in
       transient (fst out) = true /\ After (Http.clock (snd out)) expiration = false) /\
    let wk := before get elapsed k req expiration w in
    let out := exchange get elapsed (queryURL req) (expiration - Http.clock wk) wk in
    w' = snd out /\
    Http.exchanges w' = (Http.exchanges w + S k)%nat /\
    match fst out with
    | Err err =>
        After (Http.clock w') expiration = true /\
        r = Err (Main.wrap "retry timeout expired, last error is wrapped" err)
    | Ok resp =>
        match Body resp with
        | Err err => r = Err (Main.wrap "read response body" err)
        | Ok data =>
            if (StatusCode resp <? 200) || (StatusCode resp >? 299) then
              After (Http.clock w') expiration = true /\
              r = Err (String.append "giving up fetch request after request timeout:"
                         (pretty (StatusCode resp)))
            else r = Ok data
        end
    end.
Proof.
  intros Hmono Hfuel expiration. unfold fetchWithRetries.
  destruct (attempts_suffice _ _ Hfuel) as [H1 Hlt].
  destruct (recFetch_terminates fuel Hmono req expiration w H1)
    as (r & w' & Hrun); [unfold expiration; lia|].
  fold expiration.
  destruct (recFetch_trace _ _ _ _ _ _ Hrun) as (k & Hbefore & Hend).
  exists k, r, w'. split; [exact Hrun|]. split; [|split; [exact Hbefore | exact Hend]].
  unfold Http.attempts.
  destruct k as [|k]; [lia|].
  destruct (Hbefore k ltac:(lia)) as [_ Hnot].
  pose proof (before_clock k Hmono req expiration w) as Hck.
  unfold After, exchange in Hnot. cbn [snd Http.clock] in Hnot.
  pose proof (Hmono (Http.exchanges (before get elapsed k req expiration w))) as He.
  assert (Hle : Z.of_nat k * (500 * Http.Millisecond) <= timeout req)
    by (unfold expiration in *; lia).
  assert (Hms : 0 < 500 * Http.Millisecond) by (unfold Http.Millisecond; lia).
  assert (Hq : Z.of_nat k <= timeout req / (500 * Http.Millisecond))
    by (apply Z.div_le_lower_bound; lia).
  lia.
Qed.

End TrackerFacts.

(** A first connection refused, then an answer: two exchanges, the second
    one 1.1 s after the start with 0.9 s left. *)
Lemma fetchWithRetries_spec_witness :
  (forall n, 0 <= Sample.latency n) /\
  (Http.attempts (Tracker.timeout Sample2.fetch2) <= 6)%nat /\
  Tracker.fetchWithRetries Sample2.flaky_get Sample.latency 6 Sample2.fetch2
    (Http.mkWorld 0 0)
  = Some (Ok [Byte.x34; Byte.x32], Http.mkWorld (1200 * Http.Millisecond) 2) /\
  exists k r w',
    Tracker.fetchWithRetries Sample2.flaky_get Sample.latency 6 Sample2.fetch2
      (Http.mkWorld 0 0) = Some (r, w') /\
    (S k <= Http.attempts (Tracker.timeout Sample2.fetch2))%nat /\
    Http.exchanges w' = S k.
Proof.
  assert (Hmono : forall n, 0 <= Sample.latency n)
    by (intros n; unfold Sample.latency, Http.Millisecond; lia).
  assert (Hfuel : (Http.attempts (Tracker.timeout Sample2.fetch2) <= 6)%nat)
    by (vm_compute; lia).
  split; [exact Hmono|]. split; [exact Hfuel|]. split; [vm_compute; reflexivity|].
  destruct (fetchWithRetries_spec Sample2.flaky_get Sample.latency Sample2.fetch2
              (Http.mkWorld 0 0) 6 Hmono Hfuel) as (k & r & w' & Hrun & Hlt & _ & Hend).
  cbv zeta in Hend. destruct Hend as (_ & Hex & _).
  exists k, r, w'. split; [exact Hrun|]. split; [exact Hlt | exact Hex].
Defined.

(** ** More on the mine command *)

Section MineMore.

Import Main.

Variable env : Env.






(** X26. With the pool worker enabled the preparation that would store a
    proxy in the global context is skipped: when the context holds none,
    the mine command panics at once, before anything is written or
    started. *)
Theorem pool_worker_mine_panics remote w :
  EnablePoolWorker env = true -> ctxDataProxy w = None ->
  exists msg, mineCmd env remote w = (inr (Panic msg), w).
Proof.
  intros Hpool Hctx. unfold mineCmd, prepare, bind. rewrite Hpool. cbn.
  unfold startMiner, bind, ctx_DataProxy. rewrite Hctx. eauto.
Qed.

End MineMore.




Lemma pool_worker_mine_panics_witness :
  Main.EnablePoolWorker Sample2.pool_env = true /\
  Main.ctxDataProxy Sample.world0 = None /\
  exists msg,
    Main.mineCmd Sample2.pool_env true Sample.world0 = (inr (Main.Panic msg), Sample.world0).
Proof.
  split; [reflexivity|]. split; [reflexivity|].
  exact (pool_worker_mine_panics Sample2.pool_env true Sample.world0 eq_refl eq_refl).
Defined.

(** ** Waiting for the services to stop *)

Section ShutdownFacts.

Import Shutdown.

Variables ds miner : option (Z -> bool).

Lemma iterations_S from count :
  iterations from (S count) = Z.of_nat from :: iterations (S from) count.
Proof. reflexivity. Qed.

(** [k] iterations in which some service still runs. *)
Lemma waitStopped_skip k :
  forall fuel s,
    0 <= cnt s -> cnt s + Z.of_nat k < 2 ^ 63 ->
    (forall i, cnt s < i <= cnt s + Z.of_nat k ->
               stopped ds i && stopped miner i = false) ->
    waitStopped (k + fuel) ds miner s =
    waitStopped fuel ds miner
      (mkState (cnt s + Z.of_nat k)
         (logged s ++ repeat overdue
            (List.length (List.filter (late ds miner)
                            (iterations (S (Z.to_nat (cnt s))) k))))
         (sleeps s + k)).
Proof.
  induction k as [|k IH]; intros fuel s H0 Hmax Hrun.
  - cbn [repeat iterations seq map List.filter List.length Nat.add].
    rewrite Z.add_0_r, app_nil_r, Nat.add_0_r. now destruct s.
  - cbn [Nat.add waitStopped].
    rewrite (int64_small (cnt s + 1)) by lia.
    assert (Hone : stopped ds (cnt s + 1) && stopped miner (cnt s + 1) = false)
      by (apply Hrun; lia).
    assert (Hhead : Z.of_nat (S (Z.to_nat (cnt s))) = cnt s + 1) by lia.
    assert (Hnext : S (Z.to_nat (cnt s)) = Z.to_nat (cnt s + 1)) by lia.
    rewrite iterations_S, Hhead, Hnext. cbn [List.filter].
    fold (late ds miner (cnt s + 1)).
    destruct (late ds miner (cnt s + 1)) eqn:Hlate.
    + rewrite IH; cbn [cnt logged sleeps]; try lia.
      * f_equal. f_equal; [lia | | lia].
        cbn [List.length repeat]. now rewrite <- app_assoc.
      * intros i Hi. apply Hrun. lia.
    + rewrite Hone. rewrite IH; cbn [cnt logged sleeps]; try lia.
      * f_equal. f_equal; lia.
      * intros i Hi. apply Hrun. lia.
Qed.

(** X27. The wait for the services. When the [n]-th iteration is the
    first at which the data server and the miner are both stopped (a
    service that was never created counts as stopped), the loop ends in
    that iteration, after [n - 1] sleeps of 500 ms, having logged the
    warning once for every earlier iteration after the sixtieth at which
    both services were still running; before that iteration it does not
    end. *)
Theorem waitStopped_first_stop (n fuel : nat) :
  (1 <= n)%nat -> Z.of_nat n < 2 ^ 63 ->
  (forall i, (1 <= i < n)%nat ->
             stopped ds (Z.of_nat i) && stopped miner (Z.of_nat i) = false) ->
  stopped ds (Z.of_nat n) && stopped miner (Z.of_nat n) = true ->
  waitStopped fuel ds miner (mkState 0 [] 0) =
  if (n <=? fuel)%nat then
    Some (mkState (Z.of_nat n)
            (repeat overdue
               (List.length (List.filter (late ds miner) (iterations 1 (n - 1)))))
            (n - 1))
  else None.
Proof.
  intros Hn Hmax Hrun Hstop.
  destruct (n <=? fuel)%nat eqn:Hf.
  - apply Nat.leb_le in Hf.
    replace fuel with ((n - 1) + S (fuel - n))%nat by lia.
    rewrite waitStopped_skip; cbn [cnt logged sleeps]; try lia.
    + cbn [waitStopped cnt logged sleeps].
      rewrite int64_small by lia.
      replace (0 + Z.of_nat (n - 1) + 1) with (Z.of_nat n) by lia.
      apply andb_true_iff in Hstop as [Hd Hm]. rewrite Hd, Hm. cbn.
      reflexivity.
    + intros i Hi. replace i with (Z.of_nat (Z.to_nat i)) by lia.
      apply Hrun. lia.
  - apply Nat.leb_gt in Hf.
    replace fuel with (fuel + 0)%nat by lia.
    rewrite waitStopped_skip; cbn [cnt]; try lia; [reflexivity|].
    intros i Hi. replace i with (Z.of_nat (Z.to_nat i)) by lia.
    apply Hrun. lia.
Qed.

(** X28. While at every iteration some service still runs, the wait does
    not end: a service that never reports that it stopped keeps the
    command from completing. *)
Theorem waitStopped_waits (fuel : nat) :
  Z.of_nat fuel < 2 ^ 63 ->
  (forall i, (1 <= i <= fuel)%nat ->
             stopped ds (Z.of_nat i) && stopped miner (Z.of_nat i) = false) ->
  waitStopped fuel ds miner (mkState 0 [] 0) = None.
Proof.
  intros Hmax Hrun.
  replace fuel with (fuel + 0)%nat at 1 by lia.
  rewrite waitStopped_skip; cbn [cnt]; try lia; [reflexivity|].
  intros i Hi. replace i with (Z.of_nat (Z.to_nat i)) by lia.
  apply Hrun. lia.
Qed.

End ShutdownFacts.

(** The data server stops at the second iteration, the miner at the
    third. *)
Lemma waitStopped_first_stop_witness :
  Shutdown.waitStopped 5 (Some Sample2.dsRunning) (Some Sample2.minerRunning)
    (Shutdown.mkState 0 [] 0)
  = Some (Shutdown.mkState 3 [] 2).
Proof.
  apply (waitStopped_first_stop (Some Sample2.dsRunning) (Some Sample2.minerRunning) 3 5);
    [lia | reflexivity | | reflexivity].
  intros i Hi. assert (Hc : i = 1%nat \/ i = 2%nat) by lia.
  destruct Hc as [->| ->]; reflexivity.
Defined.

(** A miner that never stops. *)
Lemma waitStopped_waits_witness :
  Shutdown.waitStopped 3 None (Some (fun _ => true)) (Shutdown.mkState 0 [] 0) = None.
Proof.
  apply waitStopped_waits; [reflexivity|].
  intros i Hi. reflexivity.
Defined.
